(** * AppleMIDI (RTP-MIDI) session participant: net/applemidi.cpp

    A shallow embedding of the wire codec, the session state machine and
    the sync/feedback engine of [CAppleMIDIParticipant], with the
    properties the specification states about them.  The embedding comes
    first, function by function in the order of the source; then the
    definitions the statements need; then the lemmas and theorems.

    Conventions.
    - A [uN] value is a [Z] in [0, 2^N); arithmetic that can leave the
      range is wrapped explicitly with [wrap].
    - A buffer ([const u8*]) is a [list byte]; an offset into it is a [Z].
      Reading past the end of the array is undefined in C++; the model
      reads 0 there.  Past a receive buffer of the participant lie the
      members that follow it in the object, so what is said of the bytes
      handed to the sink is said of frames whose declared payload ends
      inside the buffer ([payload_inside]).
    - Calls into the Circle library (clock, random source, sockets, logger,
      MIDI sink) go through a small monad: an oracle state for the values
      the collaborators return and a list of the events they observe. *)

From Stdlib Require Import ZArith List Bool Lia String Ascii.
From Stdlib Require Import Strings.Byte.
Import ListNotations.
Local Open Scope Z_scope.

(** ** Machine integers and bytes *)

Definition wrap (bits : Z) (x : Z) : Z := x mod 2 ^ bits.

Definition u8 (b : byte) : Z := Z.of_N (Byte.to_N b).

Definition byte_of_Z (z : Z) : byte :=
  match Byte.of_N (Z.to_N (z mod 256)) with
  | Some b => b
  | None => x00
  end.

Definition byte_at (pBuffer : list byte) (off : Z) : byte :=
  nth (Z.to_nat off) pBuffer x00.

(** [n] successive bytes starting at [pBuffer + off]. *)
Definition bytes_at (pBuffer : list byte) (off : Z) (n : nat) : list byte :=
  map (fun k => byte_at pBuffer (off + Z.of_nat k)) (seq 0 n).

(** The target (ARM, Raspberry Pi) is little-endian: an integer object in
    memory has its least significant byte first. *)
Fixpoint le_decode (bs : list byte) : Z :=
  match bs with
  | [] => 0
  | b :: r => u8 b + 256 * le_decode r
  end.

Fixpoint le_encode (n : nat) (v : Z) : list byte :=
  match n with
  | O => []
  | S k => byte_of_Z (v mod 256) :: le_encode k (v / 256)
  end.

(** [*(reinterpret_cast<const uN*>(pBuffer + off))] for N = 8 * n. *)
Definition load (n : nat) (pBuffer : list byte) (off : Z) : Z :=
  le_decode (bytes_at pBuffer off n).

(** Modelled from the spec: net/byteorder.h (ntohs, ntohl, ntohll, htons,
    htonl, htonll) is not among the sources.  The spec says that every
    multi-byte integer on the wire is big-endian and that a field in memory
    becomes a wire field only through a byte-order conversion: on the
    little-endian target each conversion reverses the bytes of its
    operand. *)
Definition bswap (n : nat) (v : Z) : Z := le_decode (rev (le_encode n v)).

Definition ntohs := bswap 2.
Definition ntohl := bswap 4.
Definition ntohll := bswap 8.
Definition htons := bswap 2.
Definition htonl := bswap 4.
Definition htonll := bswap 8.

(** The value of a big-endian wire field. *)
Definition be_decode (bs : list byte) : Z := le_decode (rev bs).

(** [strncpy(dst, src, n)]: the characters of [src] up to its first NUL,
    padded with NULs to [n] characters; no terminator when [src] has [n]
    characters or more. *)
Fixpoint strncpy (src : list byte) (n : nat) : list byte :=
  match n with
  | O => []
  | S k =>
      match src with
      | [] => repeat x00 (S k)
      | c :: r => if Byte.eqb c x00 then repeat x00 (S k) else c :: strncpy r k
      end
  end.

(** [strlen] of a character array. *)
Fixpoint strlen (s : list byte) : Z :=
  match s with
  | [] => 0
  | c :: r => if Byte.eqb c x00 then 0 else 1 + strlen r
  end.

(** ** Constants (applemidi.cpp, lines 35-61) *)

Definition ControlPort : Z := 5000.
Definition MIDIPort : Z := ControlPort + 1.

Definition AppleMIDISignature : Z := 0xFFFF.
Definition AppleMIDIVersion : Z := 2.

Definition RTPMIDIPayloadType : Z := 0x61.
Definition RTPMIDIVersion : Z := 2.

(** Timeout period for sync packets (60 seconds in 100 microsecond units). *)
Definition SyncTimeout : Z := 60 * 10000.

(** Receiver feedback packet frequency (1 second in 100 microsecond units). *)
Definition ReceiverFeedbackPeriod : Z := 1 * 10000.

Definition AppleMIDIName : string := "applemidi".

Definition CommandWord (Command : string) : Z :=
  match list_byte_of_string Command with
  | c0 :: c1 :: _ => Z.lor (Z.shiftl (u8 c0) 8) (u8 c1)
  | _ => 0
  end.

Definition Invitation : Z := CommandWord "IN".
Definition InvitationAccepted : Z := CommandWord "OK".
Definition Sync : Z := CommandWord "CK".
Definition ReceiverFeedback : Z := CommandWord "RS".
Definition EndSession : Z := CommandWord "BY".

(** ** Packed wire structures (lines 63-114) *)

Record TAppleMIDIInvitation := mkInvitation {
  inv_nSignature : Z;
  inv_nCommand : Z;
  inv_nVersion : Z;
  inv_nInitiatorToken : Z;
  inv_nSSRC : Z;
  inv_Name : list byte          (* char Name[256] *)
}.

Record TAppleMIDIEndSession := mkEndSession {
  end_nSignature : Z;
  end_nCommand : Z;
  end_nVersion : Z;
  end_nInitiatorToken : Z;
  end_nSSRC : Z
}.

Record TAppleMIDISync := mkSync {
  sync_nSignature : Z;
  sync_nCommand : Z;
  sync_nSSRC : Z;
  sync_nCount : Z;
  sync_nTimestamps : Z * Z * Z  (* u64 nTimestamps[3] *)
}.

Record TAppleMIDIReceiverFeedback := mkReceiverFeedback {
  fb_nSignature : Z;
  fb_nCommand : Z;
  fb_nSSRC : Z;
  fb_nSequence : Z
}.

Record TRTPHeader := mkRTPHeader {
  rtp_nFlags : Z;
  rtp_nSequence : Z;
  rtp_nTimestamp : Z;
  rtp_nSSRC : Z
}.

(** [TRTPMIDI::nHeader] is never assigned by the parser; only the RTP
    header is an output. *)
Record TRTPMIDI := mkRTPMIDI {
  RTPHeader : TRTPHeader
}.

Definition sizeof_TAppleMIDIInvitation : Z := 2 + 2 + 4 + 4 + 4 + 256.
Definition sizeof_Name : Z := 256.
Definition sizeof_TAppleMIDIEndSession : Z := 2 + 2 + 4 + 4 + 4.
Definition sizeof_TAppleMIDISync : Z := 2 + 2 + 4 + 1 + 3 + 3 * 8.
Definition sizeof_TAppleMIDIReceiverFeedback : Z := 2 + 2 + 4 + 4.

(** ** Decoders (lines 125-282)

    A decoder returns [None] where the source returns [false]; the output
    structure is written only on the accepting path. *)

Definition ParseInvitationPacket (pBuffer : list byte) (nSize : Z)
  : option TAppleMIDIInvitation :=
  let nSizeWithoutName := sizeof_TAppleMIDIInvitation - sizeof_Name in
  if nSize <? nSizeWithoutName then None else
  let nSignature := ntohs (load 2 pBuffer 0) in
  if negb (nSignature =? AppleMIDISignature) then None else
  let nCommand := ntohs (load 2 pBuffer 2) in
  if negb (nCommand =? Invitation) then None else
  let nVersion := ntohl (load 4 pBuffer 4) in
  if negb (nVersion =? AppleMIDIVersion) then None else
  let nInitiatorToken := ntohl (load 4 pBuffer 8) in
  let nSSRC := ntohl (load 4 pBuffer 12) in
  let Name :=
    if nSize >? nSizeWithoutName
    then strncpy (skipn 16 pBuffer) (Z.to_nat sizeof_Name)
    else strncpy (list_byte_of_string "<unknown>") (Z.to_nat sizeof_Name) in
  Some (mkInvitation nSignature nCommand nVersion nInitiatorToken nSSRC Name).

Definition ParseEndSessionPacket (pBuffer : list byte) (nSize : Z)
  : option TAppleMIDIEndSession :=
  if nSize <? sizeof_TAppleMIDIEndSession then None else
  let nSignature := ntohs (load 2 pBuffer 0) in
  if negb (nSignature =? AppleMIDISignature) then None else
  let nCommand := ntohs (load 2 pBuffer 2) in
  if negb (nCommand =? EndSession) then None else
  let nVersion := ntohl (load 4 pBuffer 4) in
  if negb (nVersion =? AppleMIDIVersion) then None else
  let nInitiatorToken := ntohl (load 4 pBuffer 8) in
  let nSSRC := ntohl (load 4 pBuffer 12) in
  Some (mkEndSession nSignature nCommand nVersion nInitiatorToken nSSRC).

Definition ParseSyncPacket (pBuffer : list byte) (nSize : Z)
  : option TAppleMIDISync :=
  if negb (nSize =? sizeof_TAppleMIDISync) then None else
  let nSignature := ntohs (load 2 pBuffer 0) in
  if negb (nSignature =? AppleMIDISignature) then None else
  let nCommand := ntohs (load 2 pBuffer 2) in
  if negb (nCommand =? Sync) then None else
  Some (mkSync nSignature nCommand
          (ntohl (load 4 pBuffer 4))
          (load 1 pBuffer 8)
          (ntohll (load 8 pBuffer 12),
           ntohll (load 8 pBuffer 20),
           ntohll (load 8 pBuffer 28))).

(** The result is the packet together with [*pOutMIDIData], as an offset
    into [pBuffer], and [*pOutMIDIDataSize].  [nSize] is not read. *)
Definition ParseMIDIPacket (pBuffer : list byte) (nSize : Z)
  : option (TRTPMIDI * Z * Z) :=
  let nRTPFlags := ntohs (load 2 pBuffer 0) in
  (* Check version *)
  if negb (Z.land (Z.shiftr nRTPFlags 14) 0x03 =? RTPMIDIVersion) then None else
  (* Ensure no CSRC identifiers *)
  if negb (Z.land (Z.shiftr nRTPFlags 8) 0x0F =? 0) then None else
  (* Check payload type *)
  if negb (Z.land nRTPFlags 0xFF =? RTPMIDIPayloadType) then None else
  let nSequence := ntohs (load 2 pBuffer 2) in
  let nTimestamp := ntohl (load 4 pBuffer 4) in
  let nSSRC := ntohl (load 4 pBuffer 8) in
  let OutPacket := mkRTPMIDI (mkRTPHeader nRTPFlags nSequence nTimestamp nSSRC) in
  (* RTP-MIDI variable-length header *)
  let nHeader := load 1 pBuffer 12 in
  let pMIDIData := 13 in
  (* Lower 4 bits of the header is the length *)
  let nMIDIDataSize := Z.land nHeader 0x0F in
  (* If B flag is set, length value is 12 bits *)
  let '(pMIDIData, nMIDIDataSize) :=
    if negb (Z.land nHeader (Z.shiftl 1 7) =? 0)
    then (pMIDIData + 1,
          wrap 16 (Z.lor (wrap 16 (Z.shiftl nMIDIDataSize 8))
                         (load 1 pBuffer pMIDIData)))
    else (pMIDIData, nMIDIDataSize) in
  let nHead := load 1 pBuffer pMIDIData in
  let nTail := load 1 pBuffer (pMIDIData + nMIDIDataSize - 1) in
  let '(pMIDIData, nMIDIDataSize) :=
    (* First segmented SysEx packet *)
    if (nHead =? 0xF0) && (nTail =? 0xF0)
    then (pMIDIData, wrap 16 (nMIDIDataSize - 1))
    (* Middle segmented SysEx packet *)
    else if (nHead =? 0xF7) && (nTail =? 0xF0)
    then (pMIDIData + 1, wrap 16 (nMIDIDataSize - 2))
    (* Last segmented SysEx packet *)
    else if (nHead =? 0xF7) && (nTail =? 0xF7)
    then (pMIDIData + 1, wrap 16 (nMIDIDataSize - 1))
    (* Cancelled segmented SysEx packet *)
    else if (nHead =? 0xF7) && (nTail =? 0xF4)
    then (pMIDIData, 1)
    else (pMIDIData, nMIDIDataSize) in
  Some (OutPacket, pMIDIData, nMIDIDataSize).

(** The bytes a reader sees through the pair [(pData, nSize)]. *)
Definition region (pBuffer : list byte) (pData : Z) (nSize : Z) : list byte :=
  bytes_at pBuffer pData (Z.to_nat nSize).

Definition bytes_of (l : list Z) : list byte := map byte_of_Z l.

(** ** Collaborators: clock, random source, sockets, logger, sink *)

Inductive TSocket := ControlSocket | MIDISocket.

Inductive TLogSeverity := LogError | LogNotice.

(** What the collaborators observe.  A log entry carries the format string
    of the call. *)
Inductive TEvent :=
| EvLog (Severity : TLogSeverity) (Message : string)
| EvSendTo (Socket : TSocket) (IPAddress : Z) (nPort : Z) (Data : list byte)
| EvReceiveHandler (Data : list byte).

(** What the collaborators return: the successive values of
    [CTimer::GetClockTicks], of [CBcmRandomNumberGenerator::GetNumber] and
    of [CSocket::SendTo], each with the number of calls made so far, and the
    function-local static of [GetSyncClock]. *)
Record TWorld := mkWorld {
  ClockTicks : nat -> Z;
  nClockReads : nat;
  nStartTime : option Z;
  RandomNumbers : nat -> Z;
  nRandomReads : nat;
  SendToResults : nat -> Z;
  nSendTo : nat
}.

Definition M (A : Type) : Type := TWorld -> A * TWorld * list TEvent.

Definition ret {A} (a : A) : M A := fun w => (a, w, []).

Definition bind {A B} (m : M A) (f : A -> M B) : M B :=
  fun w =>
    let '(a, w1, ev1) := m w in
    let '(b, w2, ev2) := f a w1 in
    (b, w2, ev1 ++ ev2).

Declare Scope applemidi_scope.
Delimit Scope applemidi_scope with applemidi.
Notation "x <- m ; k" := (bind m (fun x => k))
  (at level 61, m at next level, right associativity) : applemidi_scope.
Notation "m ;; k" := (bind m (fun _ => k))
  (at level 61, right associativity) : applemidi_scope.
Local Open Scope applemidi_scope.

Definition Write (Severity : TLogSeverity) (Message : string) : M unit :=
  fun w => (tt, w, [EvLog Severity Message]).

Definition GetClockTicks : M Z :=
  fun w =>
    (wrap 64 (ClockTicks w (nClockReads w)),
     mkWorld (ClockTicks w) (S (nClockReads w)) (nStartTime w)
             (RandomNumbers w) (nRandomReads w) (SendToResults w) (nSendTo w),
     []).

Definition init_nStartTime : M Z :=
  fun w =>
    match nStartTime w with
    | Some t0 => (t0, w, [])
    | None =>
        let '(t0, w1, ev) := GetClockTicks w in
        (t0,
         mkWorld (ClockTicks w1) (nClockReads w1) (Some t0)
                 (RandomNumbers w1) (nRandomReads w1) (SendToResults w1) (nSendTo w1),
         ev)
    end.

(** Lines 116-123. *)
Definition GetSyncClock : M Z :=
  nStartTime <- init_nStartTime ;
  nMicrosSinceEpoch <- GetClockTicks ;
  (* Units of 100 microseconds *)
  ret (wrap 64 (nMicrosSinceEpoch - nStartTime) / 100).

Definition GetNumber : M Z :=
  fun w =>
    (wrap 32 (RandomNumbers w (nRandomReads w)),
     mkWorld (ClockTicks w) (nClockReads w) (nStartTime w)
             (RandomNumbers w) (S (nRandomReads w)) (SendToResults w) (nSendTo w),
     []).

Definition SendTo (Socket : TSocket) (Data : list byte) (IPAddress nPort : Z) : M Z :=
  fun w =>
    (SendToResults w (nSendTo w),
     mkWorld (ClockTicks w) (nClockReads w) (nStartTime w)
             (RandomNumbers w) (nRandomReads w) (SendToResults w) (S (nSendTo w)),
     [EvSendTo Socket IPAddress nPort Data]).

Definition ReceiveHandler (Data : list byte) : M unit :=
  fun w => (tt, w, [EvReceiveHandler Data]).

(** ** The participant (applemidi.h, lines 55-94) *)

Inductive TState := ControlInvitation | MIDIInvitation | Connected.

(** Modelled from the spec: FRAME_BUFFER_SIZE is a macro of the Circle
    library, not among the sources; the spec asks for receive buffers of at
    least the host's UDP MTU. *)
Definition FRAME_BUFFER_SIZE : Z := 1600.

Record CAppleMIDIParticipant := mkParticipant {
  (* Socket receive buffers *)
  m_InitiatorIPAddress : Z;
  m_nInitiatorControlPort : Z;
  m_nInitiatorMIDIPort : Z;
  m_ControlBuffer : list byte;
  m_MIDIBuffer : list byte;
  m_nControlResult : Z;
  m_nMIDIResult : Z;
  (* Handler for received MIDI packets: registered or null *)
  m_pReceiveHandler : bool;
  (* Participant state machine *)
  m_State : TState;
  m_nInitiatorToken : Z;
  m_nInitiatorSSRC : Z;
  m_nSSRC : Z;
  m_nLastMIDISequenceNumber : Z;
  m_nOffsetEstimate : Z;
  m_nLastSyncTime : Z;
  m_nSequence : Z;
  m_nLastFeedbackSequence : Z;
  m_nLastFeedbackTime : Z
}.

(** Lines 284-316. *)
Definition Construct : CAppleMIDIParticipant :=
  mkParticipant 0 0 0
    (repeat x00 (Z.to_nat FRAME_BUFFER_SIZE)) (repeat x00 (Z.to_nat FRAME_BUFFER_SIZE))
    0 0 false ControlInvitation 0 0 0 0 0 0 0 0 0.

Definition RegisterMIDIReceiveHandler (p : CAppleMIDIParticipant) : CAppleMIDIParticipant :=
  mkParticipant (m_InitiatorIPAddress p) (m_nInitiatorControlPort p) (m_nInitiatorMIDIPort p)
    (m_ControlBuffer p) (m_MIDIBuffer p) (m_nControlResult p) (m_nMIDIResult p)
    true (m_State p) (m_nInitiatorToken p) (m_nInitiatorSSRC p) (m_nSSRC p)
    (m_nLastMIDISequenceNumber p) (m_nOffsetEstimate p) (m_nLastSyncTime p)
    (m_nSequence p) (m_nLastFeedbackSequence p) (m_nLastFeedbackTime p).

(** Assignments to single members. *)
Definition set_State (v : TState) (p : CAppleMIDIParticipant) :=
  mkParticipant (m_InitiatorIPAddress p) (m_nInitiatorControlPort p) (m_nInitiatorMIDIPort p)
    (m_ControlBuffer p) (m_MIDIBuffer p) (m_nControlResult p) (m_nMIDIResult p)
    (m_pReceiveHandler p) v (m_nInitiatorToken p) (m_nInitiatorSSRC p) (m_nSSRC p)
    (m_nLastMIDISequenceNumber p) (m_nOffsetEstimate p) (m_nLastSyncTime p)
    (m_nSequence p) (m_nLastFeedbackSequence p) (m_nLastFeedbackTime p).

Definition set_nInitiatorToken (v : Z) (p : CAppleMIDIParticipant) :=
  mkParticipant (m_InitiatorIPAddress p) (m_nInitiatorControlPort p) (m_nInitiatorMIDIPort p)
    (m_ControlBuffer p) (m_MIDIBuffer p) (m_nControlResult p) (m_nMIDIResult p)
    (m_pReceiveHandler p) (m_State p) v (m_nInitiatorSSRC p) (m_nSSRC p)
    (m_nLastMIDISequenceNumber p) (m_nOffsetEstimate p) (m_nLastSyncTime p)
    (m_nSequence p) (m_nLastFeedbackSequence p) (m_nLastFeedbackTime p).

Definition set_nInitiatorSSRC (v : Z) (p : CAppleMIDIParticipant) :=
  mkParticipant (m_InitiatorIPAddress p) (m_nInitiatorControlPort p) (m_nInitiatorMIDIPort p)
    (m_ControlBuffer p) (m_MIDIBuffer p) (m_nControlResult p) (m_nMIDIResult p)
    (m_pReceiveHandler p) (m_State p) (m_nInitiatorToken p) v (m_nSSRC p)
    (m_nLastMIDISequenceNumber p) (m_nOffsetEstimate p) (m_nLastSyncTime p)
    (m_nSequence p) (m_nLastFeedbackSequence p) (m_nLastFeedbackTime p).

Definition set_nSSRC (v : Z) (p : CAppleMIDIParticipant) :=
  mkParticipant (m_InitiatorIPAddress p) (m_nInitiatorControlPort p) (m_nInitiatorMIDIPort p)
    (m_ControlBuffer p) (m_MIDIBuffer p) (m_nControlResult p) (m_nMIDIResult p)
    (m_pReceiveHandler p) (m_State p) (m_nInitiatorToken p) (m_nInitiatorSSRC p) v
    (m_nLastMIDISequenceNumber p) (m_nOffsetEstimate p) (m_nLastSyncTime p)
    (m_nSequence p) (m_nLastFeedbackSequence p) (m_nLastFeedbackTime p).

Definition set_nOffsetEstimate (v : Z) (p : CAppleMIDIParticipant) :=
  mkParticipant (m_InitiatorIPAddress p) (m_nInitiatorControlPort p) (m_nInitiatorMIDIPort p)
    (m_ControlBuffer p) (m_MIDIBuffer p) (m_nControlResult p) (m_nMIDIResult p)
    (m_pReceiveHandler p) (m_State p) (m_nInitiatorToken p) (m_nInitiatorSSRC p) (m_nSSRC p)
    (m_nLastMIDISequenceNumber p) v (m_nLastSyncTime p)
    (m_nSequence p) (m_nLastFeedbackSequence p) (m_nLastFeedbackTime p).

Definition set_nLastSyncTime (v : Z) (p : CAppleMIDIParticipant) :=
  mkParticipant (m_InitiatorIPAddress p) (m_nInitiatorControlPort p) (m_nInitiatorMIDIPort p)
    (m_ControlBuffer p) (m_MIDIBuffer p) (m_nControlResult p) (m_nMIDIResult p)
    (m_pReceiveHandler p) (m_State p) (m_nInitiatorToken p) (m_nInitiatorSSRC p) (m_nSSRC p)
    (m_nLastMIDISequenceNumber p) (m_nOffsetEstimate p) v
    (m_nSequence p) (m_nLastFeedbackSequence p) (m_nLastFeedbackTime p).

Definition set_nSequence (v : Z) (p : CAppleMIDIParticipant) :=
  mkParticipant (m_InitiatorIPAddress p) (m_nInitiatorControlPort p) (m_nInitiatorMIDIPort p)
    (m_ControlBuffer p) (m_MIDIBuffer p) (m_nControlResult p) (m_nMIDIResult p)
    (m_pReceiveHandler p) (m_State p) (m_nInitiatorToken p) (m_nInitiatorSSRC p) (m_nSSRC p)
    (m_nLastMIDISequenceNumber p) (m_nOffsetEstimate p) (m_nLastSyncTime p)
    v (m_nLastFeedbackSequence p) (m_nLastFeedbackTime p).

Definition set_nLastFeedbackSequence (v : Z) (p : CAppleMIDIParticipant) :=
  mkParticipant (m_InitiatorIPAddress p) (m_nInitiatorControlPort p) (m_nInitiatorMIDIPort p)
    (m_ControlBuffer p) (m_MIDIBuffer p) (m_nControlResult p) (m_nMIDIResult p)
    (m_pReceiveHandler p) (m_State p) (m_nInitiatorToken p) (m_nInitiatorSSRC p) (m_nSSRC p)
    (m_nLastMIDISequenceNumber p) (m_nOffsetEstimate p) (m_nLastSyncTime p)
    (m_nSequence p) v (m_nLastFeedbackTime p).

Definition set_nLastFeedbackTime (v : Z) (p : CAppleMIDIParticipant) :=
  mkParticipant (m_InitiatorIPAddress p) (m_nInitiatorControlPort p) (m_nInitiatorMIDIPort p)
    (m_ControlBuffer p) (m_MIDIBuffer p) (m_nControlResult p) (m_nMIDIResult p)
    (m_pReceiveHandler p) (m_State p) (m_nInitiatorToken p) (m_nInitiatorSSRC p) (m_nSSRC p)
    (m_nLastMIDISequenceNumber p) (m_nOffsetEstimate p) (m_nLastSyncTime p)
    (m_nSequence p) (m_nLastFeedbackSequence p) v.

(** Lines 556-571. *)
Definition Reset (p : CAppleMIDIParticipant) : CAppleMIDIParticipant :=
  mkParticipant (m_InitiatorIPAddress p) (m_nInitiatorControlPort p) (m_nInitiatorMIDIPort p)
    (m_ControlBuffer p) (m_MIDIBuffer p) (m_nControlResult p) (m_nMIDIResult p)
    (m_pReceiveHandler p)
    ControlInvitation   (* m_State *)
    0                   (* m_nInitiatorToken *)
    0                   (* m_nInitiatorSSRC *)
    0                   (* m_nSSRC *)
    0                   (* m_nLastMIDISequenceNumber *)
    0                   (* m_nOffsetEstimate *)
    0                   (* m_nLastSyncTime *)
    0                   (* m_nSequence *)
    0                   (* m_nLastFeedbackSequence *)
    0.                  (* m_nLastFeedbackTime *)

(** ** Encoders (lines 573-662)

    A structure is sent as it lies in memory: packed, each member in host
    byte order. *)

Definition memory_TAppleMIDIInvitation (s : TAppleMIDIInvitation) : list byte :=
  List.concat [le_encode 2 (inv_nSignature s);
          le_encode 2 (inv_nCommand s);
          le_encode 4 (inv_nVersion s);
          le_encode 4 (inv_nInitiatorToken s);
          le_encode 4 (inv_nSSRC s);
          inv_Name s].

Definition memory_TAppleMIDISync (s : TAppleMIDISync) : list byte :=
  let '(t0, t1, t2) := sync_nTimestamps s in
  List.concat [le_encode 2 (sync_nSignature s);
          le_encode 2 (sync_nCommand s);
          le_encode 4 (sync_nSSRC s);
          le_encode 1 (sync_nCount s);
          [x00; x00; x00];          (* nPadding *)
          le_encode 8 t0;
          le_encode 8 t1;
          le_encode 8 t2].

Definition memory_TAppleMIDIReceiverFeedback (s : TAppleMIDIReceiverFeedback) : list byte :=
  List.concat [le_encode 2 (fb_nSignature s);
          le_encode 2 (fb_nCommand s);
          le_encode 4 (fb_nSSRC s);
          le_encode 4 (fb_nSequence s)].

Definition SendPacket (p : CAppleMIDIParticipant) (pSocket : TSocket) (nPort : Z)
    (pData : list byte) (nSize : Z) : M bool :=
  nResult <- SendTo pSocket (firstn (Z.to_nat nSize) pData) (m_InitiatorIPAddress p) nPort ;
  if nResult <? 0 then
    Write LogError "Send failure, error code: %d" ;;
    ret false
  else if negb (nResult =? nSize) then
    Write LogError "Send failure, only %d/%d bytes sent" ;;
    ret false
  else
    ret true.

Definition AcceptPacket (p : CAppleMIDIParticipant) : TAppleMIDIInvitation :=
  mkInvitation
    (htons AppleMIDISignature)
    (htons InvitationAccepted)
    (htonl AppleMIDIVersion)
    (htonl (m_nInitiatorToken p))
    (htonl (m_nSSRC p))
    (* TODO: configurable name *)
    (strncpy (list_byte_of_string "mt32-pi") (Z.to_nat sizeof_Name)).

(** The packet leaves through [m_pControlSocket] whatever [pSocket] is. *)
Definition SendAcceptInvitationPacket (p : CAppleMIDIParticipant) (pSocket : TSocket)
    (nPort : Z) : M bool :=
  let nSendSize :=
    sizeof_TAppleMIDIInvitation - sizeof_Name + strlen (inv_Name (AcceptPacket p)) + 1 in
  SendPacket p ControlSocket nPort (memory_TAppleMIDIInvitation (AcceptPacket p)) nSendSize.

Definition SyncPacket (p : CAppleMIDIParticipant) (nTimestamp1 nTimestamp2 : Z)
  : TAppleMIDISync :=
  mkSync
    (htons AppleMIDISignature)
    (htons Sync)
    (htonl (m_nSSRC p))
    1
    (htonll nTimestamp1, htonll nTimestamp2, 0).

Definition SendSyncPacket (p : CAppleMIDIParticipant) (nTimestamp1 nTimestamp2 : Z) : M bool :=
  SendPacket p ControlSocket (m_nInitiatorMIDIPort p)
    (memory_TAppleMIDISync (SyncPacket p nTimestamp1 nTimestamp2))
    sizeof_TAppleMIDISync.

Definition FeedbackPacket (p : CAppleMIDIParticipant) : TAppleMIDIReceiverFeedback :=
  mkReceiverFeedback
    (htons AppleMIDISignature)
    (htons ReceiverFeedback)
    (htonl (m_nSSRC p))
    (htonl (wrap 32 (Z.shiftl (m_nSequence p) 16))).

Definition SendFeedbackPacket (p : CAppleMIDIParticipant) : M bool :=
  SendPacket p ControlSocket (m_nInitiatorMIDIPort p)
    (memory_TAppleMIDIReceiverFeedback (FeedbackPacket p))
    sizeof_TAppleMIDIReceiverFeedback.

(** ** The state machine (lines 401-554) *)

Definition ControlInvitationState (p : CAppleMIDIParticipant) : M CAppleMIDIParticipant :=
  if m_nControlResult p =? 0 then ret p else
  match ParseInvitationPacket (m_ControlBuffer p) (m_nControlResult p) with
  | None =>
      Write LogError "Unexpected packet" ;;
      ret p
  | Some InvitationPacket =>
      (* Generate initiator token and accept *)
      let p := set_nInitiatorToken (inv_nInitiatorToken InvitationPacket) p in
      let p := set_nInitiatorSSRC (inv_nSSRC InvitationPacket) p in
      nNumber <- GetNumber ;
      let p := set_nSSRC nNumber p in
      bSent <- SendAcceptInvitationPacket p ControlSocket (m_nInitiatorControlPort p) ;
      if negb bSent then
        Write LogError "Couldn't accept control invitation" ;;
        ret p
      else
        nClock <- GetSyncClock ;
        let p := set_nLastSyncTime nClock p in
        ret (set_State MIDIInvitation p)
  end.

Definition MIDIInvitationState (p : CAppleMIDIParticipant) : M CAppleMIDIParticipant :=
  if m_nMIDIResult p >? 0 then
    match ParseInvitationPacket (m_MIDIBuffer p) (m_nMIDIResult p) with
    | None =>
        Write LogError "Unexpected packet" ;;
        ret p
    | Some InvitationPacket =>
        bSent <- SendAcceptInvitationPacket p MIDISocket (m_nInitiatorMIDIPort p) ;
        if bSent then
          Write LogNotice "Connection to %s (%s) established" ;;
          nClock <- GetSyncClock ;
          let p := set_nLastSyncTime nClock p in
          ret (set_State Connected p)
        else
          Write LogError "Couldn't accept MIDI invitation" ;;
          ret (Reset p)
    end
  else
    (* Timeout *)
    nClock <- GetSyncClock ;
    if wrap 64 (nClock - m_nLastSyncTime p) >? SyncTimeout then
      Write LogError "MIDI port invitation timed out" ;;
      ret (Reset p)
    else
      ret p.

(** [ConnectedState], lines 486-501: the control endpoint.  The flag tells
    whether the function has returned. *)
Definition ConnectedState_Control (p : CAppleMIDIParticipant)
  : M (bool * CAppleMIDIParticipant) :=
  if m_nControlResult p >? 0 then
    match ParseEndSessionPacket (m_ControlBuffer p) (m_nControlResult p) with
    | Some EndSessionPacket =>
        if end_nSSRC EndSessionPacket =? m_nInitiatorSSRC p then
          Write LogNotice "Initiator ended session" ;;
          ret (true, Reset p)
        else ret (false, p)
    | None => ret (false, p)
    end
  else ret (false, p).

(** [ConnectedState], lines 503-535: the data endpoint. *)
Definition ConnectedState_MIDI (p : CAppleMIDIParticipant) : M CAppleMIDIParticipant :=
  if m_nMIDIResult p >? 0 then
    match ParseMIDIPacket (m_MIDIBuffer p) (m_nMIDIResult p) with
    | Some (MIDIPacket, pMIDIData, nMIDIDataSize) =>
        let p := set_nSequence (rtp_nSequence (RTPHeader MIDIPacket)) p in
        if m_pReceiveHandler p then
          ReceiveHandler (region (m_MIDIBuffer p) pMIDIData nMIDIDataSize) ;;
          ret p
        else ret p
    | None =>
        match ParseSyncPacket (m_MIDIBuffer p) (m_nMIDIResult p) with
        | Some SyncPacket =>
            let '(nTimestamp0, nTimestamp1, nTimestamp2) := sync_nTimestamps SyncPacket in
            if (sync_nSSRC SyncPacket =? m_nInitiatorSSRC p)
               && ((sync_nCount SyncPacket =? 0) || (sync_nCount SyncPacket =? 2))
            then
              p <- (if sync_nCount SyncPacket =? 0 then
                      nClock <- GetSyncClock ;
                      SendSyncPacket p nTimestamp0 nClock ;;
                      ret p
                    else if sync_nCount SyncPacket =? 2 then
                      let p := set_nOffsetEstimate
                                 (wrap 64 (wrap 64 (nTimestamp2 + nTimestamp0) / 2 - nTimestamp1))
                                 p in
                      Write LogNotice "Offset estimate: %llu" ;;
                      ret p
                    else ret p) ;
              nClock <- GetSyncClock ;
              ret (set_nLastSyncTime nClock p)
            else
              Write LogError "Unexpected sync packet" ;;
              ret p
        | None => ret p
        end
    end
  else ret p.

(** [ConnectedState], lines 539-547: receiver feedback. *)
Definition ConnectedState_Feedback (nTicks : Z) (p : CAppleMIDIParticipant)
  : M CAppleMIDIParticipant :=
  if wrap 64 (nTicks - m_nLastFeedbackTime p) >? ReceiverFeedbackPeriod then
    p <- (if negb (m_nSequence p =? m_nLastFeedbackSequence p) then
            SendFeedbackPacket p ;;
            ret (set_nLastFeedbackSequence (m_nSequence p) p)
          else ret p) ;
    ret (set_nLastFeedbackTime nTicks p)
  else ret p.

(** [ConnectedState], lines 549-553: liveness. *)
Definition ConnectedState_Timeout (nTicks : Z) (p : CAppleMIDIParticipant)
  : M CAppleMIDIParticipant :=
  if wrap 64 (nTicks - m_nLastSyncTime p) >? SyncTimeout then
    Write LogError "Initiator timed out" ;;
    ret (Reset p)
  else ret p.

Definition ConnectedState (p : CAppleMIDIParticipant) : M CAppleMIDIParticipant :=
  r <- ConnectedState_Control p ;
  let '(bReturned, p) := r in
  if bReturned then ret p else
  p <- ConnectedState_MIDI p ;
  nTicks <- GetSyncClock ;
  p <- ConnectedState_Feedback nTicks p ;
  ConnectedState_Timeout nTicks p.

(** ** The I/O loop (lines 359-399) *)

(** Modelled from the spec: [CSocket::ReceiveFrom] belongs to the Circle
    library.  Its contract in the spec is
    [recv_from_nonblocking(sock, buf) -> (n, peer_ip, peer_port) | would_block | error]:
    with [MSG_DONTWAIT] it returns 0 and writes nothing when no datagram is
    pending, a negative code on an error, and otherwise copies the datagram
    to the front of the buffer, writes the sender's address and port and
    returns the number of bytes copied. *)
Inductive TReceive :=
| NoData
| Datagram (Data : list byte) (IPAddress : Z) (nPort : Z)
| ReceiveError (nError : positive).

Definition ReceiveFrom (r : TReceive) (Buffer : list byte) (IPAddress nPort : Z)
  : Z * list byte * Z * Z :=
  match r with
  | NoData => (0, Buffer, IPAddress, nPort)
  | Datagram Data IP Port =>
      let n := Z.min (Z.of_nat (List.length Data)) FRAME_BUFFER_SIZE in
      (n, firstn (Z.to_nat n) Data ++ skipn (Z.to_nat n) Buffer, IP, Port)
  | ReceiveError nError => (Z.neg nError, Buffer, IPAddress, nPort)
  end.

(** What one iteration of the loop finds on the two sockets. *)
Record TTick := mkTick {
  ControlReceive : TReceive;
  MIDIReceive : TReceive
}.

Definition ReceiveControl (r : TReceive) (p : CAppleMIDIParticipant) : CAppleMIDIParticipant :=
  let '(nResult, Buffer, IPAddress, nPort) :=
    ReceiveFrom r (m_ControlBuffer p) (m_InitiatorIPAddress p) (m_nInitiatorControlPort p) in
  mkParticipant IPAddress nPort (m_nInitiatorMIDIPort p)
    Buffer (m_MIDIBuffer p) nResult (m_nMIDIResult p)
    (m_pReceiveHandler p) (m_State p) (m_nInitiatorToken p) (m_nInitiatorSSRC p) (m_nSSRC p)
    (m_nLastMIDISequenceNumber p) (m_nOffsetEstimate p) (m_nLastSyncTime p)
    (m_nSequence p) (m_nLastFeedbackSequence p) (m_nLastFeedbackTime p).

Definition ReceiveMIDI (r : TReceive) (p : CAppleMIDIParticipant) : CAppleMIDIParticipant :=
  let '(nResult, Buffer, IPAddress, nPort) :=
    ReceiveFrom r (m_MIDIBuffer p) (m_InitiatorIPAddress p) (m_nInitiatorMIDIPort p) in
  mkParticipant IPAddress (m_nInitiatorControlPort p) nPort
    (m_ControlBuffer p) Buffer (m_nControlResult p) nResult
    (m_pReceiveHandler p) (m_State p) (m_nInitiatorToken p) (m_nInitiatorSSRC p) (m_nSSRC p)
    (m_nLastMIDISequenceNumber p) (m_nOffsetEstimate p) (m_nLastSyncTime p)
    (m_nSequence p) (m_nLastFeedbackSequence p) (m_nLastFeedbackTime p).

(** The [switch] of lines 381-394. *)
Definition Dispatch (p : CAppleMIDIParticipant) : M CAppleMIDIParticipant :=
  match m_State p with
  | ControlInvitation => ControlInvitationState p
  | MIDIInvitation => MIDIInvitationState p
  | Connected => ConnectedState p
  end.

(** The body of the loop; the flag tells whether [Run] has returned. *)
Definition Run_iteration (tick : TTick) (p : CAppleMIDIParticipant)
  : M (bool * CAppleMIDIParticipant) :=
  let p := ReceiveControl (ControlReceive tick) p in
  if m_nControlResult p <? 0 then
    Write LogError "Control socket receive error: %d" ;;
    ret (true, p)
  else
  let p := ReceiveMIDI (MIDIReceive tick) p in
  if m_nMIDIResult p <? 0 then
    Write LogError "MIDI socket receive error: %d" ;;
    ret (true, p)
  else
  p <- Dispatch p ;
  ret (false, p).

(** [Run] over the iterations a schedule of receive results allows; the
    flag tells whether [Run] has returned before the schedule ran out. *)
Fixpoint Run (ticks : list TTick) (p : CAppleMIDIParticipant)
  : M (bool * CAppleMIDIParticipant) :=
  match ticks with
  | [] => ret (false, p)
  | tick :: rest =>
      r <- Run_iteration tick p ;
      let '(bReturned, p) := r in
      if bReturned then ret (true, p) else Run rest p
  end.

(** ** The sockets: constructor, destructor and [Initialize] (lines 284-357)

    The socket members are pointers to objects that [new] returns; an
    object is named by a number, the null pointer is [None].  What
    [Initialize] and the destructor ask of their collaborators is recorded
    as events of their own.  [Initialize] calls [new] at most twice and
    [Bind] at most twice, in a fixed order: the results the calls would
    return are parameters. *)

Inductive TSetupEvent :=
| EvNew (pSocket : option nat)
| EvBind (pSocket : nat) (nPort : Z)
| EvSetupLog (Severity : TLogSeverity) (Message : string) (nPort : Z)
| EvStart
| EvDelete (pSocket : nat).

Record TSockets := mkSockets {
  m_pControlSocket : option nat;
  m_pMIDISocket : option nat
}.

(** Lines 289-290. *)
Definition Construct_sockets : TSockets := mkSockets None None.

(** Lines 327-357.  The two assertions at the head are the precondition
    that both members are null. *)
Definition Initialize (NewControl NewMIDI : option nat) (BindControl BindMIDI : Z)
    (s : TSockets) : bool * TSockets * list TSetupEvent :=
  let s := mkSockets NewControl (m_pMIDISocket s) in
  match m_pControlSocket s with
  | None => (false, s, [EvNew NewControl])
  | Some pControl =>
      let s := mkSockets (m_pControlSocket s) NewMIDI in
      match m_pMIDISocket s with
      | None => (false, s, [EvNew NewControl; EvNew NewMIDI])
      | Some pMIDI =>
          if negb (BindControl =? 0) then
            (false, s,
             [EvNew NewControl; EvNew NewMIDI; EvBind pControl ControlPort;
              EvSetupLog LogError "Couldn't bind to port %d" ControlPort])
          else if negb (BindMIDI =? 0) then
            (false, s,
             [EvNew NewControl; EvNew NewMIDI; EvBind pControl ControlPort;
              EvBind pMIDI MIDIPort;
              EvSetupLog LogError "Couldn't bind to port %d" MIDIPort])
          else
            (* We started as a suspended task; run now that initialization is
               successful *)
            (true, s,
             [EvNew NewControl; EvNew NewMIDI; EvBind pControl ControlPort;
              EvBind pMIDI MIDIPort; EvStart])
      end
  end.

(** [delete] of a pointer; of the null pointer it does nothing. *)
Definition delete (pSocket : option nat) : list TSetupEvent :=
  match pSocket with
  | Some h => [EvDelete h]
  | None => []
  end.

(** Lines 318-325: both statements delete [m_pControlSocket]. *)
Definition Destruct (s : TSockets) : list TSetupEvent :=
  match m_pControlSocket s with
  | Some _ => delete (m_pControlSocket s)
  | None => []
  end
  ++ match m_pMIDISocket s with
     | Some _ => delete (m_pControlSocket s)
     | None => []
     end.

(** * Definitions for the statements *)

(** ** Frames on the wire

    The fields of a frame as big-endian numbers, and the payload and the
    SysEx rules as the spec words them. *)

(** The wire fields the decoders look at, as big-endian numbers. *)
Definition wire_u16 (pBuffer : list byte) (off : Z) : Z :=
  256 * u8 (byte_at pBuffer off) + u8 (byte_at pBuffer (off + 1)).

Definition wire_u32 (pBuffer : list byte) (off : Z) : Z :=
  256 * (256 * (256 * u8 (byte_at pBuffer off) + u8 (byte_at pBuffer (off + 1)))
         + u8 (byte_at pBuffer (off + 2)))
  + u8 (byte_at pBuffer (off + 3)).

(** The decoders of the codec, and the fields of the frame layouts each of
    them carries: the AppleMIDI signature (offset 0, 16 bits), and the
    protocol version (offset 4, 32 bits, in invitation and end-session
    frames; bits 15..14 of the flags in an RTP-MIDI frame). *)
Inductive TDecoder := InvitationDecoder | EndSessionDecoder | SyncDecoder | MIDIDecoder.

Definition accepts (d : TDecoder) (pBuffer : list byte) (nSize : Z) : bool :=
  match d with
  | InvitationDecoder =>
      match ParseInvitationPacket pBuffer nSize with Some _ => true | None => false end
  | EndSessionDecoder =>
      match ParseEndSessionPacket pBuffer nSize with Some _ => true | None => false end
  | SyncDecoder =>
      match ParseSyncPacket pBuffer nSize with Some _ => true | None => false end
  | MIDIDecoder =>
      match ParseMIDIPacket pBuffer nSize with Some _ => true | None => false end
  end.

Definition signature_field (d : TDecoder) (pBuffer : list byte) : option Z :=
  match d with
  | MIDIDecoder => None
  | _ => Some (wire_u16 pBuffer 0)
  end.

Definition version_field (d : TDecoder) (pBuffer : list byte) : option Z :=
  match d with
  | InvitationDecoder | EndSessionDecoder => Some (wire_u32 pBuffer 4)
  | SyncDecoder => None
  | MIDIDecoder => Some (u8 (byte_at pBuffer 0) / 64)
  end.

(** The payload the command header declares, after the words of the spec:
    with bit 7 clear the length is the low 4 bits of the header byte; with
    bit 7 set it has 12 bits, the low 4 bits of the header byte followed by
    the whole next byte.  The payload starts after the header. *)
Definition declared_offset (pBuffer : list byte) : Z :=
  if u8 (byte_at pBuffer 12) <? 128 then 13 else 14.

Definition declared_length (pBuffer : list byte) : Z :=
  let nHeader := u8 (byte_at pBuffer 12) in
  if nHeader <? 128 then nHeader mod 16
  else 256 * (nHeader mod 16) + u8 (byte_at pBuffer 13).

Definition payload (pBuffer : list byte) : list byte :=
  region pBuffer (declared_offset pBuffer) (declared_length pBuffer).

(** The SysEx boundary rules on a payload, after the words of the spec; the
    rule for a cancelled segment yields [Cancelled]. *)
Definition SysEx_fixup (Cancelled : list byte) (Payload : list byte) : list byte :=
  match Payload with
  | [] => []
  | nHead :: Rest =>
      let nTail := last Payload x00 in
      if (u8 nHead =? 0xF0) && (u8 nTail =? 0xF0) then removelast Payload
      else if (u8 nHead =? 0xF7) && (u8 nTail =? 0xF0) then removelast Rest
      else if (u8 nHead =? 0xF7) && (u8 nTail =? 0xF7) then Rest
      else if (u8 nHead =? 0xF7) && (u8 nTail =? 0xF4) then Cancelled
      else Payload
  end.

(** Lines 253-276 of [ParseMIDIPacket] as a function of the declared
    payload. *)
Definition fixup_lines (pBuffer : list byte) (pMIDIData nMIDIDataSize : Z) : Z * Z :=
  let nHead := u8 (byte_at pBuffer pMIDIData) in
  let nTail := u8 (byte_at pBuffer (pMIDIData + nMIDIDataSize - 1)) in
  if (nHead =? 0xF0) && (nTail =? 0xF0)
  then (pMIDIData, wrap 16 (nMIDIDataSize - 1))
  else if (nHead =? 0xF7) && (nTail =? 0xF0)
  then (pMIDIData + 1, wrap 16 (nMIDIDataSize - 2))
  else if (nHead =? 0xF7) && (nTail =? 0xF7)
  then (pMIDIData + 1, wrap 16 (nMIDIDataSize - 1))
  else if (nHead =? 0xF7) && (nTail =? 0xF4)
  then (pMIDIData, 1)
  else (pMIDIData, nMIDIDataSize).

(** [Data] with its command word replaced. *)
Definition with_command (Command : Z) (Data : list byte) : list byte :=
  firstn 2 Data ++ le_encode 2 (htons Command) ++ skipn 4 Data.

Definition AcceptName : list byte :=
  strncpy (list_byte_of_string "mt32-pi") (Z.to_nat sizeof_Name).

(** A datagram whose command word is RS. *)
Definition is_RS (Data : list byte) : bool := wire_u16 Data 2 =? ReceiverFeedback.

(** ** Events and executions

    What an event list shows, what [Reset] assigns, and the participant
    along a run of the loop. *)

(** The datagrams handed to [SendTo]. *)
Fixpoint sent_data (ev : list TEvent) : list (list byte) :=
  match ev with
  | [] => []
  | EvSendTo _ _ _ Data :: r => Data :: sent_data r
  | _ :: r => sent_data r
  end.

(** The RS frames among the datagrams sent. *)
Definition rs_frames (ev : list TEvent) : list (list byte) :=
  filter is_RS (sent_data ev).

(** The four places that call [Reset], each named after the condition that
    leads there, with the log entry written just before the call. *)
Inductive TResetTrigger :=
| PeerEndSession
| MIDIInvitationTimeout
| SyncSilenceTimeout
| MIDIInvitationSendFailure.

Definition trigger_log (t : TResetTrigger) : TEvent :=
  match t with
  | PeerEndSession => EvLog LogNotice "Initiator ended session"
  | MIDIInvitationTimeout => EvLog LogError "MIDI port invitation timed out"
  | SyncSilenceTimeout => EvLog LogError "Initiator timed out"
  | MIDIInvitationSendFailure => EvLog LogError "Couldn't accept MIDI invitation"
  end.

(** The members [Reset] assigns. *)
Definition session_cleared (p : CAppleMIDIParticipant) : Prop :=
  m_State p = ControlInvitation /\
  m_nInitiatorToken p = 0 /\
  m_nInitiatorSSRC p = 0 /\
  m_nSSRC p = 0 /\
  m_nLastMIDISequenceNumber p = 0 /\
  m_nOffsetEstimate p = 0 /\
  m_nLastSyncTime p = 0 /\
  m_nSequence p = 0 /\
  m_nLastFeedbackSequence p = 0 /\
  m_nLastFeedbackTime p = 0.

(** The members the receive step writes: the sender's address and ports,
    the buffers and the results. *)
Definition receive_kept (p p' : CAppleMIDIParticipant) : Prop :=
  m_InitiatorIPAddress p' = m_InitiatorIPAddress p /\
  m_nInitiatorControlPort p' = m_nInitiatorControlPort p /\
  m_nInitiatorMIDIPort p' = m_nInitiatorMIDIPort p /\
  m_ControlBuffer p' = m_ControlBuffer p /\
  m_MIDIBuffer p' = m_MIDIBuffer p /\
  m_nControlResult p' = m_nControlResult p /\
  m_nMIDIResult p' = m_nMIDIResult p.

(** No event of the list is the log entry of a trigger. *)
Definition quiet (ev : list TEvent) : Prop :=
  forall t : TResetTrigger, ~ In (trigger_log t) ev.

(** Whether [Run] has returned, the participant and the world after the
    iterations [ticks]. *)
Definition returned_after (ticks : list TTick) (p0 : CAppleMIDIParticipant) (w : TWorld)
  : bool :=
  fst (fst (fst (Run ticks p0 w))).

Definition participant_after (ticks : list TTick) (p0 : CAppleMIDIParticipant) (w : TWorld)
  : CAppleMIDIParticipant :=
  snd (fst (fst (Run ticks p0 w))).

Definition world_after (ticks : list TTick) (p0 : CAppleMIDIParticipant) (w : TWorld)
  : TWorld :=
  snd (fst (Run ticks p0 w)).

(** The participant when both receives of an iteration are done. *)
Definition received (tick : TTick) (p : CAppleMIDIParticipant) : CAppleMIDIParticipant :=
  ReceiveMIDI (MIDIReceive tick) (ReceiveControl (ControlReceive tick) p).

(** The control invitation of [tick], read after the iterations [before],
    is accepted: the state machine waits in [ControlInvitation], the
    datagram on the control port decodes as an invitation, and the iteration
    stores its token and SSRC and enters [MIDIInvitation]. *)
Definition control_invitation_accepted_at (before : list TTick) (tick : TTick)
    (p0 : CAppleMIDIParticipant) (w : TWorld) : Prop :=
  returned_after before p0 w = false
  /\ m_State (participant_after before p0 w) = ControlInvitation
  /\ m_State (participant_after (before ++ [tick]) p0 w) = MIDIInvitation
  /\ exists pkt : TAppleMIDIInvitation,
       ParseInvitationPacket
         (m_ControlBuffer (received tick (participant_after before p0 w)))
         (m_nControlResult (received tick (participant_after before p0 w))) = Some pkt
       /\ m_nInitiatorToken (participant_after (before ++ [tick]) p0 w)
          = inv_nInitiatorToken pkt
       /\ m_nInitiatorSSRC (participant_after (before ++ [tick]) p0 w) = inv_nSSRC pkt.

(** A control invitation has been accepted and no [Reset] has happened
    since. *)
Definition session_open (ticks : list TTick) (p0 : CAppleMIDIParticipant) (w : TWorld)
  : Prop :=
  exists (before : list TTick) (tick : TTick) (after : list TTick),
    ticks = before ++ tick :: after
    /\ control_invitation_accepted_at before tick p0 w
    /\ forall k : nat,
         m_State (participant_after (before ++ tick :: firstn k after) p0 w)
         <> ControlInvitation.

(** The same world with other results for [SendTo]. *)
Definition with_SendToResults (f : nat -> Z) (w : TWorld) : TWorld :=
  mkWorld (ClockTicks w) (nClockReads w) (nStartTime w)
          (RandomNumbers w) (nRandomReads w) f (nSendTo w).

Definition lift_SendToResults {A : Type} (f : nat -> Z) (r : A * TWorld) : A * TWorld :=
  (fst r, with_SendToResults f (snd r)).

(** ** Inputs of the examples

    Worlds, participants and frames of the spec's scenarios (peer
    192.0.2.10, token DEADBEEF, SSRC CAFEBABE). *)

(** A participant in the middle of a session, and the same after the
    receive step has read [Data] from the data port. *)
Definition ConnectedSession : CAppleMIDIParticipant :=
  mkParticipant 0xC000020A 5004 5005
    (repeat x00 (Z.to_nat FRAME_BUFFER_SIZE)) (repeat x00 (Z.to_nat FRAME_BUFFER_SIZE))
    0 0 true Connected 0xDEADBEEF 0xCAFEBABE 0x12345678 0 0 0 0 0 0.

Definition ConnectedWith (Data : list byte) : CAppleMIDIParticipant :=
  ReceiveMIDI (Datagram Data 0xC000020A 5005) ConnectedSession.

Definition RTPHeader_bytes : list Z :=
  [0x80; 0x61; 0x12; 0x34; 0; 0; 0; 0; 0xCA; 0xFE; 0xBA; 0xBE].

(** Scenario 5 of the spec: header 0x05, payload F7 11 22 33 F0. *)
Definition MiddleSegment : list byte :=
  bytes_of (RTPHeader_bytes ++ [0x05; 0xF7; 0x11; 0x22; 0x33; 0xF0]).

(** A cancelled segment: header 0x03, payload F7 11 F4. *)
Definition CancelledSegment : list byte :=
  bytes_of (RTPHeader_bytes ++ [0x03; 0xF7; 0x11; 0xF4]).

(** A world for the examples: the clock advances by 100 ms at each reading,
    the random source returns 0x12345678 and every send reports the size of
    an accept packet. *)
Definition World0 : TWorld :=
  mkWorld (fun k => 100000 * Z.of_nat k) 0 None (fun _ => 0x12345678) 0 (fun _ => 24) 0.

(** A BY frame of the initiator, as the receive step leaves it in a
    connected participant. *)
Definition EndSessionFrame : list byte :=
  bytes_of [0xFF; 0xFF; 0x42; 0x59; 0; 0; 0; 2;
            0xDE; 0xAD; 0xBE; 0xEF; 0xCA; 0xFE; 0xBA; 0xBE].

Definition SessionEnding : CAppleMIDIParticipant :=
  ReceiveControl (Datagram EndSessionFrame 0xC000020A 5004) ConnectedSession.

Definition SyncFrame2 : list byte :=
  bytes_of [0xFF; 0xFF; 0x43; 0x4B; 0xCA; 0xFE; 0xBA; 0xBE; 2; 0; 0; 0;
            0; 0; 0; 0; 0; 0; 0x03; 0xE8;
            0; 0; 0; 0; 0; 0; 0; 5;
            0; 0; 0; 0; 0; 0; 0x04; 0xB0].

Definition SyncFrame0 : list byte :=
  bytes_of [0xFF; 0xFF; 0x43; 0x4B; 0xCA; 0xFE; 0xBA; 0xBE; 0; 0; 0; 0;
            0; 0; 0; 0; 0; 0; 0x03; 0xE8;
            0; 0; 0; 0; 0; 0; 0; 0;
            0; 0; 0; 0; 0; 0; 0; 0].

Definition FeedbackDue : CAppleMIDIParticipant := set_nSequence 0x1234 ConnectedSession.

Definition FeedbackFrame : list byte :=
  bytes_of [0xFF; 0xFF; 0x52; 0x53; 0x12; 0x34; 0x56; 0x78; 0x12; 0x34; 0; 0].

(** Scenario 1 of the spec: the invitation of the peer at 192.0.2.10, on the
    control port and then on the data port. *)
Definition InvitationFrame : list byte :=
  bytes_of [0xFF; 0xFF; 0x49; 0x4E; 0; 0; 0; 2; 0xDE; 0xAD; 0xBE; 0xEF;
            0xCA; 0xFE; 0xBA; 0xBE; 0x68; 0x6F; 0x73; 0x74; 0].

Definition ControlInvitationTick : TTick :=
  mkTick (Datagram InvitationFrame 0xC000020A 5004) NoData.

Definition MIDIInvitationTick : TTick :=
  mkTick NoData (Datagram InvitationFrame 0xC000020A 5005).

(** An invitation of another host (192.0.2.99, its own token and SSRC) on
    the data port. *)
Definition ForeignInvitationFrame : list byte :=
  bytes_of [0xFF; 0xFF; 0x49; 0x4E; 0; 0; 0; 2; 0x0B; 0xAD; 0xF0; 0x0D;
            0x0B; 0x0B; 0x0B; 0x0B; 0x65; 0x76; 0x65; 0].

Definition ForeignInvitationTick : TTick :=
  mkTick NoData (Datagram ForeignInvitationFrame 0xC0000263 6001).

Definition AcceptFrame : list byte :=
  bytes_of [0xFF; 0xFF; 0x4F; 0x4B; 0; 0; 0; 2; 0xDE; 0xAD; 0xBE; 0xEF;
            0x12; 0x34; 0x56; 0x78; 0x6D; 0x74; 0x33; 0x32; 0x2D; 0x70; 0x69; 0].

(** A world in which every send fails. *)
Definition WorldSendFails : TWorld :=
  mkWorld (fun k => 100000 * Z.of_nat k) 0 None (fun _ => 0x12345678) 0 (fun _ => -1) 0.

(** The participant of scenario 1 when the invitation on the data port has
    been read. *)
Definition Invited : CAppleMIDIParticipant :=
  received MIDIInvitationTick (participant_after [ControlInvitationTick] Construct World0).

(** A world given by the readings of the clock, in microseconds, and the
    results of the sends. *)
Definition WorldOf (Clock : list Z) (Sends : list Z) : TWorld :=
  mkWorld (fun k => nth k Clock 0) 0 None (fun _ => 0x12345678) 0
          (fun k => nth k Sends 0) 0.

(** Scenario 4 of the spec: header 0x03, payload 90 3C 7F. *)
Definition NoteOnFrame : list byte :=
  bytes_of (RTPHeader_bytes ++ [0x03; 0x90; 0x3C; 0x7F]).

(** A datagram that ends with its command header, which declares 15
    bytes. *)
Definition TruncatedFrame : list byte :=
  bytes_of (RTPHeader_bytes ++ [0x0F]).

Definition SyncReplyFrame : list byte :=
  bytes_of [0xFF; 0xFF; 0x43; 0x4B; 0x12; 0x34; 0x56; 0x78; 1; 0; 0; 0;
            0; 0; 0; 0; 0; 0; 0x03; 0xE8;
            0; 0; 0; 0; 0; 0; 0; 0x14;
            0; 0; 0; 0; 0; 0; 0; 0].

(** ** Further definitions for the statements

    Wire fields of 64 bits, C strings, and the frames and events the
    further properties are stated with. *)

Definition wire_u64 (pBuffer : list byte) (off : Z) : Z :=
  2 ^ 32 * wire_u32 pBuffer off + wire_u32 pBuffer (off + 4).

(** The characters of a C string: those before its first NUL. *)
Fixpoint c_str (s : list byte) : list byte :=
  match s with
  | [] => []
  | c :: r => if Byte.eqb c x00 then [] else c :: c_str r
  end.

(** A receive that reports an error, and an iteration with one. *)
Definition is_error (r : TReceive) : bool :=
  match r with
  | ReceiveError _ => true
  | _ => false
  end.

Definition tick_fails (tick : TTick) : bool :=
  is_error (ControlReceive tick) || is_error (MIDIReceive tick).

(** The address [ReceiveFrom] leaves in [m_InitiatorIPAddress]. *)
Definition sender_of (r : TReceive) (IPAddress : Z) : Z :=
  match r with
  | Datagram _ IP _ => IP
  | _ => IPAddress
  end.

(** A datagram of [nSize] bytes with the AppleMIDI signature and the
    command word [Command]. *)
Definition is_frame (Command : Z) (nSize : nat) (Data : list byte) : Prop :=
  List.length Data = nSize /\ wire_u16 Data 0 = 0xFFFF /\ wire_u16 Data 2 = Command.

(** What a send of an iteration that dispatches on [p] looks like. *)
Definition sent_in (p : CAppleMIDIParticipant) (e : TEvent) : Prop :=
  match e with
  | EvSendTo Socket IPAddress nPort Data =>
      Socket = ControlSocket /\ IPAddress = m_InitiatorIPAddress p /\
      match m_State p with
      | ControlInvitation =>
          nPort = m_nInitiatorControlPort p /\ is_frame InvitationAccepted 24 Data
      | MIDIInvitation =>
          nPort = m_nInitiatorMIDIPort p /\ is_frame InvitationAccepted 24 Data
      | Connected =>
          nPort = m_nInitiatorMIDIPort p
          /\ (is_frame Sync 36 Data \/ is_frame ReceiverFeedback 12 Data)
      end
  | _ => True
  end.

(** The control buffer of [p] holds an end-session frame with the SSRC of
    the initiator. *)
Definition ends_session (p : CAppleMIDIParticipant) : bool :=
  (16 <=? m_nControlResult p)
  && (wire_u16 (m_ControlBuffer p) 0 =? 0xFFFF)
  && (wire_u16 (m_ControlBuffer p) 2 =? 0x4259)
  && (wire_u32 (m_ControlBuffer p) 4 =? 2)
  && (wire_u32 (m_ControlBuffer p) 12 =? m_nInitiatorSSRC p).

(** An iteration that finds, on the data port, a datagram of two bytes or
    more without the AppleMIDI signature; the control socket reports no
    error. *)
Definition junk_on_data_port (tick : TTick) : Prop :=
  is_error (ControlReceive tick) = false
  /\ exists (Data : list byte) (IP Port : Z),
       MIDIReceive tick = Datagram Data IP Port
       /\ (2 <= List.length Data)%nat
       /\ wire_u16 Data 0 <> 0xFFFF.

(** The first two bytes of an RTP-MIDI frame as [ParseMIDIPacket] wants
    them. *)
Definition is_RTP_MIDI (Data : list byte) : bool :=
  (u8 (byte_at Data 0) / 64 =? 2) && (u8 (byte_at Data 0) mod 16 =? 0)
  && (u8 (byte_at Data 1) =? 0x61).

(** An iteration that finds nothing on the control port and an RTP-MIDI
    frame on the data port. *)
Definition MIDI_data_only (tick : TTick) : Prop :=
  ControlReceive tick = NoData
  /\ exists (Data : list byte) (IP Port : Z),
       MIDIReceive tick = Datagram Data IP Port
       /\ (2 <= List.length Data)%nat
       /\ is_RTP_MIDI Data = true.

(** Inputs of further examples: an RTP-MIDI datagram of four bytes on the
    data port, the participant of scenario 1 between the two invitations,
    and a session of which [DataTick] is an iteration. *)
Definition DataTick : TTick :=
  mkTick NoData (Datagram (bytes_of [0x80; 0x61; 0; 1]) 0xC0000263 6001).

Definition HalfOpen : CAppleMIDIParticipant :=
  participant_after [ControlInvitationTick] Construct World0.

(** A clock that does not run backwards and stays within 64 bits, with a
    start time that is one of its readings so far. *)
Definition clock_sane (w : TWorld) : Prop :=
  (forall i j : nat, (i <= j)%nat -> ClockTicks w i <= ClockTicks w j)
  /\ (forall i : nat, 0 <= ClockTicks w i < 2 ^ 64)
  /\ match nStartTime w with
     | Some t0 => exists k : nat, (k < nClockReads w)%nat /\ t0 = ClockTicks w k
     | None => True
     end.

(** The value of the sync clock at the latest reading of the clock; 0
    before the first. *)
Definition sync_now (w : TWorld) : Z :=
  match nStartTime w, nClockReads w with
  | Some t0, S n => (ClockTicks w n - t0) / 100
  | _, _ => 0
  end.

(** The worlds agree on the clock and the start time. *)
Definition same_clock (w w' : TWorld) : Prop :=
  ClockTicks w' = ClockTicks w
  /\ nClockReads w' = nClockReads w
  /\ nStartTime w' = nStartTime w.

(** The time stamps of the participant are readings of the sync clock that
    have been taken. *)
Definition timely (p : CAppleMIDIParticipant) (w : TWorld) : Prop :=
  clock_sane w
  /\ 0 <= m_nLastSyncTime p <= sync_now w
  /\ 0 <= m_nLastFeedbackTime p <= sync_now w.

(** A world whose clock advances by 100 ms at each reading up to a bound;
    otherwise as [World0]. *)
Definition WorldBounded : TWorld :=
  mkWorld (fun k => Z.min (100000 * Z.of_nat k) (2 ^ 62)) 0 None
          (fun _ => 0x12345678) 0 (fun _ => 24) 0.

(** The session members hold values of their declared types ([u16], [u32],
    [u64]). *)
Definition in_range (p : CAppleMIDIParticipant) : Prop :=
  0 <= m_nInitiatorToken p < 2 ^ 32
  /\ 0 <= m_nInitiatorSSRC p < 2 ^ 32
  /\ 0 <= m_nSSRC p < 2 ^ 32
  /\ 0 <= m_nLastMIDISequenceNumber p < 2 ^ 32
  /\ 0 <= m_nOffsetEstimate p < 2 ^ 64
  /\ 0 <= m_nLastSyncTime p < 2 ^ 64
  /\ 0 <= m_nSequence p < 2 ^ 16
  /\ 0 <= m_nLastFeedbackSequence p < 2 ^ 16
  /\ 0 <= m_nLastFeedbackTime p < 2 ^ 64.

(** How often the object [h] is deleted in a list of events. *)
Definition deletions (h : nat) (ev : list TSetupEvent) : nat :=
  List.length (filter (fun e => match e with
                                | EvDelete h' => Nat.eqb h' h
                                | _ => false
                                end) ev).



(** An iteration that finds nothing, and a world whose clock was read
    twice, the second time 60.2 s after the first. *)
Definition SilentTick : TTick := mkTick NoData NoData.

Definition WorldLate : TWorld :=
  mkWorld (fun k => Z.min (60200000 * Z.of_nat k) (2 ^ 62)) 2 (Some 0)
          (fun _ => 0x12345678) 1 (fun _ => 24) 1.

(** A datagram that starts with the header of an invitation. *)
Definition is_invitation (Data : list byte) : Prop :=
  (16 <= List.length Data)%nat
  /\ wire_u16 Data 0 = 0xFFFF
  /\ wire_u16 Data 2 = 0x494E
  /\ wire_u32 Data 4 = 2.

(** An iteration in [Connected] that no end-session frame ends: the
    participant when the data-port block is done (line 535), and the reading
    of the sync clock that follows it (line 537). *)
Definition after_data (p : CAppleMIDIParticipant) (w : TWorld) : CAppleMIDIParticipant :=
  fst (fst (ConnectedState_MIDI p w)).

Definition feedback_now (p : CAppleMIDIParticipant) (w : TWorld) : Z :=
  fst (fst (GetSyncClock (snd (fst (ConnectedState_MIDI p w))))).

(** A CK frame of the host at 192.0.2.99, with that host's SSRC, and the
    iteration that reads it from the data port. *)
Definition ForeignSyncFrame : list byte :=
  bytes_of [0xFF; 0xFF; 0x43; 0x4B; 0x0B; 0x0B; 0x0B; 0x0B; 0; 0; 0; 0;
            0; 0; 0; 0; 0; 0; 0x03; 0xE8;
            0; 0; 0; 0; 0; 0; 0; 0;
            0; 0; 0; 0; 0; 0; 0; 0].

Definition ForeignSyncTick : TTick :=
  mkTick NoData (Datagram ForeignSyncFrame 0xC0000263 6001).

(** An iteration that finds the invitation of the peer at 192.0.2.10 on the
    control port and a datagram of the host at 192.0.2.99 on the data
    port. *)
Definition CrossedTick : TTick :=
  mkTick (Datagram InvitationFrame 0xC000020A 5004)
         (Datagram NoteOnFrame 0xC0000263 6001).

(** [q] is [p] but for what the receive on the control socket writes: the
    address, the control port, the control buffer and the control result. *)
Definition same_but_control (p q : CAppleMIDIParticipant) : Prop :=
  m_nInitiatorMIDIPort q = m_nInitiatorMIDIPort p
  /\ m_MIDIBuffer q = m_MIDIBuffer p
  /\ m_nMIDIResult q = m_nMIDIResult p
  /\ m_pReceiveHandler q = m_pReceiveHandler p
  /\ m_State q = m_State p
  /\ m_nInitiatorToken q = m_nInitiatorToken p
  /\ m_nInitiatorSSRC q = m_nInitiatorSSRC p
  /\ m_nSSRC q = m_nSSRC p
  /\ m_nLastMIDISequenceNumber q = m_nLastMIDISequenceNumber p
  /\ m_nOffsetEstimate q = m_nOffsetEstimate p
  /\ m_nLastSyncTime q = m_nLastSyncTime p
  /\ m_nSequence q = m_nSequence p
  /\ m_nLastFeedbackSequence q = m_nLastFeedbackSequence p
  /\ m_nLastFeedbackTime q = m_nLastFeedbackTime p.

(** [q] is [p] but for what the receive on the data socket writes: the
    address, the data port, the data buffer and the data result. *)
Definition same_but_data (p q : CAppleMIDIParticipant) : Prop :=
  m_nInitiatorControlPort q = m_nInitiatorControlPort p
  /\ m_ControlBuffer q = m_ControlBuffer p
  /\ m_nControlResult q = m_nControlResult p
  /\ m_pReceiveHandler q = m_pReceiveHandler p
  /\ m_State q = m_State p
  /\ m_nInitiatorToken q = m_nInitiatorToken p
  /\ m_nInitiatorSSRC q = m_nInitiatorSSRC p
  /\ m_nSSRC q = m_nSSRC p
  /\ m_nLastMIDISequenceNumber q = m_nLastMIDISequenceNumber p
  /\ m_nOffsetEstimate q = m_nOffsetEstimate p
  /\ m_nLastSyncTime q = m_nLastSyncTime p
  /\ m_nSequence q = m_nSequence p
  /\ m_nLastFeedbackSequence q = m_nLastFeedbackSequence p
  /\ m_nLastFeedbackTime q = m_nLastFeedbackTime p.

(** The event [e] with [IPAddress] as the destination of its datagram. *)
Definition readdress (IPAddress : Z) (e : TEvent) : TEvent :=
  match e with
  | EvSendTo Socket _ nPort Data => EvSendTo Socket IPAddress nPort Data
  | _ => e
  end.

(** The blocks handed to the sink. *)
Fixpoint sink_data (ev : list TEvent) : list (list byte) :=
  match ev with
  | [] => []
  | EvReceiveHandler Data :: r => Data :: sink_data r
  | _ :: r => sink_data r
  end.

(** The buffer has the size of the receive buffers and the payload that its
    command header declares ends inside it: [ParseMIDIPacket] and the sink
    read no byte past the buffer, where the members that follow
    [m_MIDIBuffer] in the object lie. *)
Definition payload_inside (pBuffer : list byte) : Prop :=
  List.length pBuffer = Z.to_nat FRAME_BUFFER_SIZE
  /\ declared_offset pBuffer + declared_length pBuffer <= FRAME_BUFFER_SIZE.



(** * Tactics *)

(** Case analysis along the paths of a monadic function. *)
Ltac unfold_M :=
  unfold GetSyncClock, init_nStartTime;
  unfold GetClockTicks, GetNumber, SendTo, ReceiveHandler, Write;
  unfold bind, ret.

Ltac paths :=
  repeat (cbv beta iota zeta;
          match goal with
          | |- context [if ?c then _ else _] => destruct c eqn:?
          | |- context [match ?x with Some _ => _ | None => _ end] => destruct x eqn:?
          | |- context [match ?x with (_, _) => _ end] => destruct x eqn:?
          end).

Ltac quiet_list :=
  let t := fresh "t" in
  let H := fresh "H" in
  intros t H; cbn [In app] in H; destruct t; cbn [trigger_log] in H;
  intuition discriminate.

Ltac fields :=
  unfold set_State, set_nInitiatorToken, set_nInitiatorSSRC, set_nSSRC,
    set_nOffsetEstimate, set_nLastSyncTime, set_nSequence,
    set_nLastFeedbackSequence, set_nLastFeedbackTime, Reset;
  cbn [m_InitiatorIPAddress m_nInitiatorControlPort m_nInitiatorMIDIPort
       m_ControlBuffer m_MIDIBuffer m_nControlResult m_nMIDIResult
       m_pReceiveHandler m_State m_nInitiatorToken m_nInitiatorSSRC m_nSSRC
       m_nLastMIDISequenceNumber m_nOffsetEstimate m_nLastSyncTime
       m_nSequence m_nLastFeedbackSequence m_nLastFeedbackTime fst snd].

Ltac unfold_sends :=
  unfold SendAcceptInvitationPacket, SendSyncPacket, SendFeedbackPacket, SendPacket.

(** The width bounds of the session members, by arithmetic. *)
Ltac ranges :=
  unfold in_range in *;
  cbn [set_State set_nInitiatorToken set_nInitiatorSSRC set_nSSRC
       set_nOffsetEstimate set_nLastSyncTime set_nSequence
       set_nLastFeedbackSequence set_nLastFeedbackTime Reset
       m_State m_nInitiatorToken m_nInitiatorSSRC m_nSSRC
       m_nLastMIDISequenceNumber m_nOffsetEstimate m_nLastSyncTime
       m_nSequence m_nLastFeedbackSequence m_nLastFeedbackTime] in *;
  change (2 ^ 16) with 65536 in *;
  change (2 ^ 32) with 4294967296 in *;
  change (2 ^ 64) with 18446744073709551616 in *;
  repeat split; lia.


(** * Properties *)

(** ** Bytes and byte order *)

Lemma u8_range (b : byte) : 0 <= u8 b < 256.
Proof.
  unfold u8. pose proof (Byte.to_N_bounded b). lia.
Qed.

Lemma byte_of_Z_u8 (b : byte) : byte_of_Z (u8 b) = b.
Proof.
  unfold byte_of_Z. rewrite Z.mod_small by apply u8_range.
  unfold u8. rewrite N2Z.id, Byte.of_to_N. reflexivity.
Qed.

Lemma u8_byte_of_Z (z : Z) : u8 (byte_of_Z z) = z mod 256.
Proof.
  assert (Hr : 0 <= z mod 256 < 256) by (apply Z.mod_pos_bound; lia).
  unfold byte_of_Z, u8.
  destruct (Byte.of_N (Z.to_N (z mod 256))) as [b|] eqn:E.
  - apply Byte.to_of_N in E. rewrite E. lia.
  - apply Byte.of_N_None_iff in E. lia.
Qed.

Lemma length_le_encode (n : nat) (v : Z) : List.length (le_encode n v) = n.
Proof.
  revert v. induction n as [|n IH]; intros v; simpl; [reflexivity|].
  now rewrite IH.
Qed.

Lemma le_decode_range (bs : list byte) :
  0 <= le_decode bs < 256 ^ Z.of_nat (List.length bs).
Proof.
  induction bs as [|b r IH].
  - simpl. lia.
  - cbn [le_decode List.length]. rewrite Nat2Z.inj_succ, Z.pow_succ_r by lia.
    pose proof (u8_range b). lia.
Qed.

Lemma le_encode_decode (bs : list byte) :
  le_encode (List.length bs) (le_decode bs) = bs.
Proof.
  induction bs as [|b r IH]; [reflexivity|].
  cbn [le_decode List.length le_encode].
  pose proof (u8_range b) as Hb.
  replace (u8 b + 256 * le_decode r) with (u8 b + le_decode r * 256) by lia.
  rewrite Z.mod_add, Z.div_add by lia.
  rewrite Z.mod_small, Z.div_small by exact Hb.
  cbn [Z.add].
  now rewrite byte_of_Z_u8, IH.
Qed.

Lemma le_decode_encode (n : nat) (v : Z) :
  le_decode (le_encode n v) = v mod 256 ^ Z.of_nat n.
Proof.
  revert v. induction n as [|n IH]; intros v.
  - simpl. now rewrite Z.mod_1_r.
  - cbn [le_encode le_decode]. rewrite IH, u8_byte_of_Z.
    rewrite Z.mod_mod by lia.
    rewrite Nat2Z.inj_succ, Z.pow_succ_r by lia.
    rewrite (Z.rem_mul_r v 256 (256 ^ Z.of_nat n)) by lia.
    reflexivity.
Qed.

(** A conversion applied to a host-order load is the big-endian reading of
    the bytes. *)
Lemma bswap_le_decode (bs : list byte) :
  bswap (List.length bs) (le_decode bs) = be_decode bs.
Proof.
  unfold bswap, be_decode. now rewrite le_encode_decode.
Qed.

Lemma bswap_range (n : nat) (v : Z) : 0 <= bswap n v < 256 ^ Z.of_nat n.
Proof.
  unfold bswap.
  pose proof (le_decode_range (rev (le_encode n v))) as H.
  now rewrite length_rev, length_le_encode in H.
Qed.

Lemma bswap_bswap (n : nat) (v : Z) : bswap n (bswap n v) = v mod 256 ^ Z.of_nat n.
Proof.
  unfold bswap at 1.
  replace (le_encode n (bswap n v)) with (rev (le_encode n v)).
  - now rewrite rev_involutive, le_decode_encode.
  - unfold bswap.
    rewrite <- (length_le_encode n v) at 2.
    rewrite <- length_rev.
    now rewrite le_encode_decode.
Qed.

Lemma length_bytes_at (pBuffer : list byte) (off : Z) (n : nat) :
  List.length (bytes_at pBuffer off n) = n.
Proof.
  unfold bytes_at. now rewrite length_map, length_seq.
Qed.

Lemma ntoh_load (n : nat) (pBuffer : list byte) (off : Z) :
  bswap n (load n pBuffer off) = be_decode (bytes_at pBuffer off n).
Proof.
  unfold load.
  rewrite <- (length_bytes_at pBuffer off n) at 1.
  apply bswap_le_decode.
Qed.

Lemma ntohs_load (pBuffer : list byte) (off : Z) :
  ntohs (load 2 pBuffer off) = wire_u16 pBuffer off.
Proof.
  unfold ntohs. rewrite ntoh_load.
  unfold be_decode, bytes_at, wire_u16. cbn [seq map rev app le_decode Z.of_nat].
  replace (off + 0) with off by lia.
  change (Z.pos (Pos.of_succ_nat 0)) with 1. lia.
Qed.

Lemma ntohl_load (pBuffer : list byte) (off : Z) :
  ntohl (load 4 pBuffer off) = wire_u32 pBuffer off.
Proof.
  unfold ntohl. rewrite ntoh_load.
  unfold be_decode, bytes_at, wire_u32. cbn [seq map rev app le_decode Z.of_nat].
  replace (off + 0) with off by lia.
  change (Z.pos (Pos.of_succ_nat 0)) with 1.
  change (Z.pos (Pos.of_succ_nat 1)) with 2.
  change (Z.pos (Pos.of_succ_nat 2)) with 3.
  lia.
Qed.

Lemma load_u8 (pBuffer : list byte) (off : Z) :
  load 1 pBuffer off = u8 (byte_at pBuffer off).
Proof.
  unfold load, bytes_at. cbn [seq map le_decode Z.of_nat].
  replace (off + 0) with off by lia. lia.
Qed.

(** ** Rejection of foreign frames *)

Lemma rtp_version_bits (pBuffer : list byte) :
  Z.land (Z.shiftr (wire_u16 pBuffer 0) 14) 0x03 = u8 (byte_at pBuffer 0) / 64.
Proof.
  unfold wire_u16.
  pose proof (u8_range (byte_at pBuffer 0)) as H0.
  pose proof (u8_range (byte_at pBuffer (0 + 1))) as H1.
  rewrite Z.shiftr_div_pow2 by lia.
  change 0x03 with (Z.ones 2). rewrite Z.land_ones by lia.
  change (2 ^ 14) with 16384. change (2 ^ 2) with 4.
  Z.div_mod_to_equations. lia.
Qed.

(** C8.  Whatever the buffer and the size, a decoder returns failure when
    the frame it decodes carries a signature and the signature is not
    0xFFFF, or carries a version field and the version is not 2.  This
    covers the invitation, end-session, sync and RTP-MIDI decoders. *)
Theorem decoders_reject_foreign_frames (d : TDecoder) (pBuffer : list byte) (nSize : Z) :
  (exists s, signature_field d pBuffer = Some s /\ s <> 0xFFFF) \/
  (exists v, version_field d pBuffer = Some v /\ v <> 2) ->
  accepts d pBuffer nSize = false.
Proof.
  intros [[s [Hs Hne]] | [v [Hv Hne]]]; destruct d; simpl in Hs || simpl in Hv;
    try discriminate;
    (injection Hs as <- || injection Hv as <-);
    unfold accepts, ParseInvitationPacket, ParseEndSessionPacket,
      ParseSyncPacket, ParseMIDIPacket;
    rewrite ?ntohs_load, ?ntohl_load, ?rtp_version_bits;
    unfold AppleMIDISignature, AppleMIDIVersion, RTPMIDIVersion.
  - destruct (nSize <? _); [reflexivity|].
    destruct (Z.eqb_spec (wire_u16 pBuffer 0) 65535); [contradiction|reflexivity].
  - destruct (nSize <? _); [reflexivity|].
    destruct (Z.eqb_spec (wire_u16 pBuffer 0) 65535); [contradiction|reflexivity].
  - destruct (negb (nSize =? _)); [reflexivity|].
    destruct (Z.eqb_spec (wire_u16 pBuffer 0) 65535); [contradiction|reflexivity].
  - destruct (nSize <? _); [reflexivity|].
    destruct (negb (wire_u16 pBuffer 0 =? 65535)); [reflexivity|].
    destruct (negb (wire_u16 pBuffer 2 =? Invitation)); [reflexivity|].
    destruct (Z.eqb_spec (wire_u32 pBuffer 4) 2); [contradiction|reflexivity].
  - destruct (nSize <? _); [reflexivity|].
    destruct (negb (wire_u16 pBuffer 0 =? 65535)); [reflexivity|].
    destruct (negb (wire_u16 pBuffer 2 =? EndSession)); [reflexivity|].
    destruct (Z.eqb_spec (wire_u32 pBuffer 4) 2); [contradiction|reflexivity].
  - destruct (Z.eqb_spec (u8 (byte_at pBuffer 0) / 64) 2); [contradiction|reflexivity].
Qed.

Lemma decoders_reject_foreign_frames_witness :
  accepts InvitationDecoder
    (bytes_of [0xFF; 0xFE; 0x49; 0x4E; 0; 0; 0; 2; 0; 0; 0; 1; 0; 0; 0; 2]) 16 = false.
Proof.
  apply decoders_reject_foreign_frames.
  left. exists 0xFFFE. split; [reflexivity | lia].
Defined.

(** ** The RTP-MIDI command header and the SysEx fixup *)

Lemma land_low_nibble (b : byte) : Z.land (u8 b) 0x0F = u8 b mod 16.
Proof.
  change 0x0F with (Z.ones 4). rewrite Z.land_ones by lia. reflexivity.
Qed.

Lemma land_B_flag (b : byte) :
  negb (Z.land (u8 b) (Z.shiftl 1 7) =? 0) = negb (u8 b <? 128).
Proof.
  destruct b; reflexivity.
Qed.

Lemma lor_shiftl_8 (hi lo : Z) :
  0 <= hi -> 0 <= lo < 256 -> Z.lor (Z.shiftl hi 8) lo = 256 * hi + lo.
Proof.
  intros Hhi Hlo.
  assert (Hland : Z.land (Z.shiftl hi 8) lo = 0).
  { apply Z.bits_inj'. intros n Hn.
    rewrite Z.land_spec, Z.bits_0.
    destruct (Z.ltb_spec n 8).
    - rewrite Z.shiftl_spec_low by lia. reflexivity.
    - replace (Z.testbit lo n) with false; [apply andb_false_r|].
      symmetry.
      destruct (Z.eq_dec lo 0) as [->|]; [apply Z.bits_0|].
      apply Z.bits_above_log2; [lia|].
      apply Z.lt_le_trans with 8; [|lia].
      apply Z.log2_lt_pow2; lia. }
  pose proof (Z.add_lor_land (Z.shiftl hi 8) lo) as H.
  assert (E : Z.shiftl hi 8 = 256 * hi)
    by (rewrite Z.shiftl_mul_pow2 by lia; change (2 ^ 8) with 256; lia).
  rewrite Hland in H. lia.
Qed.

Lemma declared_length_range (pBuffer : list byte) :
  0 <= declared_length pBuffer < 4096.
Proof.
  unfold declared_length.
  pose proof (u8_range (byte_at pBuffer 13)).
  pose proof (Z.mod_pos_bound (u8 (byte_at pBuffer 12)) 16).
  destruct (_ <? 128); lia.
Qed.

(** What [ParseMIDIPacket] returns when it accepts. *)
Lemma ParseMIDIPacket_accepts (pBuffer : list byte) (nSize : Z)
    (pkt : TRTPMIDI) (pMIDIData nMIDIDataSize : Z) :
  ParseMIDIPacket pBuffer nSize = Some (pkt, pMIDIData, nMIDIDataSize) ->
  (pMIDIData, nMIDIDataSize) =
    fixup_lines pBuffer (declared_offset pBuffer) (declared_length pBuffer)
  /\ rtp_nSequence (RTPHeader pkt) = wire_u16 pBuffer 2.
Proof.
  unfold ParseMIDIPacket.
  destruct (negb (_ =? RTPMIDIVersion)); [discriminate|].
  destruct (negb (_ =? 0)); [discriminate|].
  destruct (negb (_ =? RTPMIDIPayloadType)); [discriminate|].
  rewrite !load_u8, land_B_flag, land_low_nibble.
  assert (Hdecl :
    (if negb (u8 (byte_at pBuffer 12) <? 128)
     then (13 + 1,
           wrap 16 (Z.lor (wrap 16 (Z.shiftl (u8 (byte_at pBuffer 12) mod 16) 8))
                          (u8 (byte_at pBuffer 13))))
     else (13, u8 (byte_at pBuffer 12) mod 16))
    = (declared_offset pBuffer, declared_length pBuffer)).
  { unfold declared_offset, declared_length.
    pose proof (Z.mod_pos_bound (u8 (byte_at pBuffer 12)) 16) as Hn.
    pose proof (u8_range (byte_at pBuffer 13)) as Hb.
    destruct (_ <? 128); cbn [negb]; [reflexivity|].
    f_equal. unfold wrap.
    rewrite Z.shiftl_mul_pow2 by lia.
    change (2 ^ 8) with 256. change (2 ^ 16) with 65536.
    rewrite (Z.mod_small (_ * 256)) by lia.
    rewrite <- (Z.shiftl_mul_pow2 _ 8) by lia.
    rewrite lor_shiftl_8 by lia.
    apply Z.mod_small. lia. }
  rewrite Hdecl. cbv beta iota.
  unfold fixup_lines.
  rewrite !load_u8.
  set (nHead := u8 (byte_at pBuffer (declared_offset pBuffer))).
  set (nTail := u8 (byte_at pBuffer _)).
  intros H.
  destruct ((nHead =? 0xF0) && (nTail =? 0xF0));
    [|destruct ((nHead =? 0xF7) && (nTail =? 0xF0));
      [|destruct ((nHead =? 0xF7) && (nTail =? 0xF7));
        [|destruct ((nHead =? 0xF7) && (nTail =? 0xF4))]]];
    injection H as <- <- <-; rewrite ?ntohs_load; split; reflexivity.
Qed.

Lemma bytes_at_S (pBuffer : list byte) (off : Z) (n : nat) :
  bytes_at pBuffer off (S n) = byte_at pBuffer off :: bytes_at pBuffer (off + 1) n.
Proof.
  unfold bytes_at. cbn [seq map]. f_equal.
  - f_equal. cbn. lia.
  - rewrite <- seq_shift, map_map. apply map_ext. intros k.
    f_equal. lia.
Qed.

Lemma bytes_at_snoc (pBuffer : list byte) (off : Z) (n : nat) :
  bytes_at pBuffer off (S n) = bytes_at pBuffer off n ++ [byte_at pBuffer (off + Z.of_nat n)].
Proof.
  unfold bytes_at. rewrite seq_S, map_app. reflexivity.
Qed.

Lemma last_bytes_at (pBuffer : list byte) (off : Z) (n : nat) (d : byte) :
  last (bytes_at pBuffer off (S n)) d = byte_at pBuffer (off + Z.of_nat n).
Proof.
  rewrite bytes_at_snoc. apply last_last.
Qed.

Lemma removelast_bytes_at (pBuffer : list byte) (off : Z) (n : nat) :
  removelast (bytes_at pBuffer off (S n)) = bytes_at pBuffer off n.
Proof.
  rewrite bytes_at_snoc. apply removelast_last.
Qed.

Lemma u8_inj_const (b : byte) (z : Z) : u8 b = z -> b = byte_of_Z z.
Proof.
  intros <-. symmetry. apply byte_of_Z_u8.
Qed.

(** With an empty declared payload the byte read as the tail is the last
    byte of the command header, which is none of the SysEx markers. *)
Lemma empty_payload_tail (pBuffer : list byte) :
  declared_length pBuffer = 0 ->
  u8 (byte_at pBuffer (declared_offset pBuffer + 0 - 1)) <> 0xF0 /\
  u8 (byte_at pBuffer (declared_offset pBuffer + 0 - 1)) <> 0xF7 /\
  u8 (byte_at pBuffer (declared_offset pBuffer + 0 - 1)) <> 0xF4.
Proof.
  unfold declared_length, declared_offset.
  pose proof (u8_range (byte_at pBuffer 13)) as H13.
  pose proof (Z.mod_pos_bound (u8 (byte_at pBuffer 12)) 16) as Hn.
  destruct (Z.ltb_spec (u8 (byte_at pBuffer 12)) 128) as [Hlt|Hge]; intros H0.
  - change (13 + 0 - 1) with 12. lia.
  - change (14 + 0 - 1) with 13. lia.
Qed.

(** The pair returned by lines 253-276 denotes the declared payload with
    the boundary rules applied; a cancelled segment is cut down to its
    first byte, 0xF7. *)
Lemma fixup_lines_correct (pBuffer : list byte) :
  let '(pMIDIData, nMIDIDataSize) :=
    fixup_lines pBuffer (declared_offset pBuffer) (declared_length pBuffer) in
  region pBuffer pMIDIData nMIDIDataSize = SysEx_fixup [xf7] (payload pBuffer).
Proof.
  pose proof (declared_length_range pBuffer) as Hlen.
  pose proof (empty_payload_tail pBuffer) as Hempty.
  unfold payload, region, fixup_lines.
  set (p0 := declared_offset pBuffer) in *.
  set (len0 := declared_length pBuffer) in *.
  assert (En : len0 = Z.of_nat (Z.to_nat len0)) by lia.
  set (n := Z.to_nat len0) in *. clearbody n len0. subst len0.
  destruct n as [|[|n]].
  - (* empty payload *)
    change (Z.of_nat 0) with 0 in *.
    destruct (Hempty eq_refl) as (H1 & H2 & H3).
    set (nTail := u8 (byte_at pBuffer (p0 + 0 - 1))) in *.
    destruct (Z.eqb_spec nTail 0xF0); [contradiction|].
    destruct (Z.eqb_spec nTail 0xF7); [contradiction|].
    destruct (Z.eqb_spec nTail 0xF4); [contradiction|].
    rewrite !andb_false_r. reflexivity.
  - (* one byte: head and tail coincide *)
    change (Z.of_nat 1) with 1 in *. change (Z.to_nat 1) with 1%nat.
    replace (p0 + 1 - 1) with p0 by lia.
    rewrite bytes_at_S. cbn [bytes_at seq map SysEx_fixup last removelast].
    set (b := byte_at pBuffer p0).
    change (wrap 16 (1 - 1)) with 0.
    destruct (Z.eqb_spec (u8 b) 0xF0) as [E0|N0];
      [|destruct (Z.eqb_spec (u8 b) 0xF7) as [E7|N7]];
      cbn [andb]; cbv beta iota;
      change (Z.to_nat 1) with 1%nat; change (Z.to_nat 0) with 0%nat;
      rewrite ?bytes_at_S; reflexivity.
  - (* two bytes or more *)
    assert (Hw1 : wrap 16 (Z.of_nat (S (S n)) - 1) = Z.of_nat (S n))
      by (unfold wrap; rewrite Z.mod_small; lia).
    assert (Hw2 : wrap 16 (Z.of_nat (S (S n)) - 2) = Z.of_nat n)
      by (unfold wrap; rewrite Z.mod_small; lia).
    rewrite Hw1, Hw2.
    replace (p0 + Z.of_nat (S (S n)) - 1) with (p0 + Z.of_nat (S n)) by lia.
    rewrite (bytes_at_S pBuffer p0 (S n)).
    unfold SysEx_fixup.
    rewrite <- (bytes_at_S pBuffer p0 (S n)).
    rewrite last_bytes_at, !removelast_bytes_at.
    set (b := byte_at pBuffer p0).
    set (t := byte_at pBuffer (p0 + Z.of_nat (S n))).
    destruct ((u8 b =? 0xF0) && (u8 t =? 0xF0));
      [cbv beta iota; rewrite Nat2Z.id; reflexivity|].
    destruct ((u8 b =? 0xF7) && (u8 t =? 0xF0));
      [cbv beta iota; rewrite Nat2Z.id; reflexivity|].
    destruct ((u8 b =? 0xF7) && (u8 t =? 0xF7));
      [cbv beta iota; rewrite Nat2Z.id; reflexivity|].
    destruct ((u8 b =? 0xF7) && (u8 t =? 0xF4)) eqn:E;
      [|cbv beta iota; rewrite Nat2Z.id; reflexivity].
    apply andb_prop in E. destruct E as [E _]. apply Z.eqb_eq in E.
    apply u8_inj_const in E.
    cbv beta iota. change (Z.to_nat 1) with 1%nat.
    rewrite bytes_at_S. fold b. rewrite E. reflexivity.
Qed.

Lemma ParseMIDIPacket_region (pBuffer : list byte) (nSize : Z)
    (pkt : TRTPMIDI) (pMIDIData nMIDIDataSize : Z) :
  ParseMIDIPacket pBuffer nSize = Some (pkt, pMIDIData, nMIDIDataSize) ->
  region pBuffer pMIDIData nMIDIDataSize = SysEx_fixup [xf7] (payload pBuffer).
Proof.
  intros H.
  apply ParseMIDIPacket_accepts in H. destruct H as [H _].
  pose proof (fixup_lines_correct pBuffer) as Hc.
  rewrite <- H in Hc. exact Hc.
Qed.

(** C2 (as amended).  For every buffer the RTP-MIDI decoder accepts, the
    region it returns holds the declared payload with the boundary rules
    applied: head F0 and tail F0, the payload without its last byte; head F7
    and tail F0, without its first and last bytes; head F7 and tail F7,
    without its first byte; head F7 and tail F4, the first byte alone, which
    is F7; otherwise the payload.  With the payload F7 11 22 33 F0 the sink
    is called with 11 22 33. *)
Theorem ParseMIDIPacket_SysEx_fixup :
  (forall (pBuffer : list byte) (nSize : Z) (pkt : TRTPMIDI) (pMIDIData nMIDIDataSize : Z),
     ParseMIDIPacket pBuffer nSize = Some (pkt, pMIDIData, nMIDIDataSize) ->
     region pBuffer pMIDIData nMIDIDataSize = SysEx_fixup [xf7] (payload pBuffer))
  /\ (forall w : TWorld,
        snd (ConnectedState_MIDI (ConnectedWith MiddleSegment) w)
        = [EvReceiveHandler (bytes_of [0x11; 0x22; 0x33])]).
Proof.
  split.
  - exact ParseMIDIPacket_region.
  - intros w. vm_compute. reflexivity.
Qed.

Lemma ParseMIDIPacket_SysEx_fixup_witness :
  region MiddleSegment 14 3 = SysEx_fixup [xf7] (payload MiddleSegment).
Proof.
  apply (proj1 ParseMIDIPacket_SysEx_fixup MiddleSegment 18
           (mkRTPMIDI (mkRTPHeader 0x8061 0x1234 0 0xCAFEBABE)) 14 3).
  vm_compute. reflexivity.
Defined.

(** The spec has the cancelled segment come out as the
    single byte F4; the decoder leaves the pointer on the head and returns
    F7. *)
Lemma cancelled_segment_counterexample :
  ParseMIDIPacket CancelledSegment 16
    = Some (mkRTPMIDI (mkRTPHeader 0x8061 0x1234 0 0xCAFEBABE), 13, 1)
  /\ payload CancelledSegment = [xf7; x11; xf4]
  /\ region CancelledSegment 13 1 = [xf7]
  /\ region CancelledSegment 13 1 <> SysEx_fixup [xf4] (payload CancelledSegment).
Proof.
  repeat split; try (vm_compute; reflexivity).
  vm_compute. discriminate.
Qed.

(** ** The payload region and the size of the datagram *)

(** C10.  [ParseMIDIPacket] never reads [nSize].  A 13-byte datagram whose
    command header declares 15 bytes is accepted with a region that lies
    past the 13 bytes received, and a 14-byte datagram whose header declares
    4095 bytes with a region that lies past the receive buffer.  Received
    after a note-on packet, the 13-byte datagram makes the connected state
    hand the sink 15 bytes that begin with the payload of the packet
    before. *)
Theorem ParseMIDIPacket_region_past_datagram :
  (let '(nSize, pBuffer, _, _) :=
     ReceiveFrom (Datagram TruncatedFrame 0xC000020A 5005)
       (repeat x00 (Z.to_nat FRAME_BUFFER_SIZE)) 0 0 in
   nSize = 13 /\
   exists pkt, ParseMIDIPacket pBuffer nSize = Some (pkt, 13, 15) /\ 13 + 15 > nSize)
  /\
  (let '(nSize, pBuffer, _, _) :=
     ReceiveFrom (Datagram (bytes_of (RTPHeader_bytes ++ [0x8F; 0xFF])) 0xC000020A 5005)
       (repeat x00 (Z.to_nat FRAME_BUFFER_SIZE)) 0 0 in
   nSize = 14 /\
   exists pkt, ParseMIDIPacket pBuffer nSize = Some (pkt, 14, 4095)
               /\ 14 + 4095 > FRAME_BUFFER_SIZE)
  /\
  (forall w : TWorld,
     snd (ConnectedState_MIDI
            (ReceiveMIDI (Datagram TruncatedFrame 0xC000020A 5005)
               (ConnectedWith NoteOnFrame)) w)
     = [EvReceiveHandler
          (bytes_of [0x90; 0x3C; 0x7F; 0; 0; 0; 0; 0; 0; 0; 0; 0; 0; 0; 0])]).
Proof.
  split; [|split].
  - vm_compute. split; [reflexivity|]. eexists. split; reflexivity.
  - vm_compute. split; [reflexivity|]. eexists. split; reflexivity.
  - intros w. vm_compute. reflexivity.
Qed.

(** [nSize] has no part in the result. *)
Lemma ParseMIDIPacket_ignores_nSize (pBuffer : list byte) (nSize nSize' : Z) :
  ParseMIDIPacket pBuffer nSize = ParseMIDIPacket pBuffer nSize'.
Proof. reflexivity. Qed.

(** The fixup itself stays inside the declared payload: its length
    subtractions do not wrap. *)
Lemma fixup_lines_within (pBuffer : list byte) :
  let '(pMIDIData, nMIDIDataSize) :=
    fixup_lines pBuffer (declared_offset pBuffer) (declared_length pBuffer) in
  declared_offset pBuffer <= pMIDIData
  /\ 0 <= nMIDIDataSize
  /\ pMIDIData + nMIDIDataSize <= declared_offset pBuffer + declared_length pBuffer.
Proof.
  pose proof (declared_length_range pBuffer) as Hlen.
  pose proof (empty_payload_tail pBuffer) as Hempty.
  unfold fixup_lines.
  set (p0 := declared_offset pBuffer) in *.
  set (len0 := declared_length pBuffer) in *. clearbody p0 len0.
  destruct (Z.eq_dec len0 0) as [E0|N0]; [|destruct (Z.eq_dec len0 1) as [E1|N1]].
  - subst len0. destruct (Hempty eq_refl) as (H1 & H2 & H3).
    set (nTail := u8 (byte_at pBuffer (p0 + 0 - 1))) in *.
    destruct (Z.eqb_spec nTail 0xF0); [contradiction|].
    destruct (Z.eqb_spec nTail 0xF7); [contradiction|].
    destruct (Z.eqb_spec nTail 0xF4); [contradiction|].
    rewrite !andb_false_r. lia.
  - subst len0. replace (p0 + 1 - 1) with p0 by lia.
    change (wrap 16 (1 - 1)) with 0.
    destruct (Z.eqb_spec (u8 (byte_at pBuffer p0)) 0xF0) as [E|N];
      [|destruct (Z.eqb_spec (u8 (byte_at pBuffer p0)) 0xF7) as [E|N']];
      cbn [andb]; try rewrite E; cbn [Z.eqb Pos.eqb andb]; lia.
  - assert (Hw1 : wrap 16 (len0 - 1) = len0 - 1)
      by (unfold wrap; rewrite Z.mod_small; lia).
    assert (Hw2 : wrap 16 (len0 - 2) = len0 - 2)
      by (unfold wrap; rewrite Z.mod_small; lia).
    rewrite Hw1, Hw2.
    destruct (_ && _); [lia|].
    destruct (_ && _); [lia|].
    destruct (_ && _); [lia|].
    destruct (_ && _); lia.
Qed.

(** What is missing is the comparison with [nSize]: were the declared
    payload within the datagram, the region returned would be. *)
Lemma ParseMIDIPacket_region_within_declared (pBuffer : list byte) (nSize : Z)
    (pkt : TRTPMIDI) (pMIDIData nMIDIDataSize : Z) :
  ParseMIDIPacket pBuffer nSize = Some (pkt, pMIDIData, nMIDIDataSize) ->
  declared_offset pBuffer <= pMIDIData
  /\ 0 <= nMIDIDataSize
  /\ pMIDIData + nMIDIDataSize <= declared_offset pBuffer + declared_length pBuffer.
Proof.
  intros H. apply ParseMIDIPacket_accepts in H. destruct H as [H _].
  pose proof (fixup_lines_within pBuffer) as Hw.
  rewrite <- H in Hw. exact Hw.
Qed.

(** ** Encoders against decoders *)

Lemma bytes_at_app_r (A R : list byte) (off : Z) (n : nat) :
  0 <= off ->
  bytes_at (A ++ R) (Z.of_nat (List.length A) + off) n = bytes_at R off n.
Proof.
  intros Hoff. unfold bytes_at. apply map_ext. intros k. unfold byte_at.
  rewrite app_nth2 by lia. f_equal. lia.
Qed.

Lemma bytes_at_app_l (B R : list byte) :
  bytes_at (B ++ R) 0 (List.length B) = B.
Proof.
  induction B as [|b B IH]; [reflexivity|].
  cbn [List.length]. rewrite bytes_at_S. f_equal.
  change ((b :: B) ++ R) with ([b] ++ (B ++ R)).
  change (0 + 1) with (Z.of_nat (List.length [b]) + 0).
  rewrite bytes_at_app_r by lia. exact IH.
Qed.

(** A member of a packed structure is found at the sum of the sizes of the
    members before it. *)
Lemma load_chunk (pre : list (list byte)) (B : list byte) (post : list (list byte))
    (rest : list byte) (n : nat) (off : Z) :
  List.length B = n ->
  off = Z.of_nat (List.length (List.concat pre)) ->
  load n (List.concat (pre ++ B :: post) ++ rest) off = le_decode B.
Proof.
  intros <- ->. unfold load.
  rewrite concat_app. cbn [List.concat]. rewrite <- !app_assoc.
  replace (Z.of_nat (List.length (List.concat pre)))
    with (Z.of_nat (List.length (List.concat pre)) + 0) by lia.
  rewrite bytes_at_app_r by lia.
  rewrite bytes_at_app_l. reflexivity.
Qed.

Lemma ntoh_hton (n : nat) (v : Z) :
  0 <= v < 256 ^ Z.of_nat n ->
  bswap n (le_decode (le_encode n (bswap n v))) = v.
Proof.
  intros Hv.
  rewrite le_decode_encode, (Z.mod_small (bswap n v)) by apply bswap_range.
  rewrite bswap_bswap. apply Z.mod_small. exact Hv.
Qed.

Lemma sent_data_SendPacket (p : CAppleMIDIParticipant) (pSocket : TSocket) (nPort : Z)
    (pData : list byte) (nSize : Z) (w : TWorld) :
  sent_data (snd (SendPacket p pSocket nPort pData nSize w))
  = [firstn (Z.to_nat nSize) pData].
Proof.
  unfold SendPacket, bind, SendTo, Write, ret.
  destruct (_ <? 0); [reflexivity|].
  destruct (negb _); reflexivity.
Qed.

Lemma ParseSyncPacket_SyncPacket (p : CAppleMIDIParticipant) (t1 t2 : Z) (rest : list byte) :
  0 <= m_nSSRC p < 2 ^ 32 -> 0 <= t1 < 2 ^ 64 -> 0 <= t2 < 2 ^ 64 ->
  ParseSyncPacket (memory_TAppleMIDISync (SyncPacket p t1 t2) ++ rest) 36
  = Some (mkSync AppleMIDISignature Sync (m_nSSRC p) 1 (t1, t2, 0)).
Proof.
  intros Hs H1 H2.
  unfold memory_TAppleMIDISync, SyncPacket.
  cbn [sync_nSignature sync_nCommand sync_nSSRC sync_nCount sync_nTimestamps].
  set (c0 := le_encode 2 (htons AppleMIDISignature)).
  set (c1 := le_encode 2 (htons Sync)).
  set (c2 := le_encode 4 (htonl (m_nSSRC p))).
  set (c3 := le_encode 1 1).
  set (c4 := [x00; x00; x00]).
  set (c5 := le_encode 8 (htonll t1)).
  set (c6 := le_encode 8 (htonll t2)).
  set (c7 := le_encode 8 0).
  set (buf := List.concat _ ++ rest).
  assert (L0 : load 2 buf 0 = le_decode c0)
    by (apply (load_chunk [] c0 [c1; c2; c3; c4; c5; c6; c7]); reflexivity).
  assert (L1 : load 2 buf 2 = le_decode c1)
    by (apply (load_chunk [c0] c1 [c2; c3; c4; c5; c6; c7]); reflexivity).
  assert (L2 : load 4 buf 4 = le_decode c2)
    by (apply (load_chunk [c0; c1] c2 [c3; c4; c5; c6; c7]); reflexivity).
  assert (L3 : load 1 buf 8 = le_decode c3)
    by (apply (load_chunk [c0; c1; c2] c3 [c4; c5; c6; c7]); reflexivity).
  assert (L5 : load 8 buf 12 = le_decode c5)
    by (apply (load_chunk [c0; c1; c2; c3; c4] c5 [c6; c7]); reflexivity).
  assert (L6 : load 8 buf 20 = le_decode c6)
    by (apply (load_chunk [c0; c1; c2; c3; c4; c5] c6 [c7]); reflexivity).
  assert (L7 : load 8 buf 28 = le_decode c7)
    by (apply (load_chunk [c0; c1; c2; c3; c4; c5; c6] c7 []); reflexivity).
  unfold ParseSyncPacket.
  rewrite L0, L1, L2, L3, L5, L6, L7.
  subst c0 c1 c2 c3 c5 c6 c7.
  change (ntohs (le_decode (le_encode 2 (htons AppleMIDISignature))))
    with AppleMIDISignature.
  change (ntohs (le_decode (le_encode 2 (htons Sync)))) with Sync.
  change (le_decode (le_encode 1 1)) with 1.
  change (ntohll (le_decode (le_encode 8 0))) with 0.
  unfold ntohl, htonl, ntohll, htonll.
  rewrite !ntoh_hton by (cbn; lia).
  reflexivity.
Qed.

Lemma AcceptPacket_sent (p : CAppleMIDIParticipant) :
  firstn 24 (memory_TAppleMIDIInvitation (AcceptPacket p))
  = List.concat [le_encode 2 (htons AppleMIDISignature);
                 le_encode 2 (htons InvitationAccepted);
                 le_encode 4 (htonl AppleMIDIVersion);
                 le_encode 4 (htonl (m_nInitiatorToken p));
                 le_encode 4 (htonl (m_nSSRC p));
                 firstn 8 AcceptName].
Proof.
  unfold memory_TAppleMIDIInvitation, AcceptPacket.
  cbn [inv_nSignature inv_nCommand inv_nVersion inv_nInitiatorToken inv_nSSRC inv_Name].
  fold AcceptName. generalize AcceptName. intros Name.
  cbn [List.concat]. rewrite !app_nil_r. reflexivity.
Qed.

Lemma ParseInvitationPacket_AcceptPacket (p : CAppleMIDIParticipant) (rest : list byte) :
  0 <= m_nInitiatorToken p < 2 ^ 32 -> 0 <= m_nSSRC p < 2 ^ 32 ->
  let Data := firstn 24 (memory_TAppleMIDIInvitation (AcceptPacket p)) in
  ParseInvitationPacket (Data ++ rest) 24 = None
  /\ ParseInvitationPacket (with_command Invitation Data ++ rest) 24
     = Some (mkInvitation AppleMIDISignature Invitation AppleMIDIVersion
               (m_nInitiatorToken p) (m_nSSRC p) AcceptName).
Proof.
  intros Ht Hs Data. subst Data. rewrite AcceptPacket_sent.
  set (c0 := le_encode 2 (htons AppleMIDISignature)).
  set (c1 := le_encode 2 (htons InvitationAccepted)).
  set (c2 := le_encode 4 (htonl AppleMIDIVersion)).
  set (c3 := le_encode 4 (htonl (m_nInitiatorToken p))).
  set (c4 := le_encode 4 (htonl (m_nSSRC p))).
  set (c5 := firstn 8 AcceptName).
  split.
  - set (buf := List.concat _ ++ rest).
    assert (L0 : load 2 buf 0 = le_decode c0)
      by (apply (load_chunk [] c0 [c1; c2; c3; c4; c5]); reflexivity).
    assert (L1 : load 2 buf 2 = le_decode c1)
      by (apply (load_chunk [c0] c1 [c2; c3; c4; c5]); reflexivity).
    unfold ParseInvitationPacket. rewrite L0, L1. reflexivity.
  - set (c1' := le_encode 2 (htons Invitation)).
    assert (E : with_command Invitation (List.concat [c0; c1; c2; c3; c4; c5])
                = List.concat [c0; c1'; c2; c3; c4; c5]) by reflexivity.
    rewrite E. clear E.
    set (buf := List.concat _ ++ rest).
    assert (L0 : load 2 buf 0 = le_decode c0)
      by (apply (load_chunk [] c0 [c1'; c2; c3; c4; c5]); reflexivity).
    assert (L1 : load 2 buf 2 = le_decode c1')
      by (apply (load_chunk [c0] c1' [c2; c3; c4; c5]); reflexivity).
    assert (L2 : load 4 buf 4 = le_decode c2)
      by (apply (load_chunk [c0; c1'] c2 [c3; c4; c5]); reflexivity).
    assert (L3 : load 4 buf 8 = le_decode c3)
      by (apply (load_chunk [c0; c1'; c2] c3 [c4; c5]); reflexivity).
    assert (L4 : load 4 buf 12 = le_decode c4)
      by (apply (load_chunk [c0; c1'; c2; c3] c4 [c5]); reflexivity).
    assert (LN : strncpy (skipn 16 buf) (Z.to_nat sizeof_Name) = AcceptName)
      by reflexivity.
    unfold ParseInvitationPacket. rewrite L0, L1, L2, L3, L4, LN.
    subst c0 c1' c2 c3 c4.
    change (ntohs (le_decode (le_encode 2 (htons AppleMIDISignature))))
      with AppleMIDISignature.
    change (ntohs (le_decode (le_encode 2 (htons Invitation)))) with Invitation.
    change (ntohl (le_decode (le_encode 4 (htonl AppleMIDIVersion))))
      with AppleMIDIVersion.
    unfold ntohl, htonl.
    rewrite !ntoh_hton by (cbn; lia).
    reflexivity.
Qed.

(** C9 (as amended).  The participant has an encoder and a decoder for one
    frame kind, CK: the sync decoder applied to the datagram [SendSyncPacket]
    sends returns the frame's signature, command, SSRC, count and timestamps.
    The datagram [SendAcceptInvitationPacket] sends, an OK frame, is
    rejected by the invitation decoder, which accepts the command IN only;
    with the command word replaced by IN the decoder returns the version,
    token, SSRC and name of the frame.  There is no encoder for IN and BY
    and no decoder for RS. *)
Theorem decode_encode_Sync_and_Accept (p : CAppleMIDIParticipant) (rest : list byte)
    (w : TWorld) :
  0 <= m_nInitiatorToken p < 2 ^ 32 ->
  0 <= m_nSSRC p < 2 ^ 32 ->
  (forall t1 t2 : Z, 0 <= t1 < 2 ^ 64 -> 0 <= t2 < 2 ^ 64 ->
     exists Data : list byte,
       sent_data (snd (SendSyncPacket p t1 t2 w)) = [Data]
       /\ ParseSyncPacket (Data ++ rest) (Z.of_nat (List.length Data))
          = Some (mkSync AppleMIDISignature Sync (m_nSSRC p) 1 (t1, t2, 0)))
  /\ (forall (pSocket : TSocket) (nPort : Z),
        exists Data : list byte,
          sent_data (snd (SendAcceptInvitationPacket p pSocket nPort w)) = [Data]
          /\ ParseInvitationPacket (Data ++ rest) (Z.of_nat (List.length Data)) = None
          /\ ParseInvitationPacket (with_command Invitation Data ++ rest)
               (Z.of_nat (List.length Data))
             = Some (mkInvitation AppleMIDISignature Invitation AppleMIDIVersion
                       (m_nInitiatorToken p) (m_nSSRC p) AcceptName)).
Proof.
  intros Ht Hs. split.
  - intros t1 t2 H1 H2. eexists. split.
    + unfold SendSyncPacket. apply sent_data_SendPacket.
    + assert (E : firstn (Z.to_nat sizeof_TAppleMIDISync)
                    (memory_TAppleMIDISync (SyncPacket p t1 t2))
                  = memory_TAppleMIDISync (SyncPacket p t1 t2)) by reflexivity.
      rewrite E.
      change (Z.of_nat (List.length (memory_TAppleMIDISync (SyncPacket p t1 t2))))
        with 36.
      apply ParseSyncPacket_SyncPacket; assumption.
  - intros pSocket nPort. eexists. split.
    + unfold SendAcceptInvitationPacket. apply sent_data_SendPacket.
    + change (Z.to_nat (sizeof_TAppleMIDIInvitation - sizeof_Name
                        + strlen (inv_Name (AcceptPacket p)) + 1)) with 24%nat.
      assert (L : Z.of_nat (List.length (firstn 24
                     (memory_TAppleMIDIInvitation (AcceptPacket p)))) = 24)
        by (rewrite AcceptPacket_sent; reflexivity).
      rewrite L.
      apply ParseInvitationPacket_AcceptPacket; assumption.
Qed.

Lemma decode_encode_Sync_and_Accept_witness :
  exists Data : list byte,
    sent_data (snd (SendSyncPacket (ConnectedWith []) 1000 1005 World0)) = [Data]
    /\ ParseSyncPacket (Data ++ []) (Z.of_nat (List.length Data))
       = Some (mkSync AppleMIDISignature Sync 0x12345678 1 (1000, 1005, 0)).
Proof.
  refine (proj1 (decode_encode_Sync_and_Accept (ConnectedWith []) [] World0 _ _)
            1000 1005 _ _);
    vm_compute; split; congruence.
Defined.

(** The spec has every encoded frame decode to itself; the
    OK frame the participant sends to accept an invitation does not
    decode. *)
Lemma accept_packet_counterexample :
  sent_data (snd (SendAcceptInvitationPacket (ConnectedWith []) ControlSocket 5004 World0))
  = [bytes_of [0xFF; 0xFF; 0x4F; 0x4B; 0; 0; 0; 2; 0xDE; 0xAD; 0xBE; 0xEF;
               0x12; 0x34; 0x56; 0x78; 0x6D; 0x74; 0x33; 0x32; 0x2D; 0x70; 0x69; 0]]
  /\ ParseInvitationPacket
       (bytes_of [0xFF; 0xFF; 0x4F; 0x4B; 0; 0; 0; 2; 0xDE; 0xAD; 0xBE; 0xEF;
                  0x12; 0x34; 0x56; 0x78; 0x6D; 0x74; 0x33; 0x32; 0x2D; 0x70; 0x69; 0]) 24
     = None.
Proof.
  split; vm_compute; reflexivity.
Qed.

(** ** Reset *)

Lemma quiet_nil : quiet [].
Proof. intros t []. Qed.

Lemma quiet_app (ev1 ev2 : list TEvent) : quiet ev1 -> quiet ev2 -> quiet (ev1 ++ ev2).
Proof.
  intros H1 H2 t Hin. apply in_app_or in Hin. destruct Hin; [eapply H1|eapply H2]; eauto.
Qed.

Lemma quiet_SendPacket (p : CAppleMIDIParticipant) (pSocket : TSocket) (nPort : Z)
    (pData : list byte) (nSize : Z) (w : TWorld) :
  quiet (snd (SendPacket p pSocket nPort pData nSize w)).
Proof.
  unfold SendPacket. unfold_M. paths; cbn [snd]; quiet_list.
Qed.

Lemma events_GetSyncClock (w : TWorld) : snd (GetSyncClock w) = [].
Proof.
  unfold_M. paths; reflexivity.
Qed.

Lemma receive_kept_refl (p : CAppleMIDIParticipant) : receive_kept p p.
Proof. repeat split. Qed.

Lemma receive_kept_trans (p1 p2 p3 : CAppleMIDIParticipant) :
  receive_kept p1 p2 -> receive_kept p2 p3 -> receive_kept p1 p3.
Proof.
  unfold receive_kept. intuition congruence.
Qed.

Lemma Reset_clears (p : CAppleMIDIParticipant) :
  session_cleared (Reset p) /\ receive_kept p (Reset p).
Proof.
  split; repeat split.
Qed.

Lemma ControlInvitationState_quiet (p : CAppleMIDIParticipant) (w : TWorld) :
  quiet (snd (ControlInvitationState p w)).
Proof.
  unfold ControlInvitationState. unfold_sends. unfold_M.
  paths; cbn [snd app]; quiet_list.
Qed.

Lemma MIDIInvitationState_reset (t : TResetTrigger) (p : CAppleMIDIParticipant) (w : TWorld) :
  In (trigger_log t) (snd (MIDIInvitationState p w)) ->
  fst (fst (MIDIInvitationState p w)) = Reset p.
Proof.
  unfold MIDIInvitationState. unfold_sends. unfold_M.
  paths; cbn [fst snd app In]; intros H; try reflexivity;
    destruct t; cbn [trigger_log] in H; exfalso; intuition discriminate.
Qed.

Lemma ConnectedState_Control_cases (p : CAppleMIDIParticipant) (w : TWorld) :
  ConnectedState_Control p w = (true, Reset p, w, [trigger_log PeerEndSession])
  \/ ConnectedState_Control p w = (false, p, w, []).
Proof.
  unfold ConnectedState_Control. unfold_M. paths; auto.
Qed.

(** The outcomes of the data-port block. *)
Lemma ConnectedState_MIDI_cases (p : CAppleMIDIParticipant) (w : TWorld) :
  ConnectedState_MIDI p w = (p, w, [])
  \/ (exists pkt off size,
        ParseMIDIPacket (m_MIDIBuffer p) (m_nMIDIResult p) = Some (pkt, off, size)
        /\ (ConnectedState_MIDI p w
             = (set_nSequence (rtp_nSequence (RTPHeader pkt)) p, w,
                [EvReceiveHandler (region (m_MIDIBuffer p) off size)])
            \/ ConnectedState_MIDI p w
               = (set_nSequence (rtp_nSequence (RTPHeader pkt)) p, w, [])))
  \/ ConnectedState_MIDI p w = (p, w, [EvLog LogError "Unexpected sync packet"])
  \/ (exists t1 c1 w1 c,
        ConnectedState_MIDI p w
        = (set_nLastSyncTime c p,
           snd (fst (GetSyncClock (snd (fst (SendSyncPacket p t1 c1 w1))))),
           snd (SendSyncPacket p t1 c1 w1)))
  \/ (exists x c,
        ConnectedState_MIDI p w
        = (set_nLastSyncTime c (set_nOffsetEstimate x p),
           snd (fst (GetSyncClock w)),
           [EvLog LogNotice "Offset estimate: %llu"])).
Proof.
  unfold ConnectedState_MIDI.
  destruct (m_nMIDIResult p >? 0); [|left; reflexivity].
  destruct (ParseMIDIPacket _ _) as [[[pkt off] size]|].
  { right. left. exists pkt, off, size. split; [reflexivity|].
    destruct (m_pReceiveHandler _); [left|right]; reflexivity. }
  destruct (ParseSyncPacket _ _) as [sp|]; [|left; reflexivity].
  destruct (sync_nTimestamps sp) as [[t1 t2] t3].
  destruct (sync_nSSRC sp =? m_nInitiatorSSRC p);
    [|right; right; left; reflexivity].
  destruct (sync_nCount sp =? 0).
  - right. right. right. left. cbn [andb orb]. unfold bind, ret.
    pose proof (events_GetSyncClock w) as E.
    destruct (GetSyncClock w) as [[c1 w1] ev1]. cbn [snd] in E. subst ev1.
    exists t1, c1, w1.
    destruct (SendSyncPacket p t1 c1 w1) as [[b w2] ev2]. cbn [fst snd].
    pose proof (events_GetSyncClock w2) as E.
    destruct (GetSyncClock w2) as [[c w3] ev3]. cbn [snd] in E. subst ev3.
    exists c. cbn [fst snd app]. rewrite !app_nil_r. reflexivity.
  - destruct (sync_nCount sp =? 2); [|right; right; left; reflexivity].
    right. right. right. right. cbn [andb orb]. unfold bind, Write, ret.
    pose proof (events_GetSyncClock w) as E.
    destruct (GetSyncClock w) as [[c w3] ev3]. cbn [snd] in E. subst ev3.
    eexists. exists c. reflexivity.
Qed.

Lemma ConnectedState_MIDI_quiet (p : CAppleMIDIParticipant) (w : TWorld) :
  quiet (snd (ConnectedState_MIDI p w))
  /\ receive_kept p (fst (fst (ConnectedState_MIDI p w)))
  /\ m_State (fst (fst (ConnectedState_MIDI p w))) = m_State p.
Proof.
  destruct (ConnectedState_MIDI_cases p w)
    as [E | [(pkt & off & size & _ & [E|E]) | [E | [(t1 & c1 & w1 & c & E) | (x & c & E)]]]];
    rewrite E; cbn [fst snd];
    (split; [|split; repeat split]);
    try quiet_list.
  unfold SendSyncPacket. apply quiet_SendPacket.
Qed.

Lemma ConnectedState_Feedback_quiet (nTicks : Z) (p : CAppleMIDIParticipant) (w : TWorld) :
  quiet (snd (ConnectedState_Feedback nTicks p w))
  /\ receive_kept p (fst (fst (ConnectedState_Feedback nTicks p w)))
  /\ m_State (fst (fst (ConnectedState_Feedback nTicks p w))) = m_State p.
Proof.
  unfold ConnectedState_Feedback. unfold_sends. unfold_M.
  paths; fields; cbn [app]; (split; [quiet_list | split; repeat split]).
Qed.

Lemma ConnectedState_Timeout_cases (nTicks : Z) (p : CAppleMIDIParticipant) (w : TWorld) :
  ConnectedState_Timeout nTicks p w = (Reset p, w, [trigger_log SyncSilenceTimeout])
  \/ ConnectedState_Timeout nTicks p w = (p, w, []).
Proof.
  unfold ConnectedState_Timeout. unfold_M. paths; auto.
Qed.

(** [ConnectedState] along its blocks. *)
Lemma ConnectedState_blocks (p : CAppleMIDIParticipant) (w : TWorld) :
  ConnectedState p w =
    let '(bReturned, p0, w0, ev0) := ConnectedState_Control p w in
    if bReturned then (p0, w0, ev0 ++ []) else
    let '(p1, w1, ev1) := ConnectedState_MIDI p0 w0 in
    let '(nTicks, w2, ev2) := GetSyncClock w1 in
    let '(p3, w3, ev3) := ConnectedState_Feedback nTicks p1 w2 in
    let '(p4, w4, ev4) := ConnectedState_Timeout nTicks p3 w3 in
    (p4, w4, ev0 ++ ev1 ++ ev2 ++ ev3 ++ ev4).
Proof.
  unfold ConnectedState, bind, ret.
  destruct (ConnectedState_Control p w) as [[[bReturned p0] w0] ev0].
  destruct bReturned; [reflexivity|].
  destruct (ConnectedState_MIDI p0 w0) as [[p1 w1] ev1].
  destruct (GetSyncClock w1) as [[nTicks w2] ev2].
  destruct (ConnectedState_Feedback nTicks p1 w2) as [[p3 w3] ev3].
  destruct (ConnectedState_Timeout nTicks p3 w3) as [[p4 w4] ev4].
  reflexivity.
Qed.

Lemma ConnectedState_reset (t : TResetTrigger) (p : CAppleMIDIParticipant) (w : TWorld) :
  In (trigger_log t) (snd (ConnectedState p w)) ->
  exists p0, fst (fst (ConnectedState p w)) = Reset p0 /\ receive_kept p p0.
Proof.
  rewrite ConnectedState_blocks.
  destruct (ConnectedState_Control_cases p w) as [E|E]; rewrite E.
  - intros _. exists p. split; [reflexivity|apply receive_kept_refl].
  - pose proof (ConnectedState_MIDI_quiet p w) as (Q1 & K1 & _).
    destruct (ConnectedState_MIDI p w) as [[p1 w1] ev1]. cbn [fst snd] in *.
    pose proof (events_GetSyncClock w1) as E2.
    destruct (GetSyncClock w1) as [[nTicks w2] ev2]. cbn [snd] in E2. subst ev2.
    pose proof (ConnectedState_Feedback_quiet nTicks p1 w2) as (Q3 & K3 & _).
    destruct (ConnectedState_Feedback nTicks p1 w2) as [[p3 w3] ev3]. cbn [fst snd] in *.
    destruct (ConnectedState_Timeout_cases nTicks p3 w3) as [E4|E4]; rewrite E4;
      cbn [fst snd app].
    + intros _. exists p3. split; [reflexivity|].
      eapply receive_kept_trans; eassumption.
    + rewrite app_nil_r. intros H. exfalso.
      apply in_app_or in H. destruct H as [H|H]; [eapply Q1|eapply Q3]; eauto.
Qed.

(** C1 (as amended).  Whichever of the four triggers makes an iteration call
    [Reset] (end of session by the peer, timeout of the MIDI invitation,
    sync silence, failure to send the acceptance of the MIDI invitation),
    the iteration ends in the state [Reset] returns: the state machine is in
    [ControlInvitation] and the initiator token, initiator SSRC, local SSRC,
    last MIDI sequence number, offset estimate, last sync time, received
    sequence number, last feedback sequence number and last feedback time
    are zero.  The peer address, control port and data port are among the
    receive buffers: [Reset] leaves them as the receive step wrote them. *)
Theorem Reset_clears_session (t : TResetTrigger) (p : CAppleMIDIParticipant) (w : TWorld) :
  In (trigger_log t) (snd (Dispatch p w)) ->
  exists p0 : CAppleMIDIParticipant,
    fst (fst (Dispatch p w)) = Reset p0
    /\ session_cleared (Reset p0)
    /\ receive_kept p (Reset p0).
Proof.
  unfold Dispatch. destruct (m_State p).
  - intros H. exfalso. eapply ControlInvitationState_quiet; eauto.
  - intros H. exists p. split; [eapply MIDIInvitationState_reset; eauto|].
    apply Reset_clears.
  - intros H. apply ConnectedState_reset in H. destruct H as (p0 & E & K).
    exists p0. split; [exact E|]. split; [apply Reset_clears|].
    eapply receive_kept_trans; [exact K|apply Reset_clears].
Qed.

Lemma Reset_clears_session_witness :
  exists p0 : CAppleMIDIParticipant,
    fst (fst (Dispatch SessionEnding World0)) = Reset p0
    /\ session_cleared (Reset p0)
    /\ receive_kept SessionEnding (Reset p0).
Proof.
  apply (Reset_clears_session PeerEndSession SessionEnding World0).
  vm_compute. left. reflexivity.
Defined.

(** The spec has the peer address and both peer ports zero
    after [Reset]; they keep the values of the last receive. *)
Lemma peer_address_counterexample :
  In (trigger_log PeerEndSession) (snd (Dispatch SessionEnding World0))
  /\ m_State (fst (fst (Dispatch SessionEnding World0))) = ControlInvitation
  /\ m_InitiatorIPAddress (fst (fst (Dispatch SessionEnding World0))) = 0xC000020A
  /\ m_nInitiatorControlPort (fst (fst (Dispatch SessionEnding World0))) = 5004
  /\ m_nInitiatorMIDIPort (fst (fst (Dispatch SessionEnding World0))) = 5005.
Proof.
  split; [vm_compute; left; reflexivity|].
  repeat split; vm_compute; reflexivity.
Qed.

(** ** The sync engine *)

(** A frame the sync decoder accepts starts with FFFF, which read as RTP
    flags has version 3: the RTP-MIDI decoder, tried first, rejects it. *)
Lemma Sync_not_MIDI (pBuffer : list byte) (nSize : Z) (sp : TAppleMIDISync) :
  ParseSyncPacket pBuffer nSize = Some sp -> ParseMIDIPacket pBuffer nSize = None.
Proof.
  unfold ParseSyncPacket, ParseMIDIPacket.
  destruct (negb (nSize =? _)); [discriminate|].
  destruct (Z.eqb_spec (ntohs (load 2 pBuffer 0)) AppleMIDISignature) as [E|];
    [|discriminate].
  intros _. rewrite E. reflexivity.
Qed.

Lemma ConnectedState_alive (p : CAppleMIDIParticipant) (w : TWorld) :
  m_State p = Connected ->
  m_State (fst (fst (ConnectedState p w))) = Connected ->
  exists p1 w1 ev1 nTicks w2 p3 w3 ev3,
    ConnectedState_MIDI p w = (p1, w1, ev1)
    /\ GetSyncClock w1 = (nTicks, w2, [])
    /\ ConnectedState_Feedback nTicks p1 w2 = (p3, w3, ev3)
    /\ ConnectedState p w = (p3, w3, ev1 ++ ev3).
Proof.
  intros Hs. rewrite ConnectedState_blocks.
  destruct (ConnectedState_Control_cases p w) as [E|E]; rewrite E.
  - cbn. discriminate.
  - destruct (ConnectedState_MIDI p w) as [[p1 w1] ev1] eqn:E1.
    pose proof (events_GetSyncClock w1) as E2.
    destruct (GetSyncClock w1) as [[nTicks w2] ev2] eqn:EG. cbn [snd] in E2. subst ev2.
    destruct (ConnectedState_Feedback nTicks p1 w2) as [[p3 w3] ev3] eqn:E3.
    destruct (ConnectedState_Timeout_cases nTicks p3 w3) as [E4|E4]; rewrite E4.
    + cbn. discriminate.
    + intros _. exists p1, w1, ev1, nTicks, w2, p3, w3, ev3.
      cbn [app]. rewrite app_nil_r. repeat split; assumption.
Qed.

Lemma ConnectedState_Feedback_fields (nTicks : Z) (p : CAppleMIDIParticipant) (w : TWorld) :
  let p' := fst (fst (ConnectedState_Feedback nTicks p w)) in
  m_nOffsetEstimate p' = m_nOffsetEstimate p
  /\ m_nLastSyncTime p' = m_nLastSyncTime p
  /\ m_nSequence p' = m_nSequence p
  /\ m_nSSRC p' = m_nSSRC p.
Proof.
  unfold ConnectedState_Feedback. unfold_sends. unfold_M.
  paths; fields; repeat split.
Qed.

(** C3.  In the connected state, when the datagram read from the data port
    decodes as a CK frame with count 2 whose SSRC is the initiator's, the
    data-port block of the iteration stores
    ((timestamp3 + timestamp1) / 2) - timestamp2, computed in unsigned
    64-bit arithmetic, as the offset estimate; the estimate is in place at
    the end of every iteration that leaves the session connected. *)
Theorem offset_estimate_on_count_2 (p : CAppleMIDIParticipant) (w : TWorld)
    (sp : TAppleMIDISync) (t1 t2 t3 : Z) :
  m_State p = Connected ->
  m_nMIDIResult p > 0 ->
  ParseSyncPacket (m_MIDIBuffer p) (m_nMIDIResult p) = Some sp ->
  sync_nCount sp = 2 ->
  sync_nSSRC sp = m_nInitiatorSSRC p ->
  sync_nTimestamps sp = (t1, t2, t3) ->
  m_nOffsetEstimate (fst (fst (ConnectedState_MIDI p w)))
    = wrap 64 (wrap 64 (t3 + t1) / 2 - t2)
  /\ (m_State (fst (fst (Dispatch p w))) = Connected ->
      m_nOffsetEstimate (fst (fst (Dispatch p w)))
        = wrap 64 (wrap 64 (t3 + t1) / 2 - t2)).
Proof.
  intros Hs Hn Hp Hc Hssrc Ht.
  assert (Hblock : m_nOffsetEstimate (fst (fst (ConnectedState_MIDI p w)))
                   = wrap 64 (wrap 64 (t3 + t1) / 2 - t2)).
  { unfold ConnectedState_MIDI.
    rewrite (Sync_not_MIDI _ _ _ Hp), Hp, Ht, Hc, Hssrc, Z.eqb_refl.
    replace (m_nMIDIResult p >? 0) with true by (symmetry; apply Z.gtb_lt; lia).
    change (2 =? 0) with false. change (2 =? 2) with true. cbn [andb orb].
    unfold_sends. unfold_M. paths; fields; reflexivity. }
  split; [exact Hblock|].
  unfold Dispatch. rewrite Hs. intros Halive.
  destruct (ConnectedState_alive p w Hs Halive)
    as (p1 & w1 & ev1 & nTicks & w2 & p3 & w3 & ev3 & E1 & E2 & E3 & E).
  rewrite E. cbn [fst].
  pose proof (ConnectedState_Feedback_fields nTicks p1 w2) as (F & _).
  rewrite E3 in F. cbn [fst] in F. rewrite F.
  rewrite E1 in Hblock. exact Hblock.
Qed.

Lemma offset_estimate_on_count_2_witness :
  m_nOffsetEstimate (fst (fst (ConnectedState_MIDI (ConnectedWith SyncFrame2) World0))) = 1095
  /\ (m_State (fst (fst (Dispatch (ConnectedWith SyncFrame2) World0))) = Connected ->
      m_nOffsetEstimate (fst (fst (Dispatch (ConnectedWith SyncFrame2) World0))) = 1095).
Proof.
  apply (offset_estimate_on_count_2 (ConnectedWith SyncFrame2) World0
           (mkSync 0xFFFF Sync 0xCAFEBABE 2 (1000, 5, 1200)) 1000 5 1200);
    vm_compute; reflexivity.
Defined.

Lemma SendPacket_events (p : CAppleMIDIParticipant) (pSocket : TSocket) (nPort : Z)
    (pData : list byte) (nSize : Z) (w : TWorld) :
  let Sent := EvSendTo pSocket (m_InitiatorIPAddress p) nPort (firstn (Z.to_nat nSize) pData) in
  snd (SendPacket p pSocket nPort pData nSize w) = [Sent]
  \/ snd (SendPacket p pSocket nPort pData nSize w)
     = [Sent; EvLog LogError "Send failure, error code: %d"]
  \/ snd (SendPacket p pSocket nPort pData nSize w)
     = [Sent; EvLog LogError "Send failure, only %d/%d bytes sent"].
Proof.
  unfold SendPacket. unfold_M. paths; cbn [snd app]; auto.
Qed.

(** The data-port block on a CK frame of the initiator with count 0. *)
Lemma ConnectedState_MIDI_count_0 (p : CAppleMIDIParticipant) (w : TWorld)
    (sp : TAppleMIDISync) :
  m_nMIDIResult p > 0 ->
  ParseSyncPacket (m_MIDIBuffer p) (m_nMIDIResult p) = Some sp ->
  sync_nSSRC sp = m_nInitiatorSSRC p ->
  sync_nCount sp = 0 ->
  ConnectedState_MIDI p w =
    let '(nClock1, w1, _) := GetSyncClock w in
    let '(_, w2, ev2) :=
      SendSyncPacket p (fst (fst (sync_nTimestamps sp))) nClock1 w1 in
    let '(nClock, w3, _) := GetSyncClock w2 in
    (set_nLastSyncTime nClock p, w3, ev2).
Proof.
  intros Hn Hp Hssrc Hc.
  assert (Hgt : (m_nMIDIResult p >? 0) = true) by (apply Z.gtb_lt; lia).
  unfold ConnectedState_MIDI.
  rewrite Hgt, (Sync_not_MIDI _ _ _ Hp), Hp, Hssrc, Z.eqb_refl, Hc.
  destruct (sync_nTimestamps sp) as [[t1 t2] t3].
  change (0 =? 0) with true. cbn [andb orb fst]. unfold bind, ret.
  pose proof (events_GetSyncClock w) as E1.
  destruct (GetSyncClock w) as [[c1 w1] ev1]. cbn [snd] in E1. subst ev1.
  destruct (SendSyncPacket p t1 c1 w1) as [[b w2] ev2].
  pose proof (events_GetSyncClock w2) as E3.
  destruct (GetSyncClock w2) as [[c w3] ev3]. cbn [snd] in E3. subst ev3.
  cbn [app]. rewrite !app_nil_r. reflexivity.
Qed.

(** The data-port block on a CK frame of the initiator with count 2. *)
Lemma ConnectedState_MIDI_count_2 (p : CAppleMIDIParticipant) (w : TWorld)
    (sp : TAppleMIDISync) (t1 t2 t3 : Z) :
  m_nMIDIResult p > 0 ->
  ParseSyncPacket (m_MIDIBuffer p) (m_nMIDIResult p) = Some sp ->
  sync_nSSRC sp = m_nInitiatorSSRC p ->
  sync_nCount sp = 2 ->
  sync_nTimestamps sp = (t1, t2, t3) ->
  ConnectedState_MIDI p w =
    let '(nClock, w3, _) := GetSyncClock w in
    (set_nLastSyncTime nClock
       (set_nOffsetEstimate (wrap 64 (wrap 64 (t3 + t1) / 2 - t2)) p),
     w3, [EvLog LogNotice "Offset estimate: %llu"]).
Proof.
  intros Hn Hp Hssrc Hc Ht.
  assert (Hgt : (m_nMIDIResult p >? 0) = true) by (apply Z.gtb_lt; lia).
  unfold ConnectedState_MIDI.
  rewrite Hgt, (Sync_not_MIDI _ _ _ Hp), Hp, Hssrc, Z.eqb_refl, Hc, Ht.
  change (2 =? 0) with false. change (2 =? 2) with true.
  cbn [andb orb]. unfold bind, Write, ret.
  pose proof (events_GetSyncClock w) as E3.
  destruct (GetSyncClock w) as [[c w3] ev3]. cbn [snd] in E3. subst ev3.
  reflexivity.
Qed.

(** C4.  In the connected state, when the datagram read from the data port
    decodes as a CK frame: if the frame's SSRC is the initiator's and its
    count is 0 or 2, the data-port block ends with a reading of the clock
    and stores the value read as the last sync time, and it logs no error;
    with any other count or SSRC the block changes nothing, reads no clock
    and sends nothing: it only logs the frame as unexpected.  At the end of
    an iteration that leaves the session connected the last sync time is the
    value stored in the first case, and the last sync time and the offset
    estimate are those of the start in the second. *)
Theorem sync_frame_gate (p : CAppleMIDIParticipant) (w : TWorld) (sp : TAppleMIDISync) :
  m_State p = Connected ->
  m_nMIDIResult p > 0 ->
  ParseSyncPacket (m_MIDIBuffer p) (m_nMIDIResult p) = Some sp ->
  (sync_nSSRC sp = m_nInitiatorSSRC p /\ (sync_nCount sp = 0 \/ sync_nCount sp = 2) ->
     (exists wm : TWorld,
        GetSyncClock wm
        = (m_nLastSyncTime (fst (fst (ConnectedState_MIDI p w))),
           snd (fst (ConnectedState_MIDI p w)), []))
     /\ ~ In (EvLog LogError "Unexpected sync packet") (snd (ConnectedState_MIDI p w))
     /\ (m_State (fst (fst (Dispatch p w))) = Connected ->
         m_nLastSyncTime (fst (fst (Dispatch p w)))
         = m_nLastSyncTime (fst (fst (ConnectedState_MIDI p w)))))
  /\ (~ (sync_nSSRC sp = m_nInitiatorSSRC p /\ (sync_nCount sp = 0 \/ sync_nCount sp = 2)) ->
      ConnectedState_MIDI p w = (p, w, [EvLog LogError "Unexpected sync packet"])
      /\ (m_State (fst (fst (Dispatch p w))) = Connected ->
          m_nLastSyncTime (fst (fst (Dispatch p w))) = m_nLastSyncTime p
          /\ m_nOffsetEstimate (fst (fst (Dispatch p w))) = m_nOffsetEstimate p)).
Proof.
  intros Hs Hn Hp.
  assert (Htick : m_State (fst (fst (Dispatch p w))) = Connected ->
                  m_nLastSyncTime (fst (fst (Dispatch p w)))
                  = m_nLastSyncTime (fst (fst (ConnectedState_MIDI p w)))
                  /\ m_nOffsetEstimate (fst (fst (Dispatch p w)))
                     = m_nOffsetEstimate (fst (fst (ConnectedState_MIDI p w)))).
  { unfold Dispatch. rewrite Hs. intros Halive.
    destruct (ConnectedState_alive p w Hs Halive)
      as (p1 & w1 & ev1 & nTicks & w2 & p3 & w3 & ev3 & E1 & E2 & E3 & E).
    rewrite E, E1. cbn [fst].
    pose proof (ConnectedState_Feedback_fields nTicks p1 w2) as (F1 & F2 & _).
    rewrite E3 in F1, F2. cbn [fst] in F1, F2. split; assumption. }
  split.
  - intros [Hssrc Hcount].
    split; [|split; [|apply Htick]].
    + destruct Hcount as [Hc|Hc].
      * rewrite (ConnectedState_MIDI_count_0 p w sp Hn Hp Hssrc Hc).
        destruct (GetSyncClock w) as [[c1 w1] ev1].
        destruct (SendSyncPacket p _ c1 w1) as [[b w2] ev2].
        pose proof (events_GetSyncClock w2) as E3.
        destruct (GetSyncClock w2) as [[c w3] ev3] eqn:EG. cbn [snd] in E3. subst ev3.
        exists w2. fields. exact EG.
      * destruct (sync_nTimestamps sp) as [[t1 t2] t3] eqn:Ht.
        rewrite (ConnectedState_MIDI_count_2 p w sp t1 t2 t3 Hn Hp Hssrc Hc Ht).
        pose proof (events_GetSyncClock w) as E3.
        destruct (GetSyncClock w) as [[c w3] ev3] eqn:EG. cbn [snd] in E3. subst ev3.
        exists w. fields. exact EG.
    + destruct Hcount as [Hc|Hc].
      * rewrite (ConnectedState_MIDI_count_0 p w sp Hn Hp Hssrc Hc).
        destruct (GetSyncClock w) as [[c1 w1] ev1].
        unfold SendSyncPacket.
        pose proof (SendPacket_events p ControlSocket (m_nInitiatorMIDIPort p)
                      (memory_TAppleMIDISync
                         (SyncPacket p (fst (fst (sync_nTimestamps sp))) c1))
                      sizeof_TAppleMIDISync w1) as E2.
        destruct (SendPacket _ _ _ _ _ w1) as [[b w2] ev2]. cbn [snd] in E2.
        destruct (GetSyncClock w2) as [[c w3] ev3].
        cbn [snd].
        destruct E2 as [ -> | [ -> | -> ] ]; cbn [In]; intuition discriminate.
      * destruct (sync_nTimestamps sp) as [[t1 t2] t3] eqn:Ht.
        rewrite (ConnectedState_MIDI_count_2 p w sp t1 t2 t3 Hn Hp Hssrc Hc Ht).
        destruct (GetSyncClock w) as [[c w3] ev3].
        cbn [snd In]. intuition discriminate.
  - intros Hrej.
    assert (Hgt : (m_nMIDIResult p >? 0) = true) by (apply Z.gtb_lt; lia).
    assert (Hblock : ConnectedState_MIDI p w
                     = (p, w, [EvLog LogError "Unexpected sync packet"])).
    { unfold ConnectedState_MIDI.
      rewrite Hgt, (Sync_not_MIDI _ _ _ Hp), Hp.
      destruct (sync_nTimestamps sp) as [[t1 t2] t3].
      destruct (Z.eqb_spec (sync_nSSRC sp) (m_nInitiatorSSRC p)) as [Es|Ns];
        [|reflexivity].
      destruct (Z.eqb_spec (sync_nCount sp) 0) as [E0|N0]; [exfalso; tauto|].
      destruct (Z.eqb_spec (sync_nCount sp) 2) as [E2|N2]; [exfalso; tauto|].
      reflexivity. }
    split; [exact Hblock|].
    intros Halive. rewrite Hblock in Htick. apply Htick. exact Halive.
Qed.

Lemma sync_frame_gate_witness :
  (exists wm : TWorld,
     GetSyncClock wm
     = (m_nLastSyncTime (fst (fst (ConnectedState_MIDI (ConnectedWith SyncFrame0) World0))),
        snd (fst (ConnectedState_MIDI (ConnectedWith SyncFrame0) World0)), []))
  /\ ~ In (EvLog LogError "Unexpected sync packet")
         (snd (ConnectedState_MIDI (ConnectedWith SyncFrame0) World0))
  /\ (m_State (fst (fst (Dispatch (ConnectedWith SyncFrame0) World0))) = Connected ->
      m_nLastSyncTime (fst (fst (Dispatch (ConnectedWith SyncFrame0) World0)))
      = m_nLastSyncTime (fst (fst (ConnectedState_MIDI (ConnectedWith SyncFrame0) World0)))).
Proof.
  apply (sync_frame_gate (ConnectedWith SyncFrame0) World0
           (mkSync 0xFFFF Sync 0xCAFEBABE 0 (1000, 0, 0))).
  - vm_compute. reflexivity.
  - vm_compute. reflexivity.
  - vm_compute. reflexivity.
  - split; [vm_compute; reflexivity | left; vm_compute; reflexivity].
Defined.

(** ** Receiver feedback *)

Lemma wire_u32_halves (pBuffer : list byte) (off : Z) :
  wire_u32 pBuffer off = 65536 * wire_u16 pBuffer off + wire_u16 pBuffer (off + 2).
Proof.
  unfold wire_u32, wire_u16.
  replace (off + 2 + 1) with (off + 3) by lia. lia.
Qed.

Lemma wire_u16_range (pBuffer : list byte) (off : Z) :
  0 <= wire_u16 pBuffer off < 65536.
Proof.
  unfold wire_u16.
  pose proof (u8_range (byte_at pBuffer off)).
  pose proof (u8_range (byte_at pBuffer (off + 1))). lia.
Qed.

(** The RS frame on the wire. *)
Lemma FeedbackPacket_wire (p : CAppleMIDIParticipant) :
  0 <= m_nSSRC p < 2 ^ 32 ->
  0 <= m_nSequence p < 2 ^ 16 ->
  let Data := firstn (Z.to_nat sizeof_TAppleMIDIReceiverFeedback)
                (memory_TAppleMIDIReceiverFeedback (FeedbackPacket p)) in
  List.length Data = 12%nat
  /\ wire_u16 Data 0 = AppleMIDISignature
  /\ wire_u16 Data 2 = ReceiverFeedback
  /\ wire_u32 Data 4 = m_nSSRC p
  /\ wire_u16 Data 8 = m_nSequence p
  /\ wire_u16 Data 10 = 0.
Proof.
  intros Hs Hq Data.
  assert (E : Data = memory_TAppleMIDIReceiverFeedback (FeedbackPacket p) ++ [])
    by (rewrite app_nil_r; reflexivity).
  split; [reflexivity|].
  clearbody Data. subst Data.
  unfold memory_TAppleMIDIReceiverFeedback, FeedbackPacket.
  cbn [fb_nSignature fb_nCommand fb_nSSRC fb_nSequence].
  set (c0 := le_encode 2 (htons AppleMIDISignature)).
  set (c1 := le_encode 2 (htons ReceiverFeedback)).
  set (c2 := le_encode 4 (htonl (m_nSSRC p))).
  set (c3 := le_encode 4 (htonl (wrap 32 (Z.shiftl (m_nSequence p) 16)))).
  set (buf := List.concat _ ++ []).
  assert (L0 : load 2 buf 0 = le_decode c0)
    by (apply (load_chunk [] c0 [c1; c2; c3]); reflexivity).
  assert (L1 : load 2 buf 2 = le_decode c1)
    by (apply (load_chunk [c0] c1 [c2; c3]); reflexivity).
  assert (L2 : load 4 buf 4 = le_decode c2)
    by (apply (load_chunk [c0; c1] c2 [c3]); reflexivity).
  assert (L3 : load 4 buf 8 = le_decode c3)
    by (apply (load_chunk [c0; c1; c2] c3 []); reflexivity).
  assert (Hseq : wrap 32 (Z.shiftl (m_nSequence p) 16) = 65536 * m_nSequence p).
  { unfold wrap. rewrite Z.shiftl_mul_pow2 by lia.
    change (2 ^ 16) with 65536 in *. change (2 ^ 32) with 4294967296.
    rewrite Z.mod_small; lia. }
  assert (W3 : wire_u32 buf 8 = 65536 * m_nSequence p).
  { rewrite <- ntohl_load, L3. subst c3. rewrite Hseq.
    unfold ntohl, htonl. apply ntoh_hton.
    change (2 ^ 16) with 65536 in Hq. change (256 ^ Z.of_nat 4) with 4294967296. lia. }
  rewrite wire_u32_halves in W3. change (8 + 2) with 10 in W3.
  pose proof (wire_u16_range buf 8). pose proof (wire_u16_range buf 10).
  change (2 ^ 16) with 65536 in Hq.
  rewrite <- !ntohs_load, <- ntohl_load, L0, L1, L2.
  subst c0 c1 c2.
  repeat split; try reflexivity; try lia.
  - unfold ntohl, htonl. apply ntoh_hton. exact Hs.
  - rewrite !ntohs_load in *. lia.
  - rewrite !ntohs_load in *. lia.
Qed.

Lemma ConnectedState_Feedback_cases (nTicks : Z) (p : CAppleMIDIParticipant) (w : TWorld) :
  (wrap 64 (nTicks - m_nLastFeedbackTime p) <= ReceiverFeedbackPeriod
   /\ ConnectedState_Feedback nTicks p w = (p, w, []))
  \/ (wrap 64 (nTicks - m_nLastFeedbackTime p) > ReceiverFeedbackPeriod
      /\ m_nSequence p = m_nLastFeedbackSequence p
      /\ ConnectedState_Feedback nTicks p w = (set_nLastFeedbackTime nTicks p, w, []))
  \/ (wrap 64 (nTicks - m_nLastFeedbackTime p) > ReceiverFeedbackPeriod
      /\ m_nSequence p <> m_nLastFeedbackSequence p
      /\ ConnectedState_Feedback nTicks p w
         = (set_nLastFeedbackTime nTicks (set_nLastFeedbackSequence (m_nSequence p) p),
            snd (fst (SendFeedbackPacket p w)),
            snd (SendFeedbackPacket p w))).
Proof.
  unfold ConnectedState_Feedback.
  destruct (Z.gtb_spec (wrap 64 (nTicks - m_nLastFeedbackTime p)) ReceiverFeedbackPeriod)
    as [Hgt|Hle].
  - right.
    destruct (Z.eqb_spec (m_nSequence p) (m_nLastFeedbackSequence p)) as [Heq|Hne];
      cbn [negb]; [left|right]; (split; [lia|]); (split; [assumption|]).
    + reflexivity.
    + unfold bind, ret.
      destruct (SendFeedbackPacket p w) as [[b w2] ev2].
      cbn [fst snd app]. rewrite !app_nil_r. reflexivity.
  - left. split; [lia|reflexivity].
Qed.

Lemma sent_data_app (ev1 ev2 : list TEvent) :
  sent_data (ev1 ++ ev2) = sent_data ev1 ++ sent_data ev2.
Proof.
  induction ev1 as [|e ev1 IH]; [reflexivity|].
  destruct e; cbn [app sent_data]; rewrite IH; reflexivity.
Qed.

Lemma rs_frames_app (ev1 ev2 : list TEvent) :
  rs_frames (ev1 ++ ev2) = rs_frames ev1 ++ rs_frames ev2.
Proof.
  unfold rs_frames. rewrite sent_data_app. apply filter_app.
Qed.

Lemma rs_frames_SendSyncPacket (p : CAppleMIDIParticipant) (t1 t2 : Z) (w : TWorld) :
  rs_frames (snd (SendSyncPacket p t1 t2 w)) = [].
Proof.
  unfold rs_frames, SendSyncPacket. rewrite sent_data_SendPacket.
  assert (E : firstn (Z.to_nat sizeof_TAppleMIDISync)
                (memory_TAppleMIDISync (SyncPacket p t1 t2))
              = memory_TAppleMIDISync (SyncPacket p t1 t2) ++ [])
    by (rewrite app_nil_r; reflexivity).
  rewrite E. clear E.
  unfold memory_TAppleMIDISync, SyncPacket.
  cbn [sync_nSignature sync_nCommand sync_nSSRC sync_nCount sync_nTimestamps].
  set (c0 := le_encode 2 (htons AppleMIDISignature)).
  set (c1 := le_encode 2 (htons Sync)).
  set (rest := [le_encode 4 _; _; _; _; _; _]).
  set (buf := List.concat _ ++ []).
  assert (L1 : load 2 buf 2 = le_decode c1)
    by (apply (load_chunk [c0] c1 rest); reflexivity).
  cbn [filter]. unfold is_RS. rewrite <- ntohs_load, L1. reflexivity.
Qed.

(** The data-port block sends CK frames only. *)
Lemma rs_frames_MIDI (p : CAppleMIDIParticipant) (w : TWorld) :
  rs_frames (snd (ConnectedState_MIDI p w)) = [].
Proof.
  destruct (ConnectedState_MIDI_cases p w)
    as [E | [(pkt & off & size & _ & [E|E]) | [E | [(t1 & c1 & w1 & c & E) | (x & c & E)]]]];
    rewrite E; cbn [snd]; try reflexivity.
  apply rs_frames_SendSyncPacket.
Qed.

(** ** The handshake along an execution *)

Lemma Run_snoc (l : list TTick) (t : TTick) (p : CAppleMIDIParticipant) (w : TWorld) :
  fst (Run (l ++ [t]) p w) =
    if returned_after l p w
    then (true, participant_after l p w, world_after l p w)
    else fst (Run_iteration t (participant_after l p w) (world_after l p w)).
Proof.
  unfold returned_after, participant_after, world_after.
  revert p w. induction l as [|t0 l IH]; intros p w.
  - cbn [app Run]. unfold bind, ret. cbn [fst snd].
    destruct (Run_iteration t p w) as [[[b2 p2] w2] ev2].
    destruct b2; reflexivity.
  - cbn [app Run]. unfold bind.
    destruct (Run_iteration t0 p w) as [[[b0 p0] w0] ev0].
    destruct b0.
    + reflexivity.
    + specialize (IH p0 w0).
      destruct (Run (l ++ [t]) p0 w0) as [[[b1 p1] w1] ev1].
      destruct (Run l p0 w0) as [[[b2 p2] w2] ev2].
      cbn [fst snd] in *. exact IH.
Qed.

Lemma m_State_received (tick : TTick) (p : CAppleMIDIParticipant) :
  m_State (received tick p) = m_State p
  /\ m_State (ReceiveControl (ControlReceive tick) p) = m_State p.
Proof.
  unfold received, ReceiveMIDI, ReceiveControl.
  destruct (ReceiveFrom _ _ _ _) as [[[n1 b1] i1] q1].
  cbn [m_MIDIBuffer m_InitiatorIPAddress m_nInitiatorMIDIPort].
  destruct (ReceiveFrom _ _ _ _) as [[[n2 b2] i2] q2].
  split; reflexivity.
Qed.

(** An iteration either makes [Run] return with the state untouched, or
    dispatches on what the receives left. *)
Lemma Run_iteration_cases (tick : TTick) (p : CAppleMIDIParticipant) (w : TWorld) :
  (fst (fst (fst (Run_iteration tick p w))) = true
   /\ m_State (snd (fst (fst (Run_iteration tick p w)))) = m_State p)
  \/ fst (Run_iteration tick p w)
     = (false, fst (fst (Dispatch (received tick p) w)), snd (fst (Dispatch (received tick p) w))).
Proof.
  pose proof (m_State_received tick p) as [H1 H2].
  unfold Run_iteration, received in *.
  destruct (m_nControlResult _ <? 0).
  - left. unfold bind, Write, ret. cbn [fst snd]. split; [reflexivity|exact H2].
  - destruct (m_nMIDIResult _ <? 0).
    + left. unfold bind, Write, ret. cbn [fst snd]. split; [reflexivity|exact H1].
    + right. unfold bind, ret.
      destruct (Dispatch _ w) as [[p' w'] ev']. reflexivity.
Qed.

(** Out of [ControlInvitation] the only way leads to [MIDIInvitation], and
    it is taken on a frame the invitation decoder accepts. *)
Lemma ControlInvitationState_next (p : CAppleMIDIParticipant) (w : TWorld) :
  m_State p = ControlInvitation ->
  m_State (fst (fst (ControlInvitationState p w))) = ControlInvitation
  \/ (m_State (fst (fst (ControlInvitationState p w))) = MIDIInvitation
      /\ exists pkt : TAppleMIDIInvitation,
           ParseInvitationPacket (m_ControlBuffer p) (m_nControlResult p) = Some pkt
           /\ m_nInitiatorToken (fst (fst (ControlInvitationState p w)))
              = inv_nInitiatorToken pkt
           /\ m_nInitiatorSSRC (fst (fst (ControlInvitationState p w))) = inv_nSSRC pkt).
Proof.
  intros Hs.
  assert (Hcases :
    fst (fst (ControlInvitationState p w)) = p
    \/ exists pkt p1,
         ParseInvitationPacket (m_ControlBuffer p) (m_nControlResult p) = Some pkt
         /\ m_State p1 = ControlInvitation
         /\ m_nInitiatorToken p1 = inv_nInitiatorToken pkt
         /\ m_nInitiatorSSRC p1 = inv_nSSRC pkt
         /\ (fst (fst (ControlInvitationState p w)) = p1
             \/ exists nClock,
                  fst (fst (ControlInvitationState p w))
                  = set_State MIDIInvitation (set_nLastSyncTime nClock p1))).
  { remember (ControlInvitationState p w) as r eqn:Er.
    unfold ControlInvitationState in Er.
    destruct (m_nControlResult p =? 0); [left; subst r; reflexivity|].
    destruct (ParseInvitationPacket _ _) as [pkt|]; [|left; subst r; reflexivity].
    right. exists pkt.
    unfold bind at 1 in Er. unfold GetNumber at 1 in Er. cbv beta iota zeta in Er.
    set (w1 := mkWorld _ _ _ _ _ _ _) in Er.
    set (p1 := set_nSSRC _ _) in Er.
    exists p1. split; [reflexivity|].
    split; [subst p1; fields; exact Hs|].
    split; [reflexivity|]. split; [reflexivity|].
    clearbody p1 w1. unfold bind, Write, ret in Er.
    destruct (SendAcceptInvitationPacket _ _ _ _) as [[b w2] ev2].
    destruct b; cbn [negb] in Er.
    - right. destruct (GetSyncClock w2) as [[c w3] ev3]. exists c.
      subst r. reflexivity.
    - left. subst r. reflexivity. }
  destruct Hcases as [E | (pkt & p1 & Hp & H1 & H2 & H3 & [E | (c & E)])]; rewrite E.
  - left. exact Hs.
  - left. exact H1.
  - right. split; [reflexivity|]. exists pkt. repeat split; assumption.
Qed.

Lemma participant_after_snoc (l : list TTick) (t : TTick)
    (p0 : CAppleMIDIParticipant) (w : TWorld) :
  participant_after (l ++ [t]) p0 w =
    if returned_after l p0 w then participant_after l p0 w
    else snd (fst (fst (Run_iteration t (participant_after l p0 w) (world_after l p0 w)))).
Proof.
  unfold participant_after at 1. rewrite Run_snoc.
  destruct (returned_after l p0 w); reflexivity.
Qed.

Lemma session_invariant (ticks : list TTick) (p0 : CAppleMIDIParticipant) (w : TWorld) :
  m_State p0 = ControlInvitation ->
  m_State (participant_after ticks p0 w) <> ControlInvitation ->
  session_open ticks p0 w.
Proof.
  intros H0. induction ticks as [|t l IH] using rev_ind; intros H.
  - exfalso. apply H. exact H0.
  - destruct (m_State (participant_after l p0 w)) eqn:Hl.
    + (* the iteration starts in ControlInvitation *)
      rewrite participant_after_snoc in H.
      destruct (returned_after l p0 w) eqn:Hr; [exfalso; apply H; exact Hl|].
      destruct (Run_iteration_cases t (participant_after l p0 w) (world_after l p0 w))
        as [[_ Hsame] | Hd].
      { exfalso. apply H. rewrite Hsame. exact Hl. }
      rewrite Hd in H. cbn [fst snd] in H.
      assert (Hrecv : m_State (received t (participant_after l p0 w)) = ControlInvitation)
        by (rewrite (proj1 (m_State_received t _)); exact Hl).
      unfold Dispatch in H, Hd. rewrite Hrecv in H, Hd.
      destruct (ControlInvitationState_next _ (world_after l p0 w) Hrecv)
        as [Hci | (Hmi & pkt & Hp & Htok & Hssrc)]; [contradiction|].
      assert (Hpa : participant_after (l ++ [t]) p0 w
                    = fst (fst (ControlInvitationState
                                  (received t (participant_after l p0 w))
                                  (world_after l p0 w)))).
      { rewrite participant_after_snoc, Hr, Hd. reflexivity. }
      exists l, t, []. split; [reflexivity|]. split.
      * unfold control_invitation_accepted_at. rewrite Hpa.
        split; [exact Hr|]. split; [exact Hl|]. split; [exact Hmi|].
        exists pkt. repeat split; assumption.
      * intros k. rewrite firstn_nil, Hpa, Hmi. discriminate.
    + (* the session is open already *)
      destruct IH as (before & tick & after & -> & Hacc & Hopen); [discriminate|].
      exists before, tick, (after ++ [t]). split.
      * rewrite <- app_assoc. reflexivity.
      * split; [exact Hacc|]. intros k.
        rewrite firstn_app.
        destruct (Nat.le_gt_cases k (List.length after)) as [Hk|Hk].
        -- replace (k - List.length after)%nat with 0%nat by lia.
           cbn [firstn]. rewrite app_nil_r. apply Hopen.
        -- rewrite firstn_all2 by lia.
           destruct (k - List.length after)%nat as [|m] eqn:Hm; [lia|].
           cbn [firstn]. rewrite firstn_nil.
           replace (before ++ tick :: after ++ [t])
             with ((before ++ tick :: after) ++ [t])
             by (rewrite <- app_assoc; reflexivity).
           exact H.
    + destruct IH as (before & tick & after & -> & Hacc & Hopen); [discriminate|].
      exists before, tick, (after ++ [t]). split.
      * rewrite <- app_assoc. reflexivity.
      * split; [exact Hacc|]. intros k.
        rewrite firstn_app.
        destruct (Nat.le_gt_cases k (List.length after)) as [Hk|Hk].
        -- replace (k - List.length after)%nat with 0%nat by lia.
           cbn [firstn]. rewrite app_nil_r. apply Hopen.
        -- rewrite firstn_all2 by lia.
           destruct (k - List.length after)%nat as [|m] eqn:Hm; [lia|].
           cbn [firstn]. rewrite firstn_nil.
           replace (before ++ tick :: after ++ [t])
             with ((before ++ tick :: after) ++ [t])
             by (rewrite <- app_assoc; reflexivity).
           exact H.
Qed.

(** The acceptance is sent when [SendTo] reports the 24 bytes of the
    packet. *)
Lemma SendAcceptInvitationPacket_result (p : CAppleMIDIParticipant) (pSocket : TSocket)
    (nPort : Z) (w : TWorld) :
  fst (fst (SendAcceptInvitationPacket p pSocket nPort w))
  = (SendToResults w (nSendTo w) =? 24).
Proof.
  unfold SendAcceptInvitationPacket, SendPacket.
  change (sizeof_TAppleMIDIInvitation - sizeof_Name
          + strlen (inv_Name (AcceptPacket p)) + 1) with 24.
  unfold_M. cbv beta iota zeta.
  destruct (Z.ltb_spec (SendToResults w (nSendTo w)) 0);
    destruct (Z.eqb_spec (SendToResults w (nSendTo w)) 24); cbn [fst negb]; try reflexivity; lia.
Qed.

(** In [MIDIInvitation] an invitation on the data port is accepted on its
    form alone. *)
Lemma MIDIInvitationState_accepts (p : CAppleMIDIParticipant) (w : TWorld)
    (pkt : TAppleMIDIInvitation) :
  m_nMIDIResult p > 0 ->
  ParseInvitationPacket (m_MIDIBuffer p) (m_nMIDIResult p) = Some pkt ->
  SendToResults w (nSendTo w) = 24 ->
  exists (nClock : Z) (w' : TWorld),
    MIDIInvitationState p w
    = (set_State Connected (set_nLastSyncTime nClock p), w',
       [EvSendTo ControlSocket (m_InitiatorIPAddress p) (m_nInitiatorMIDIPort p)
          (firstn 24 (memory_TAppleMIDIInvitation (AcceptPacket p)));
        EvLog LogNotice "Connection to %s (%s) established"]).
Proof.
  intros Hn Hp Hsend.
  assert (Hgt : (m_nMIDIResult p >? 0) = true) by (apply Z.gtb_lt; lia).
  pose proof (SendAcceptInvitationPacket_result p MIDISocket (m_nInitiatorMIDIPort p) w) as Hr.
  rewrite Hsend in Hr. change (24 =? 24) with true in Hr.
  unfold MIDIInvitationState. rewrite Hgt, Hp. unfold bind at 1.
  assert (Hev : snd (SendAcceptInvitationPacket p MIDISocket (m_nInitiatorMIDIPort p) w)
                = [EvSendTo ControlSocket (m_InitiatorIPAddress p) (m_nInitiatorMIDIPort p)
                     (firstn 24 (memory_TAppleMIDIInvitation (AcceptPacket p)))]).
  { unfold SendAcceptInvitationPacket, SendPacket.
    change (sizeof_TAppleMIDIInvitation - sizeof_Name
            + strlen (inv_Name (AcceptPacket p)) + 1) with 24.
    unfold_M. cbv beta iota zeta. rewrite Hsend. reflexivity. }
  destruct (SendAcceptInvitationPacket _ _ _ w) as [[b w2] ev2].
  cbn [fst snd] in Hr, Hev. subst b ev2.
  unfold bind, Write, ret.
  pose proof (events_GetSyncClock w2) as E.
  destruct (GetSyncClock w2) as [[c w3] ev3]. cbn [snd] in E. subst ev3.
  exists c, w3. reflexivity.
Qed.

(** C6.  The code at an input on which it departs from the specification.
    The invitation of the peer at 192.0.2.10 (token DEADBEEF, SSRC CAFEBABE) is
    accepted on the control port.  In the next iteration an invitation of
    the host at 192.0.2.99, with another token and another SSRC, arrives on
    the data port: it is answered with OK, sent to 192.0.2.99 port 6001 with
    the token of the first peer, and the state machine enters [Connected];
    nothing of the datagram is compared with the session.  The SSRC of the
    session stays the first peer's, and the sync handler of [Connected]
    does compare it: the CK frame that the host at 192.0.2.99 sends next is
    refused as unexpected. *)
Theorem data_invitation_from_another_peer :
  m_State (participant_after [ControlInvitationTick] Construct World0) = MIDIInvitation
  /\ m_InitiatorIPAddress (participant_after [ControlInvitationTick] Construct World0)
     = 0xC000020A
  /\ m_nInitiatorToken (participant_after [ControlInvitationTick] Construct World0)
     = 0xDEADBEEF
  /\ m_nInitiatorSSRC (participant_after [ControlInvitationTick] Construct World0)
     = 0xCAFEBABE
  /\ ParseInvitationPacket ForeignInvitationFrame 20
     = Some (mkInvitation 0xFFFF 0x494E 2 0x0BADF00D 0x0B0B0B0B
               (strncpy (bytes_of [0x65; 0x76; 0x65]) 256))
  /\ m_State (participant_after [ControlInvitationTick; ForeignInvitationTick]
                Construct World0) = Connected
  /\ snd (Run [ControlInvitationTick; ForeignInvitationTick] Construct World0)
     = [EvSendTo ControlSocket 0xC000020A 5004 AcceptFrame;
        EvSendTo ControlSocket 0xC0000263 6001 AcceptFrame;
        EvLog LogNotice "Connection to %s (%s) established"]
  /\ m_nInitiatorSSRC (participant_after [ControlInvitationTick; ForeignInvitationTick]
                         Construct World0) = 0xCAFEBABE
  /\ snd (Run [ControlInvitationTick; ForeignInvitationTick; ForeignSyncTick]
              Construct World0)
     = [EvSendTo ControlSocket 0xC000020A 5004 AcceptFrame;
        EvSendTo ControlSocket 0xC0000263 6001 AcceptFrame;
        EvLog LogNotice "Connection to %s (%s) established";
        EvLog LogError "Unexpected sync packet"].
Proof.
  repeat split; vm_compute; reflexivity.
Qed.

(** ** Send failures *)

Lemma GetSyncClock_with_SendToResults (f : nat -> Z) (w : TWorld) :
  fst (GetSyncClock (with_SendToResults f w)) = lift_SendToResults f (fst (GetSyncClock w)).
Proof.
  destruct w as [ct nc st rn nr sr ns].
  unfold_M. unfold with_SendToResults, lift_SendToResults.
  destruct st; reflexivity.
Qed.

Lemma SendPacket_with_SendToResults (f : nat -> Z) (p : CAppleMIDIParticipant)
    (pSocket : TSocket) (nPort : Z) (pData : list byte) (nSize : Z) (w : TWorld) :
  snd (fst (SendPacket p pSocket nPort pData nSize (with_SendToResults f w)))
  = with_SendToResults f (snd (fst (SendPacket p pSocket nPort pData nSize w))).
Proof.
  destruct w as [ct nc st rn nr sr ns].
  unfold SendPacket. unfold_M. unfold with_SendToResults. cbv beta iota zeta.
  cbn [nStartTime ClockTicks nClockReads RandomNumbers nRandomReads nSendTo SendToResults].
  destruct (f ns <? 0); [|destruct (negb (f ns =? nSize))];
    (destruct (sr ns <? 0); [|destruct (negb (sr ns =? nSize))]);
    reflexivity.
Qed.

Lemma ConnectedState_MIDI_with_SendToResults (f : nat -> Z)
    (p : CAppleMIDIParticipant) (w : TWorld) :
  fst (ConnectedState_MIDI p (with_SendToResults f w))
  = lift_SendToResults f (fst (ConnectedState_MIDI p w)).
Proof.
  unfold ConnectedState_MIDI.
  destruct (m_nMIDIResult p >? 0); [|reflexivity].
  destruct (ParseMIDIPacket _ _) as [[[pkt off] size]|].
  { destruct (m_pReceiveHandler _); reflexivity. }
  destruct (ParseSyncPacket _ _) as [sp|]; [|reflexivity].
  destruct (sync_nTimestamps sp) as [[t1 t2] t3].
  destruct (sync_nSSRC sp =? m_nInitiatorSSRC p); [|reflexivity].
  destruct (sync_nCount sp =? 0).
  - cbn [andb orb]. unfold bind, ret.
    pose proof (GetSyncClock_with_SendToResults f w) as E1.
    destruct (GetSyncClock (with_SendToResults f w)) as [[c1' w1'] ev1'].
    destruct (GetSyncClock w) as [[c1 w1] ev1].
    unfold lift_SendToResults in E1. cbn [fst snd] in E1. injection E1 as -> ->.
    pose proof (SendPacket_with_SendToResults f p ControlSocket (m_nInitiatorMIDIPort p)
                  (memory_TAppleMIDISync (SyncPacket p t1 c1)) sizeof_TAppleMIDISync w1) as E2.
    unfold SendSyncPacket.
    destruct (SendPacket _ _ _ _ _ (with_SendToResults f w1)) as [[b' w2'] ev2'].
    destruct (SendPacket _ _ _ _ _ w1) as [[b w2] ev2].
    cbn [fst snd] in E2. subst w2'.
    pose proof (GetSyncClock_with_SendToResults f w2) as E3.
    destruct (GetSyncClock (with_SendToResults f w2)) as [[c' w3'] ev3'].
    destruct (GetSyncClock w2) as [[c w3] ev3].
    unfold lift_SendToResults in E3. cbn [fst snd] in E3. injection E3 as -> ->.
    reflexivity.
  - destruct (sync_nCount sp =? 2); [|reflexivity].
    cbn [andb orb]. unfold bind, Write, ret.
    pose proof (GetSyncClock_with_SendToResults f w) as E3.
    destruct (GetSyncClock (with_SendToResults f w)) as [[c' w3'] ev3'].
    destruct (GetSyncClock w) as [[c w3] ev3].
    unfold lift_SendToResults in E3. cbn [fst snd] in E3. injection E3 as -> ->.
    reflexivity.
Qed.

Lemma ConnectedState_Feedback_with_SendToResults (f : nat -> Z) (nTicks : Z)
    (p : CAppleMIDIParticipant) (w : TWorld) :
  fst (ConnectedState_Feedback nTicks p (with_SendToResults f w))
  = lift_SendToResults f (fst (ConnectedState_Feedback nTicks p w)).
Proof.
  unfold ConnectedState_Feedback.
  destruct (wrap 64 _ >? _); [|reflexivity].
  destruct (negb _); [|reflexivity].
  unfold bind, ret, SendFeedbackPacket.
  pose proof (SendPacket_with_SendToResults f p ControlSocket (m_nInitiatorMIDIPort p)
                (memory_TAppleMIDIReceiverFeedback (FeedbackPacket p))
                sizeof_TAppleMIDIReceiverFeedback w) as E2.
  destruct (SendPacket _ _ _ _ _ (with_SendToResults f w)) as [[b' w2'] ev2'].
  destruct (SendPacket _ _ _ _ _ w) as [[b w2] ev2].
  cbn [fst snd] in E2. subst w2'. reflexivity.
Qed.

(** In the connected state the outcome of an iteration does not depend on
    what [SendTo] returns. *)
Lemma ConnectedState_with_SendToResults (f : nat -> Z)
    (p : CAppleMIDIParticipant) (w : TWorld) :
  fst (ConnectedState p (with_SendToResults f w))
  = lift_SendToResults f (fst (ConnectedState p w)).
Proof.
  rewrite !ConnectedState_blocks.
  assert (E0 : ConnectedState_Control p (with_SendToResults f w)
               = (fst (fst (fst (ConnectedState_Control p w))),
                  snd (fst (fst (ConnectedState_Control p w))),
                  with_SendToResults f w,
                  snd (ConnectedState_Control p w))).
  { destruct (ConnectedState_Control_cases p w) as [E|E]; rewrite E;
      destruct (ConnectedState_Control_cases p (with_SendToResults f w)) as [E'|E'];
      rewrite E'; try reflexivity;
      exfalso; revert E E'; unfold ConnectedState_Control; unfold_M;
      destruct (m_nControlResult p >? 0); try discriminate;
      destruct (ParseEndSessionPacket _ _); try discriminate;
      destruct (_ =? _); discriminate. }
  rewrite E0. clear E0.
  destruct (ConnectedState_Control_cases p w) as [E|E]; rewrite E; cbn [fst snd].
  - reflexivity.
  - pose proof (ConnectedState_MIDI_with_SendToResults f p w) as E1.
    destruct (ConnectedState_MIDI p (with_SendToResults f w)) as [[p1' w1'] ev1'].
    destruct (ConnectedState_MIDI p w) as [[p1 w1] ev1].
    unfold lift_SendToResults in E1. cbn [fst snd] in E1. injection E1 as -> ->.
    pose proof (GetSyncClock_with_SendToResults f w1) as E2.
    destruct (GetSyncClock (with_SendToResults f w1)) as [[c' w2'] ev2'].
    destruct (GetSyncClock w1) as [[c w2] ev2].
    unfold lift_SendToResults in E2. cbn [fst snd] in E2. injection E2 as -> ->.
    pose proof (ConnectedState_Feedback_with_SendToResults f c p1 w2) as E3.
    destruct (ConnectedState_Feedback c p1 (with_SendToResults f w2)) as [[p3' w3'] ev3'].
    destruct (ConnectedState_Feedback c p1 w2) as [[p3 w3] ev3].
    unfold lift_SendToResults in E3. cbn [fst snd] in E3. injection E3 as -> ->.
    unfold ConnectedState_Timeout. unfold_M.
    destruct (wrap 64 _ >? _); reflexivity.
Qed.

Lemma ControlInvitationState_send_failure (p : CAppleMIDIParticipant) (w : TWorld)
    (pkt : TAppleMIDIInvitation) :
  m_nControlResult p <> 0 ->
  ParseInvitationPacket (m_ControlBuffer p) (m_nControlResult p) = Some pkt ->
  SendToResults w (nSendTo w) <> 24 ->
  fst (fst (ControlInvitationState p w))
  = set_nSSRC (wrap 32 (RandomNumbers w (nRandomReads w)))
      (set_nInitiatorSSRC (inv_nSSRC pkt)
         (set_nInitiatorToken (inv_nInitiatorToken pkt) p)).
Proof.
  intros Hn Hp Hsend.
  unfold ControlInvitationState.
  destruct (Z.eqb_spec (m_nControlResult p) 0); [contradiction|].
  rewrite Hp. unfold bind at 1. unfold GetNumber at 1. cbv beta iota zeta.
  set (w1 := mkWorld _ _ _ _ _ _ _).
  set (p1 := set_nSSRC _ _).
  unfold bind at 1.
  pose proof (SendAcceptInvitationPacket_result p1 ControlSocket
                (m_nInitiatorControlPort p1) w1) as Hr.
  change (SendToResults w1 (nSendTo w1)) with (SendToResults w (nSendTo w)) in Hr.
  destruct (Z.eqb_spec (SendToResults w (nSendTo w)) 24); [contradiction|].
  destruct (SendAcceptInvitationPacket _ _ _ w1) as [[b w2] ev2].
  cbn [fst] in Hr. subst b. cbn [negb]. unfold bind, Write, ret. reflexivity.
Qed.

Lemma MIDIInvitationState_send_failure (p : CAppleMIDIParticipant) (w : TWorld)
    (pkt : TAppleMIDIInvitation) :
  m_nMIDIResult p > 0 ->
  ParseInvitationPacket (m_MIDIBuffer p) (m_nMIDIResult p) = Some pkt ->
  SendToResults w (nSendTo w) <> 24 ->
  fst (fst (MIDIInvitationState p w)) = Reset p
  /\ In (trigger_log MIDIInvitationSendFailure) (snd (MIDIInvitationState p w)).
Proof.
  intros Hn Hp Hsend.
  assert (Hgt : (m_nMIDIResult p >? 0) = true) by (apply Z.gtb_lt; lia).
  unfold MIDIInvitationState. rewrite Hgt, Hp. unfold bind, Write, ret.
  pose proof (SendAcceptInvitationPacket_result p MIDISocket (m_nInitiatorMIDIPort p) w) as Hr.
  destruct (Z.eqb_spec (SendToResults w (nSendTo w)) 24); [contradiction|].
  destruct (SendAcceptInvitationPacket _ _ _ w) as [[b w2] ev2].
  cbn [fst] in Hr. subst b. cbn [fst snd]. split; [reflexivity|].
  apply in_or_app. right. left. reflexivity.
Qed.

(** C7 (as amended).  When the next send fails (a negative result or a
    short send):
    - in [ControlInvitation], on an invitation, the iteration ends with the
      token and SSRC of the invitation and the new local SSRC stored, as
      they were when the send was attempted; the state machine stays in
      [ControlInvitation], the last sync time is not set and [Reset] is not
      called;
    - in [MIDIInvitation], on an invitation, the failure makes the iteration
      call [Reset];
    - in [Connected], the result of a send is not looked at: the
      participant at the end of the iteration is the same whatever [SendTo]
      returns. *)
Theorem send_failure (p : CAppleMIDIParticipant) (w : TWorld) :
  SendToResults w (nSendTo w) <> 24 ->
  (m_State p = ControlInvitation ->
   forall pkt : TAppleMIDIInvitation,
     m_nControlResult p <> 0 ->
     ParseInvitationPacket (m_ControlBuffer p) (m_nControlResult p) = Some pkt ->
     fst (fst (Dispatch p w))
     = set_nSSRC (wrap 32 (RandomNumbers w (nRandomReads w)))
         (set_nInitiatorSSRC (inv_nSSRC pkt)
            (set_nInitiatorToken (inv_nInitiatorToken pkt) p))
     /\ m_State (fst (fst (Dispatch p w))) = ControlInvitation
     /\ m_nLastSyncTime (fst (fst (Dispatch p w))) = m_nLastSyncTime p
     /\ quiet (snd (Dispatch p w)))
  /\ (m_State p = MIDIInvitation ->
      forall pkt : TAppleMIDIInvitation,
        m_nMIDIResult p > 0 ->
        ParseInvitationPacket (m_MIDIBuffer p) (m_nMIDIResult p) = Some pkt ->
        fst (fst (Dispatch p w)) = Reset p
        /\ In (trigger_log MIDIInvitationSendFailure) (snd (Dispatch p w)))
  /\ (m_State p = Connected ->
      forall f : nat -> Z,
        fst (fst (Dispatch p (with_SendToResults f w))) = fst (fst (Dispatch p w))).
Proof.
  intros Hsend. split; [|split].
  - intros Hs pkt Hn Hp. unfold Dispatch. rewrite Hs.
    rewrite (ControlInvitationState_send_failure p w pkt Hn Hp Hsend).
    split; [reflexivity|]. split; [exact Hs|]. split; [reflexivity|].
    apply ControlInvitationState_quiet.
  - intros Hs pkt Hn Hp. unfold Dispatch. rewrite Hs.
    exact (MIDIInvitationState_send_failure p w pkt Hn Hp Hsend).
  - intros Hs f. unfold Dispatch. rewrite Hs.
    rewrite ConnectedState_with_SendToResults. reflexivity.
Qed.

Lemma send_failure_witness :
  fst (fst (Dispatch Invited WorldSendFails)) = Reset Invited
  /\ In (trigger_log MIDIInvitationSendFailure) (snd (Dispatch Invited WorldSendFails)).
Proof.
  refine (proj1 (proj2 (send_failure Invited WorldSendFails _)) _
            (mkInvitation 0xFFFF Invitation 2 0xDEADBEEF 0xCAFEBABE
               (strncpy (list_byte_of_string "host") 256)) _ _).
  - vm_compute. discriminate.
  - vm_compute. reflexivity.
  - vm_compute. reflexivity.
  - vm_compute. reflexivity.
Defined.

(** The spec has a failed send leave the session as it was,
    without a [Reset]; in [MIDIInvitation] the failure ends the session. *)
Lemma send_failure_counterexample :
  m_State Invited = MIDIInvitation
  /\ m_nInitiatorToken Invited = 0xDEADBEEF
  /\ sent_data (snd (Dispatch Invited WorldSendFails)) = [AcceptFrame]
  /\ In (EvLog LogError "Send failure, error code: %d") (snd (Dispatch Invited WorldSendFails))
  /\ In (trigger_log MIDIInvitationSendFailure) (snd (Dispatch Invited WorldSendFails))
  /\ m_State (fst (fst (Dispatch Invited WorldSendFails))) = ControlInvitation
  /\ m_nInitiatorToken (fst (fst (Dispatch Invited WorldSendFails))) = 0.
Proof.
  repeat split; vm_compute; try reflexivity; auto.
Qed.

(** ** The scenarios of the spec, run on the model *)

(** Scenario 1: the handshake.  Both acceptances leave through the control
    socket, the second one to the peer's data port. *)
Example scenario_handshake :
  Run [ControlInvitationTick; MIDIInvitationTick] Construct
      (WorldOf [0; 1000; 2000] [24; 24])
  = (false,
     mkParticipant 0xC000020A 5004 5005
       (InvitationFrame ++ repeat x00 1579) (InvitationFrame ++ repeat x00 1579)
       0 21 false Connected 0xDEADBEEF 0xCAFEBABE 0x12345678 0 0 20 0 0 0,
     mkWorld (fun k => nth k [0; 1000; 2000] 0) 3 (Some 0) (fun _ => 0x12345678) 1
             (fun k => nth k [24; 24] 0) 2,
     [EvSendTo ControlSocket 0xC000020A 5004 AcceptFrame;
      EvSendTo ControlSocket 0xC000020A 5005 AcceptFrame;
      EvLog LogNotice "Connection to %s (%s) established"]).
Proof. vm_compute. reflexivity. Qed.

(** Scenario 2: a sync round.  The reply to count 0 echoes timestamp 1 and
    carries the clock; count 2 sets the offset estimate. *)
Example scenario_sync_round :
  snd (Dispatch (ConnectedWith SyncFrame0) (WorldOf [0; 2000; 3000; 4000] [36]))
  = [EvSendTo ControlSocket 0xC000020A 5005 SyncReplyFrame]
  /\ m_nLastSyncTime
       (fst (fst (Dispatch (ConnectedWith SyncFrame0) (WorldOf [0; 2000; 3000; 4000] [36]))))
     = 30
  /\ m_nOffsetEstimate
       (fst (fst (Dispatch (ConnectedWith SyncFrame2) (WorldOf [0; 2000; 3000; 4000] []))))
     = 1095.
Proof. repeat split; vm_compute; reflexivity. Qed.

(** Scenario 3: after the handshake, silence for 60.1 s ends the session,
    and the next invitation on the control port is accepted. *)
Example scenario_liveness_timeout :
  let w := WorldOf [0; 1000; 2000; 60102000; 60103000] [24; 24; 24] in
  snd (Run [ControlInvitationTick; MIDIInvitationTick; mkTick NoData NoData] Construct w)
  = [EvSendTo ControlSocket 0xC000020A 5004 AcceptFrame;
     EvSendTo ControlSocket 0xC000020A 5005 AcceptFrame;
     EvLog LogNotice "Connection to %s (%s) established";
     EvLog LogError "Initiator timed out"]
  /\ session_cleared
       (participant_after [ControlInvitationTick; MIDIInvitationTick; mkTick NoData NoData]
          Construct w)
  /\ m_State
       (participant_after [ControlInvitationTick; MIDIInvitationTick; mkTick NoData NoData;
                           ControlInvitationTick] Construct w)
     = MIDIInvitation.
Proof. repeat split; vm_compute; reflexivity. Qed.

(** Scenario 4: a note on is delivered to the sink, and acknowledged once
    more than a second has passed. *)
Example scenario_delivery_and_feedback :
  let w := WorldOf [0; 1000; 1020000] [12] in
  let r1 := Dispatch (ConnectedWith NoteOnFrame) w in
  let r2 := Dispatch (received (mkTick NoData NoData) (fst (fst r1))) (snd (fst r1)) in
  snd r1 = [EvReceiveHandler (bytes_of [0x90; 0x3C; 0x7F])]
  /\ m_nSequence (fst (fst r1)) = 0x1234
  /\ snd r2 = [EvSendTo ControlSocket 0xC000020A 5005 FeedbackFrame]
  /\ m_nLastFeedbackSequence (fst (fst r2)) = 0x1234
  /\ m_nLastFeedbackTime (fst (fst r2)) = 10200.
Proof. repeat split; vm_compute; reflexivity. Qed.

(** Each of the four triggers of [Reset] fires on some input. *)
Example triggers_fire :
  In (trigger_log PeerEndSession) (snd (Dispatch SessionEnding World0))
  /\ In (trigger_log MIDIInvitationTimeout)
        (snd (Dispatch
                (received (mkTick NoData NoData)
                   (participant_after [ControlInvitationTick] Construct World0))
                (WorldOf [0; 60200000] [])))
  /\ In (trigger_log SyncSilenceTimeout)
        (snd (Dispatch ConnectedSession (WorldOf [0; 60100000] [])))
  /\ In (trigger_log MIDIInvitationSendFailure) (snd (Dispatch Invited WorldSendFails)).
Proof.
  repeat split; vm_compute; repeat (first [left; reflexivity | right]).
Qed.

(** * Further properties of the code *)

(** ** The decoders against the wire layout *)

Lemma ntohll_load (pBuffer : list byte) (off : Z) :
  ntohll (load 8 pBuffer off) = wire_u64 pBuffer off.
Proof.
  unfold ntohll. rewrite ntoh_load.
  unfold be_decode, bytes_at, wire_u64, wire_u32.
  cbn [seq map rev app le_decode Z.of_nat].
  replace (off + 0) with off by lia.
  change (Z.pos (Pos.of_succ_nat 0)) with 1.
  change (Z.pos (Pos.of_succ_nat 1)) with 2.
  change (Z.pos (Pos.of_succ_nat 2)) with 3.
  change (Z.pos (Pos.of_succ_nat 3)) with 4.
  change (Z.pos (Pos.of_succ_nat 4)) with 5.
  change (Z.pos (Pos.of_succ_nat 5)) with 6.
  change (Z.pos (Pos.of_succ_nat 6)) with 7.
  replace (off + 4 + 1) with (off + 5) by lia.
  replace (off + 4 + 2) with (off + 6) by lia.
  replace (off + 4 + 3) with (off + 7) by lia.
  change (2 ^ 32) with 4294967296.
  lia.
Qed.

Lemma wire_u32_range (pBuffer : list byte) (off : Z) :
  0 <= wire_u32 pBuffer off < 2 ^ 32.
Proof.
  rewrite wire_u32_halves.
  pose proof (wire_u16_range pBuffer off).
  pose proof (wire_u16_range pBuffer (off + 2)).
  change (2 ^ 32) with 4294967296. lia.
Qed.

Lemma wire_u64_range (pBuffer : list byte) (off : Z) :
  0 <= wire_u64 pBuffer off < 2 ^ 64.
Proof.
  unfold wire_u64.
  pose proof (wire_u32_range pBuffer off).
  pose proof (wire_u32_range pBuffer (off + 4)).
  change (2 ^ 32) with 4294967296 in *.
  change (2 ^ 64) with 18446744073709551616. lia.
Qed.

Lemma length_strncpy (src : list byte) (n : nat) : List.length (strncpy src n) = n.
Proof.
  revert src. induction n as [|n IH]; intros src; [destruct src; reflexivity|].
  destruct src as [|c r]; cbn [strncpy]; [apply repeat_length|].
  destruct (Byte.eqb c x00); [apply repeat_length|].
  cbn [List.length]. now rewrite IH.
Qed.

Lemma c_str_repeat_NUL (n : nat) : c_str (repeat x00 n) = [].
Proof.
  destruct n; reflexivity.
Qed.

Lemma c_str_strncpy (src : list byte) (n : nat) :
  c_str (strncpy src n) = firstn n (c_str src).
Proof.
  revert src. induction n as [|n IH]; intros src; [destruct src; reflexivity|].
  destruct src as [|c r]; cbn [strncpy]; [apply c_str_repeat_NUL|].
  cbn [c_str].
  destruct (Byte.eqb c x00) eqn:Ec; [apply c_str_repeat_NUL|].
  cbn [c_str firstn]. rewrite Ec, IH. reflexivity.
Qed.

(** The decoders in closed form, on the big-endian fields of the frame. *)
Lemma ParseInvitationPacket_closed (pBuffer : list byte) (nSize : Z) :
  ParseInvitationPacket pBuffer nSize =
    if (16 <=? nSize) && (wire_u16 pBuffer 0 =? 0xFFFF) && (wire_u16 pBuffer 2 =? 0x494E)
       && (wire_u32 pBuffer 4 =? 2)
    then Some (mkInvitation 0xFFFF 0x494E 2 (wire_u32 pBuffer 8) (wire_u32 pBuffer 12)
                 (strncpy (if nSize =? 16 then list_byte_of_string "<unknown>"
                           else skipn 16 pBuffer) 256))
    else None.
Proof.
  unfold ParseInvitationPacket.
  rewrite !ntohs_load, !ntohl_load.
  change (sizeof_TAppleMIDIInvitation - sizeof_Name) with 16.
  change AppleMIDISignature with 0xFFFF. change Invitation with 0x494E.
  change AppleMIDIVersion with 2. change (Z.to_nat sizeof_Name) with 256%nat.
  destruct (Z.ltb_spec nSize 16), (Z.leb_spec 16 nSize); try lia; [reflexivity|].
  destruct (Z.eqb_spec (wire_u16 pBuffer 0) 0xFFFF) as [->|]; [|reflexivity].
  destruct (Z.eqb_spec (wire_u16 pBuffer 2) 0x494E) as [->|]; [|reflexivity].
  destruct (Z.eqb_spec (wire_u32 pBuffer 4) 2) as [->|]; [|reflexivity].
  cbn [andb negb].
  destruct (Z.gtb_spec nSize 16), (Z.eqb_spec nSize 16); try lia; reflexivity.
Qed.

Lemma ParseEndSessionPacket_closed (pBuffer : list byte) (nSize : Z) :
  ParseEndSessionPacket pBuffer nSize =
    if (16 <=? nSize) && (wire_u16 pBuffer 0 =? 0xFFFF) && (wire_u16 pBuffer 2 =? 0x4259)
       && (wire_u32 pBuffer 4 =? 2)
    then Some (mkEndSession 0xFFFF 0x4259 2 (wire_u32 pBuffer 8) (wire_u32 pBuffer 12))
    else None.
Proof.
  unfold ParseEndSessionPacket.
  rewrite !ntohs_load, !ntohl_load.
  change sizeof_TAppleMIDIEndSession with 16.
  change AppleMIDISignature with 0xFFFF. change EndSession with 0x4259.
  change AppleMIDIVersion with 2.
  destruct (Z.ltb_spec nSize 16), (Z.leb_spec 16 nSize); try lia; [reflexivity|].
  destruct (Z.eqb_spec (wire_u16 pBuffer 0) 0xFFFF) as [->|]; [|reflexivity].
  destruct (Z.eqb_spec (wire_u16 pBuffer 2) 0x4259) as [->|]; [|reflexivity].
  destruct (Z.eqb_spec (wire_u32 pBuffer 4) 2) as [->|]; reflexivity.
Qed.

Lemma ParseSyncPacket_closed (pBuffer : list byte) (nSize : Z) :
  ParseSyncPacket pBuffer nSize =
    if (nSize =? 36) && (wire_u16 pBuffer 0 =? 0xFFFF) && (wire_u16 pBuffer 2 =? 0x434B)
    then Some (mkSync 0xFFFF 0x434B (wire_u32 pBuffer 4) (u8 (byte_at pBuffer 8))
                 (wire_u64 pBuffer 12, wire_u64 pBuffer 20, wire_u64 pBuffer 28))
    else None.
Proof.
  unfold ParseSyncPacket.
  rewrite !ntohs_load, !ntohl_load, !ntohll_load, load_u8.
  change sizeof_TAppleMIDISync with 36.
  change AppleMIDISignature with 0xFFFF. change Sync with 0x434B.
  destruct (Z.eqb_spec nSize 36); [|reflexivity].
  destruct (Z.eqb_spec (wire_u16 pBuffer 0) 0xFFFF) as [->|]; [|reflexivity].
  destruct (Z.eqb_spec (wire_u16 pBuffer 2) 0x434B) as [->|]; reflexivity.
Qed.

Lemma rtp_flag_bits (pBuffer : list byte) :
  Z.land (Z.shiftr (wire_u16 pBuffer 0) 8) 0x0F = u8 (byte_at pBuffer 0) mod 16
  /\ Z.land (wire_u16 pBuffer 0) 0xFF = u8 (byte_at pBuffer 1).
Proof.
  unfold wire_u16. change (0 + 1) with 1.
  pose proof (u8_range (byte_at pBuffer 0)) as H0.
  pose proof (u8_range (byte_at pBuffer 1)) as H1.
  rewrite Z.shiftr_div_pow2 by lia.
  change 0x0F with (Z.ones 4). change 0xFF with (Z.ones 8).
  rewrite !Z.land_ones by lia.
  change (2 ^ 8) with 256. change (2 ^ 4) with 16.
  split; Z.div_mod_to_equations; lia.
Qed.

Lemma ParseMIDIPacket_closed (pBuffer : list byte) (nSize : Z) :
  ParseMIDIPacket pBuffer nSize =
    if (u8 (byte_at pBuffer 0) / 64 =? 2) && (u8 (byte_at pBuffer 0) mod 16 =? 0)
       && (u8 (byte_at pBuffer 1) =? 0x61)
    then
      let '(pMIDIData, nMIDIDataSize) :=
        fixup_lines pBuffer (declared_offset pBuffer) (declared_length pBuffer) in
      Some (mkRTPMIDI (mkRTPHeader (wire_u16 pBuffer 0) (wire_u16 pBuffer 2)
                         (wire_u32 pBuffer 4) (wire_u32 pBuffer 8)),
            pMIDIData, nMIDIDataSize)
    else None.
Proof.
  destruct (ParseMIDIPacket pBuffer nSize) as [[[pkt off] size]|] eqn:E.
  - destruct (ParseMIDIPacket_accepts _ _ _ _ _ E) as [<- _].
    revert E. unfold ParseMIDIPacket.
    rewrite !ntohs_load, !ntohl_load, rtp_version_bits.
    destruct (rtp_flag_bits pBuffer) as [-> ->].
    change RTPMIDIVersion with 2. change RTPMIDIPayloadType with 0x61.
    destruct (_ / 64 =? 2); [|discriminate].
    destruct (_ mod 16 =? 0); [|discriminate].
    destruct (_ =? 0x61); [|discriminate].
    cbn [negb andb].
    repeat match goal with
           | |- context [let '(_, _) := ?c in _] => destruct c
           end.
    intros H. injection H as <- _ _. reflexivity.
  - revert E. unfold ParseMIDIPacket.
    rewrite !ntohs_load, rtp_version_bits.
    destruct (rtp_flag_bits pBuffer) as [-> ->].
    change RTPMIDIVersion with 2. change RTPMIDIPayloadType with 0x61.
    destruct (_ / 64 =? 2); [|reflexivity].
    destruct (_ mod 16 =? 0); [|reflexivity].
    destruct (_ =? 0x61); [|reflexivity].
    cbn [negb andb].
    repeat match goal with
           | |- context [let '(_, _) := ?c in _] => destruct c
           end.
    discriminate.
Qed.

(** X1.  [ParseInvitationPacket] accepts exactly the buffers of at least 16
    bytes that start with the signature FFFF, the command "IN" and the
    version 2, all big-endian.  The token and the SSRC it returns are the
    big-endian words at offsets 8 and 12; the name is copied from offset 16
    when the size exceeds 16 and is "<unknown>" otherwise. *)
Theorem ParseInvitationPacket_wire (pBuffer : list byte) (nSize : Z)
    (pkt : TAppleMIDIInvitation) :
  ParseInvitationPacket pBuffer nSize = Some pkt <->
  (16 <= nSize
   /\ wire_u16 pBuffer 0 = 0xFFFF
   /\ wire_u16 pBuffer 2 = 0x494E
   /\ wire_u32 pBuffer 4 = 2
   /\ pkt = mkInvitation 0xFFFF 0x494E 2 (wire_u32 pBuffer 8) (wire_u32 pBuffer 12)
              (strncpy (if nSize =? 16 then list_byte_of_string "<unknown>"
                        else skipn 16 pBuffer) 256)).
Proof.
  rewrite ParseInvitationPacket_closed.
  destruct (Z.leb_spec 16 nSize);
    destruct (Z.eqb_spec (wire_u16 pBuffer 0) 0xFFFF);
    destruct (Z.eqb_spec (wire_u16 pBuffer 2) 0x494E);
    destruct (Z.eqb_spec (wire_u32 pBuffer 4) 2); cbn [andb];
    split; try discriminate; try (intros (? & ? & ? & ? & ?); lia).
  - intros H'. injection H' as <-. repeat split; assumption.
  - intros (_ & _ & _ & _ & ->). reflexivity.
Qed.

(** X2.  The name of an accepted invitation always fills 256 characters.
    With a size of 16 its string is "<unknown>".  With a larger size its
    string is the characters from offset 16 of the buffer up to the first
    NUL, cut at 256: the size of the datagram does not bound the copy, so
    the same packet is returned for every size above 16. *)
Theorem ParseInvitationPacket_Name (pBuffer : list byte) (nSize : Z)
    (pkt : TAppleMIDIInvitation) :
  ParseInvitationPacket pBuffer nSize = Some pkt ->
  List.length (inv_Name pkt) = 256%nat
  /\ (nSize = 16 -> c_str (inv_Name pkt) = list_byte_of_string "<unknown>")
  /\ (nSize > 16 ->
      c_str (inv_Name pkt) = firstn 256 (c_str (skipn 16 pBuffer))
      /\ forall nSize' : Z, nSize' > 16 -> ParseInvitationPacket pBuffer nSize' = Some pkt).
Proof.
  rewrite ParseInvitationPacket_closed.
  destruct (Z.leb_spec 16 nSize) as [Hsz|]; [|discriminate].
  destruct ((wire_u16 pBuffer 0 =? 0xFFFF) && (wire_u16 pBuffer 2 =? 0x494E)
            && (wire_u32 pBuffer 4 =? 2)) eqn:Eh.
  2: { cbn [andb] in *. rewrite Eh. discriminate. }
  cbn [andb] in *. rewrite Eh.
  intros H. injection H as <-. cbn [inv_Name].
  split; [apply length_strncpy|].
  split.
  - intros ->. reflexivity.
  - intros Hgt.
    destruct (Z.eqb_spec nSize 16); [lia|].
    split; [apply c_str_strncpy|].
    intros nSize' Hgt'. rewrite ParseInvitationPacket_closed.
    destruct (Z.leb_spec 16 nSize'); [|lia].
    destruct (Z.eqb_spec nSize' 16); [lia|].
    cbn [andb]. rewrite Eh. reflexivity.
Qed.

Lemma ParseInvitationPacket_Name_witness :
  List.length (inv_Name (mkInvitation 0xFFFF 0x494E 2 0xDEADBEEF 0xCAFEBABE
                           (strncpy (bytes_of [0x68; 0x6F; 0x73; 0x74]) 256))) = 256%nat
  /\ c_str (inv_Name (mkInvitation 0xFFFF 0x494E 2 0xDEADBEEF 0xCAFEBABE
                        (strncpy (bytes_of [0x68; 0x6F; 0x73; 0x74]) 256)))
     = firstn 256 (c_str (skipn 16 InvitationFrame)).
Proof.
  pose proof (ParseInvitationPacket_Name InvitationFrame 21
                (mkInvitation 0xFFFF 0x494E 2 0xDEADBEEF 0xCAFEBABE
                   (strncpy (bytes_of [0x68; 0x6F; 0x73; 0x74]) 256))
                eq_refl) as (Hlen & _ & Hname).
  split; [exact Hlen|].
  apply Hname. reflexivity.
Defined.

(** X3.  [ParseEndSessionPacket] accepts exactly the buffers of at least 16
    bytes that start with FFFF, "BY" and the version 2; bytes after the
    first 16 are not looked at.  It returns the big-endian words at offsets
    8 and 12 as token and SSRC. *)
Theorem ParseEndSessionPacket_wire (pBuffer : list byte) (nSize : Z)
    (pkt : TAppleMIDIEndSession) :
  ParseEndSessionPacket pBuffer nSize = Some pkt <->
  (16 <= nSize
   /\ wire_u16 pBuffer 0 = 0xFFFF
   /\ wire_u16 pBuffer 2 = 0x4259
   /\ wire_u32 pBuffer 4 = 2
   /\ pkt = mkEndSession 0xFFFF 0x4259 2 (wire_u32 pBuffer 8) (wire_u32 pBuffer 12)).
Proof.
  rewrite ParseEndSessionPacket_closed.
  destruct (Z.leb_spec 16 nSize);
    destruct (Z.eqb_spec (wire_u16 pBuffer 0) 0xFFFF);
    destruct (Z.eqb_spec (wire_u16 pBuffer 2) 0x4259);
    destruct (Z.eqb_spec (wire_u32 pBuffer 4) 2); cbn [andb];
    split; try discriminate; try (intros (? & ? & ? & ? & ?); lia).
  - intros H'. injection H' as <-. repeat split; assumption.
  - intros (_ & _ & _ & _ & ->). reflexivity.
Qed.

(** X4.  [ParseSyncPacket] accepts exactly the buffers of size 36 that start
    with FFFF and "CK".  The SSRC is the big-endian word at offset 4, the
    count the byte at offset 8, whatever its value, and the timestamps the
    big-endian 64-bit words at offsets 12, 20 and 28; the three padding
    bytes at offsets 9 to 11 are not looked at. *)
Theorem ParseSyncPacket_wire (pBuffer : list byte) (nSize : Z) (pkt : TAppleMIDISync) :
  ParseSyncPacket pBuffer nSize = Some pkt <->
  (nSize = 36
   /\ wire_u16 pBuffer 0 = 0xFFFF
   /\ wire_u16 pBuffer 2 = 0x434B
   /\ pkt = mkSync 0xFFFF 0x434B (wire_u32 pBuffer 4) (u8 (byte_at pBuffer 8))
              (wire_u64 pBuffer 12, wire_u64 pBuffer 20, wire_u64 pBuffer 28)).
Proof.
  rewrite ParseSyncPacket_closed.
  destruct (Z.eqb_spec nSize 36);
    destruct (Z.eqb_spec (wire_u16 pBuffer 0) 0xFFFF);
    destruct (Z.eqb_spec (wire_u16 pBuffer 2) 0x434B); cbn [andb];
    split; try discriminate; try (intros (? & ? & ? & ?); lia).
  - intros H'. injection H' as <-. repeat split; assumption.
  - intros (_ & _ & _ & ->). reflexivity.
Qed.

(** X5.  [ParseMIDIPacket] accepts exactly the buffers whose first byte has
    the version 2 in its two high bits and a CSRC count of 0 in its four low
    bits, and whose second byte is 0x61: a frame with the marker bit set is
    rejected, the padding and extension bits are not looked at.  The
    sequence number, the timestamp and the SSRC returned are the big-endian
    fields at offsets 2, 4 and 8. *)
Theorem ParseMIDIPacket_wire (pBuffer : list byte) (nSize : Z)
    (pkt : TRTPMIDI) (pMIDIData nMIDIDataSize : Z) :
  ParseMIDIPacket pBuffer nSize = Some (pkt, pMIDIData, nMIDIDataSize) <->
  (u8 (byte_at pBuffer 0) / 64 = 2
   /\ u8 (byte_at pBuffer 0) mod 16 = 0
   /\ u8 (byte_at pBuffer 1) = 0x61
   /\ pkt = mkRTPMIDI (mkRTPHeader (wire_u16 pBuffer 0) (wire_u16 pBuffer 2)
                         (wire_u32 pBuffer 4) (wire_u32 pBuffer 8))
   /\ (pMIDIData, nMIDIDataSize)
      = fixup_lines pBuffer (declared_offset pBuffer) (declared_length pBuffer)).
Proof.
  rewrite ParseMIDIPacket_closed.
  destruct (fixup_lines pBuffer _ _) as [off size].
  destruct (Z.eqb_spec (u8 (byte_at pBuffer 0) / 64) 2);
    destruct (Z.eqb_spec (u8 (byte_at pBuffer 0) mod 16) 0);
    destruct (Z.eqb_spec (u8 (byte_at pBuffer 1)) 0x61); cbn [andb];
    split; try discriminate; try (intros (? & ? & ? & ? & ?); lia).
  - intros H'. injection H' as <- <- <-. repeat split; assumption.
  - intros (_ & _ & _ & -> & H'). injection H' as -> ->. reflexivity.
Qed.

(** X6.  No buffer is accepted by two decoders, whatever sizes they are
    called with: the three session decoders ask for different command words
    and a frame with the signature FFFF has version bits 3, not 2. *)
Theorem decoders_exclusive (d1 d2 : TDecoder) (pBuffer : list byte) (nSize1 nSize2 : Z) :
  accepts d1 pBuffer nSize1 = true ->
  d1 <> d2 ->
  accepts d2 pBuffer nSize2 = false.
Proof.
  intros H1 Hne.
  destruct (accepts d2 pBuffer nSize2) eqn:H2; [exfalso|reflexivity].
  assert (Hv : wire_u16 pBuffer 0 = 0xFFFF -> u8 (byte_at pBuffer 0) / 64 = 2 -> False).
  { unfold wire_u16.
    pose proof (u8_range (byte_at pBuffer 0)).
    pose proof (u8_range (byte_at pBuffer (0 + 1))).
    intros Hs Hq. Z.div_mod_to_equations. lia. }
  unfold accepts in H1, H2.
  rewrite ?ParseInvitationPacket_closed, ?ParseEndSessionPacket_closed,
    ?ParseSyncPacket_closed, ?ParseMIDIPacket_closed in H1, H2.
  destruct (fixup_lines pBuffer _ _) as [off size].
  destruct d1, d2; try (apply Hne; reflexivity);
    repeat match type of H1 with
           | context [?a =? ?b] => destruct (Z.eqb_spec a b)
           | context [?a <=? ?b] => destruct (Z.leb_spec a b)
           end;
    cbn [andb] in H1; try discriminate;
    repeat match type of H2 with
           | context [?a =? ?b] => destruct (Z.eqb_spec a b)
           | context [?a <=? ?b] => destruct (Z.leb_spec a b)
           end;
    cbn [andb] in H2; try discriminate; try lia; try (apply Hv; assumption).
Qed.

Lemma decoders_exclusive_witness :
  accepts SyncDecoder InvitationFrame 36 = false.
Proof.
  apply (decoders_exclusive InvitationDecoder SyncDecoder InvitationFrame 21 36).
  - reflexivity.
  - discriminate.
Defined.

(** X7.  The block [ParseMIDIPacket] returns lies inside the payload the
    command header declares and is at most as long: it starts at offset 13
    to 15 and has at most 4095 bytes.  The 16-bit subtractions of the SysEx
    rules never wrap. *)
Theorem ParseMIDIPacket_region_bounds (pBuffer : list byte) (nSize : Z)
    (pkt : TRTPMIDI) (pMIDIData nMIDIDataSize : Z) :
  ParseMIDIPacket pBuffer nSize = Some (pkt, pMIDIData, nMIDIDataSize) ->
  13 <= declared_offset pBuffer <= pMIDIData
  /\ pMIDIData <= 15
  /\ 0 <= nMIDIDataSize <= declared_length pBuffer
  /\ declared_length pBuffer <= 4095
  /\ pMIDIData + nMIDIDataSize <= declared_offset pBuffer + declared_length pBuffer.
Proof.
  intros H. apply ParseMIDIPacket_accepts in H. destruct H as [H _].
  pose proof (fixup_lines_within pBuffer) as Hw. rewrite <- H in Hw.
  pose proof (declared_length_range pBuffer) as Hl.
  assert (Ho : 13 <= declared_offset pBuffer <= 14)
    by (unfold declared_offset; destruct (_ <? 128); lia).
  assert (Hp : pMIDIData <= declared_offset pBuffer + 1).
  { unfold fixup_lines in H.
    repeat match type of H with
           | context [if ?c then _ else _] => destruct c
           end; injection H as -> _; lia. }
  lia.
Qed.

Lemma ParseMIDIPacket_region_bounds_witness :
  13 <= declared_offset MiddleSegment <= 14
  /\ 14 <= 15
  /\ 0 <= 3 <= declared_length MiddleSegment
  /\ declared_length MiddleSegment <= 4095
  /\ 14 + 3 <= declared_offset MiddleSegment + declared_length MiddleSegment.
Proof.
  apply (ParseMIDIPacket_region_bounds MiddleSegment 18
           (mkRTPMIDI (mkRTPHeader 0x8061 0x1234 0 0xCAFEBABE)) 14 3).
  reflexivity.
Defined.

(** ** The I/O loop *)

Lemma ReceiveControl_result (r : TReceive) (p : CAppleMIDIParticipant) :
  (m_nControlResult (ReceiveControl r p) <? 0) = is_error r.
Proof.
  unfold ReceiveControl, ReceiveFrom.
  destruct r as [|Data IP Port|e]; cbn [m_nControlResult is_error]; try reflexivity.
  apply Z.ltb_ge. unfold FRAME_BUFFER_SIZE. lia.
Qed.

Lemma ReceiveMIDI_result (r : TReceive) (p : CAppleMIDIParticipant) :
  (m_nMIDIResult (ReceiveMIDI r p) <? 0) = is_error r.
Proof.
  unfold ReceiveMIDI, ReceiveFrom.
  destruct r as [|Data IP Port|e]; cbn [m_nMIDIResult is_error]; try reflexivity.
  apply Z.ltb_ge. unfold FRAME_BUFFER_SIZE. lia.
Qed.

Lemma Run_iteration_closed (tick : TTick) (p : CAppleMIDIParticipant) (w : TWorld) :
  Run_iteration tick p w =
    if is_error (ControlReceive tick)
    then (true, ReceiveControl (ControlReceive tick) p, w,
          [EvLog LogError "Control socket receive error: %d"])
    else if is_error (MIDIReceive tick)
    then (true, received tick p, w, [EvLog LogError "MIDI socket receive error: %d"])
    else let '(p', w', ev) := Dispatch (received tick p) w in (false, p', w', ev).
Proof.
  unfold Run_iteration, received.
  rewrite ReceiveControl_result, ReceiveMIDI_result.
  destruct (is_error (ControlReceive tick)); [reflexivity|].
  destruct (is_error (MIDIReceive tick)); [reflexivity|].
  unfold bind, ret.
  destruct (Dispatch _ w) as [[p' w'] ev']. rewrite app_nil_r. reflexivity.
Qed.

Lemma Run_app (l1 l2 : list TTick) (p : CAppleMIDIParticipant) (w : TWorld) :
  Run (l1 ++ l2) p w =
    let '(bReturned, p1, w1, ev1) := Run l1 p w in
    if bReturned then (true, p1, w1, ev1)
    else let '(bReturned, p2, w2, ev2) := Run l2 p1 w1 in (bReturned, p2, w2, ev1 ++ ev2).
Proof.
  revert p w. induction l1 as [|t l1 IH]; intros p w.
  - cbn [app Run]. unfold ret.
    destruct (Run l2 p w) as [[[b2 p2] w2] ev2]. reflexivity.
  - cbn [app Run]. unfold bind.
    destruct (Run_iteration t p w) as [[[b0 p0] w0] ev0].
    destruct b0.
    + unfold ret. rewrite app_nil_r. reflexivity.
    + rewrite IH.
      destruct (Run l1 p0 w0) as [[[b1 p1] w1] ev1].
      destruct b1; [reflexivity|].
      destruct (Run l2 p1 w1) as [[[b2 p2] w2] ev2].
      rewrite app_assoc. reflexivity.
Qed.

Lemma returned_after_existsb (ticks : list TTick) (p : CAppleMIDIParticipant) (w : TWorld) :
  returned_after ticks p w = existsb tick_fails ticks.
Proof.
  unfold returned_after.
  revert p w. induction ticks as [|t l IH]; intros p w; [reflexivity|].
  cbn [Run existsb]. unfold bind. rewrite Run_iteration_closed.
  unfold tick_fails.
  destruct (is_error (ControlReceive t)); [reflexivity|].
  destruct (is_error (MIDIReceive t)); [reflexivity|].
  destruct (Dispatch _ w) as [[p' w'] ev']. cbn [orb].
  specialize (IH p' w').
  destruct (Run l p' w') as [[[b1 p1] w1] ev1]. exact IH.
Qed.

(** X8.  [Run] returns exactly when a receive of some iteration reports an
    error.  In that iteration the state machine does not run: a log entry
    is written, nothing is sent, the session members are left as they were,
    and an error on the control socket also skips the receive on the data
    socket.  The iterations after it never happen. *)
Theorem Run_returns_at_receive_error (before after : list TTick) (tick : TTick)
    (p : CAppleMIDIParticipant) (w : TWorld) :
  returned_after (before ++ tick :: after) p w
  = existsb tick_fails (before ++ tick :: after)
  /\ (existsb tick_fails before = false ->
      tick_fails tick = true ->
      Run (before ++ tick :: after) p w
      = (true,
         (if is_error (ControlReceive tick)
          then ReceiveControl (ControlReceive tick) (participant_after before p w)
          else received tick (participant_after before p w)),
         world_after before p w,
         snd (Run before p w)
         ++ [EvLog LogError (if is_error (ControlReceive tick)
                             then "Control socket receive error: %d"
                             else "MIDI socket receive error: %d")])).
Proof.
  split; [apply returned_after_existsb|].
  intros Hb Ht.
  rewrite <- (returned_after_existsb before p w) in Hb.
  rewrite Run_app.
  unfold returned_after, participant_after, world_after in *.
  destruct (Run before p w) as [[[b1 p1] w1] ev1]. cbn [fst snd] in *. subst b1.
  cbn [Run]. unfold bind. rewrite Run_iteration_closed.
  unfold tick_fails in Ht.
  destruct (is_error (ControlReceive tick)).
  - unfold ret. rewrite app_nil_r. reflexivity.
  - cbn [orb] in Ht. rewrite Ht. unfold ret. rewrite app_nil_r. reflexivity.
Qed.

Lemma Run_returns_at_receive_error_witness :
  Run ([ControlInvitationTick] ++ mkTick (ReceiveError 5) NoData :: [MIDIInvitationTick])
      Construct World0
  = (true,
     ReceiveControl (ReceiveError 5) (participant_after [ControlInvitationTick] Construct World0),
     world_after [ControlInvitationTick] Construct World0,
     snd (Run [ControlInvitationTick] Construct World0)
     ++ [EvLog LogError "Control socket receive error: %d"]).
Proof.
  apply (proj2 (Run_returns_at_receive_error [ControlInvitationTick] [MIDIInvitationTick]
                  (mkTick (ReceiveError 5) NoData) Construct World0));
    reflexivity.
Defined.

(** ** What is sent, and where *)

Lemma SendAcceptInvitationPacket_eq (p : CAppleMIDIParticipant) (pSocket : TSocket)
    (nPort : Z) :
  SendAcceptInvitationPacket p pSocket nPort
  = SendPacket p ControlSocket nPort (memory_TAppleMIDIInvitation (AcceptPacket p)) 24.
Proof.
  unfold SendAcceptInvitationPacket.
  change (sizeof_TAppleMIDIInvitation - sizeof_Name
          + strlen (inv_Name (AcceptPacket p)) + 1) with 24.
  reflexivity.
Qed.

Lemma AcceptPacket_frame (q : CAppleMIDIParticipant) :
  is_frame InvitationAccepted 24
    (firstn 24 (memory_TAppleMIDIInvitation (AcceptPacket q))).
Proof.
  rewrite AcceptPacket_sent.
  split; [reflexivity|].
  set (c0 := le_encode 2 (htons AppleMIDISignature)).
  set (c1 := le_encode 2 (htons InvitationAccepted)).
  set (post := [le_encode 4 _; _; _; _]).
  rewrite <- (app_nil_r (List.concat _)).
  set (buf := List.concat _ ++ []).
  assert (L0 : load 2 buf 0 = le_decode c0)
    by (apply (load_chunk [] c0 (c1 :: post)); reflexivity).
  assert (L1 : load 2 buf 2 = le_decode c1)
    by (apply (load_chunk [c0] c1 post); reflexivity).
  rewrite <- !ntohs_load, L0, L1. split; reflexivity.
Qed.

Lemma SyncPacket_frame (q : CAppleMIDIParticipant) (t1 t2 : Z) :
  is_frame Sync 36 (firstn 36 (memory_TAppleMIDISync (SyncPacket q t1 t2))).
Proof.
  assert (E : firstn 36 (memory_TAppleMIDISync (SyncPacket q t1 t2))
              = memory_TAppleMIDISync (SyncPacket q t1 t2) ++ [])
    by (rewrite app_nil_r; reflexivity).
  rewrite E. clear E.
  split; [reflexivity|].
  unfold memory_TAppleMIDISync, SyncPacket.
  cbn [sync_nSignature sync_nCommand sync_nSSRC sync_nCount sync_nTimestamps].
  set (c0 := le_encode 2 (htons AppleMIDISignature)).
  set (c1 := le_encode 2 (htons Sync)).
  set (post := [le_encode 4 _; _; _; _; _; _]).
  set (buf := List.concat _ ++ []).
  assert (L0 : load 2 buf 0 = le_decode c0)
    by (apply (load_chunk [] c0 (c1 :: post)); reflexivity).
  assert (L1 : load 2 buf 2 = le_decode c1)
    by (apply (load_chunk [c0] c1 post); reflexivity).
  rewrite <- !ntohs_load, L0, L1. split; reflexivity.
Qed.

Lemma FeedbackPacket_frame (q : CAppleMIDIParticipant) :
  is_frame ReceiverFeedback 12
    (firstn 12 (memory_TAppleMIDIReceiverFeedback (FeedbackPacket q))).
Proof.
  assert (E : firstn 12 (memory_TAppleMIDIReceiverFeedback (FeedbackPacket q))
              = memory_TAppleMIDIReceiverFeedback (FeedbackPacket q) ++ [])
    by (rewrite app_nil_r; reflexivity).
  rewrite E. clear E.
  split; [reflexivity|].
  unfold memory_TAppleMIDIReceiverFeedback, FeedbackPacket.
  cbn [fb_nSignature fb_nCommand fb_nSSRC fb_nSequence].
  set (c0 := le_encode 2 (htons AppleMIDISignature)).
  set (c1 := le_encode 2 (htons ReceiverFeedback)).
  set (post := [le_encode 4 _; _]).
  set (buf := List.concat _ ++ []).
  assert (L0 : load 2 buf 0 = le_decode c0)
    by (apply (load_chunk [] c0 (c1 :: post)); reflexivity).
  assert (L1 : load 2 buf 2 = le_decode c1)
    by (apply (load_chunk [c0] c1 post); reflexivity).
  rewrite <- !ntohs_load, L0, L1. split; reflexivity.
Qed.

Section Traces.

(** A property of events that holds of every log entry and of every call
    of the sink holds of the events of a function as soon as it holds of
    the datagrams the function can send. *)
Variable P : TEvent -> Prop.
Hypothesis P_log : forall (Severity : TLogSeverity) (Message : string),
    P (EvLog Severity Message).
Hypothesis P_sink : forall Data : list byte, P (EvReceiveHandler Data).

Lemma SendPacket_Forall (p : CAppleMIDIParticipant) (pSocket : TSocket) (nPort : Z)
    (pData : list byte) (nSize : Z) (w : TWorld) :
  P (EvSendTo pSocket (m_InitiatorIPAddress p) nPort (firstn (Z.to_nat nSize) pData)) ->
  Forall P (snd (SendPacket p pSocket nPort pData nSize w)).
Proof.
  intros H.
  destruct (SendPacket_events p pSocket nPort pData nSize w) as [E | [E | E]];
    cbv zeta in E; rewrite E; repeat constructor; auto.
Qed.

Lemma ControlInvitationState_Forall (p : CAppleMIDIParticipant) (w : TWorld) :
  (forall q : CAppleMIDIParticipant,
      P (EvSendTo ControlSocket (m_InitiatorIPAddress p) (m_nInitiatorControlPort p)
           (firstn 24 (memory_TAppleMIDIInvitation (AcceptPacket q))))) ->
  Forall P (snd (ControlInvitationState p w)).
Proof.
  intros H.
  remember (ControlInvitationState p w) as r eqn:Er.
  unfold ControlInvitationState in Er.
  destruct (m_nControlResult p =? 0); [subst r; constructor|].
  destruct (ParseInvitationPacket _ _) as [pkt|];
    [|subst r; repeat constructor; apply P_log].
  unfold bind at 1 in Er. unfold GetNumber at 1 in Er. cbv beta iota zeta in Er.
  set (w1 := mkWorld _ _ _ _ _ _ _) in Er.
  set (p1 := set_nSSRC _ _) in Er.
  assert (Hs : Forall P (snd (SendAcceptInvitationPacket p1 ControlSocket
                                (m_nInitiatorControlPort p1) w1))).
  { rewrite SendAcceptInvitationPacket_eq. apply SendPacket_Forall. apply H. }
  clearbody p1 w1. unfold bind, Write, ret in Er.
  destruct (SendAcceptInvitationPacket _ _ _ _) as [[b w2] ev2].
  cbn [snd] in Hs.
  destruct b; cbn [negb] in Er.
  - pose proof (events_GetSyncClock w2) as E.
    destruct (GetSyncClock w2) as [[c w3] ev3]. cbn [snd] in E. subst ev3 r.
    cbn [snd app]. rewrite !app_nil_r. exact Hs.
  - subst r. cbn [snd app]. apply Forall_app. split; [exact Hs|].
    repeat constructor; apply P_log.
Qed.

Lemma MIDIInvitationState_Forall (p : CAppleMIDIParticipant) (w : TWorld) :
  P (EvSendTo ControlSocket (m_InitiatorIPAddress p) (m_nInitiatorMIDIPort p)
       (firstn 24 (memory_TAppleMIDIInvitation (AcceptPacket p)))) ->
  Forall P (snd (MIDIInvitationState p w)).
Proof.
  intros H.
  remember (MIDIInvitationState p w) as r eqn:Er.
  unfold MIDIInvitationState in Er.
  destruct (m_nMIDIResult p >? 0).
  - destruct (ParseInvitationPacket _ _) as [pkt|];
      [|subst r; repeat constructor; apply P_log].
    assert (Hs : Forall P (snd (SendAcceptInvitationPacket p MIDISocket
                                  (m_nInitiatorMIDIPort p) w))).
    { rewrite SendAcceptInvitationPacket_eq. apply SendPacket_Forall. apply H. }
    unfold bind, Write, ret in Er.
    destruct (SendAcceptInvitationPacket _ _ _ _) as [[b w2] ev2].
    cbn [snd] in Hs.
    destruct b.
    + pose proof (events_GetSyncClock w2) as E.
      destruct (GetSyncClock w2) as [[c w3] ev3]. cbn [snd] in E. subst ev3 r.
      cbn [snd]. apply Forall_app. split; [exact Hs|].
      repeat constructor; apply P_log.
    + subst r. cbn [snd]. apply Forall_app. split; [exact Hs|].
      repeat constructor; apply P_log.
  - unfold bind, Write, ret in Er.
    pose proof (events_GetSyncClock w) as E.
    destruct (GetSyncClock w) as [[c w3] ev3]. cbn [snd] in E. subst ev3.
    destruct (_ >? SyncTimeout); subst r; repeat constructor; apply P_log.
Qed.

Lemma ConnectedState_Forall (p : CAppleMIDIParticipant) (w : TWorld) :
  (forall (q : CAppleMIDIParticipant) (t1 t2 : Z),
      P (EvSendTo ControlSocket (m_InitiatorIPAddress p) (m_nInitiatorMIDIPort p)
           (firstn 36 (memory_TAppleMIDISync (SyncPacket q t1 t2))))) ->
  (forall q : CAppleMIDIParticipant,
      P (EvSendTo ControlSocket (m_InitiatorIPAddress p) (m_nInitiatorMIDIPort p)
           (firstn 12 (memory_TAppleMIDIReceiverFeedback (FeedbackPacket q))))) ->
  Forall P (snd (ConnectedState p w)).
Proof.
  intros Hsync Hfb.
  rewrite ConnectedState_blocks.
  destruct (ConnectedState_Control_cases p w) as [E|E]; rewrite E.
  { repeat constructor. apply P_log. }
  pose proof (ConnectedState_MIDI_quiet p w) as (_ & Hk & _).
  assert (Hm : Forall P (snd (ConnectedState_MIDI p w))).
  { destruct (ConnectedState_MIDI_cases p w)
      as [Em | [(pkt & off & size & _ & [Em|Em])
               | [Em | [(t1 & c1 & w1 & c & Em) | (x & c & Em)]]]];
      rewrite Em; cbn [snd]; repeat constructor; auto.
    unfold SendSyncPacket. apply SendPacket_Forall. apply Hsync. }
  destruct (ConnectedState_MIDI p w) as [[p1 w1] ev1]. cbn [fst snd] in Hk, Hm.
  pose proof (events_GetSyncClock w1) as Ec.
  destruct (GetSyncClock w1) as [[nTicks w2] ev2]. cbn [snd] in Ec. subst ev2.
  assert (Hf : Forall P (snd (ConnectedState_Feedback nTicks p1 w2))).
  { destruct (ConnectedState_Feedback_cases nTicks p1 w2)
      as [[_ Ef] | [(_ & _ & Ef) | (_ & _ & Ef)]]; rewrite Ef; cbn [snd];
      repeat constructor.
    unfold SendFeedbackPacket. apply SendPacket_Forall.
    destruct Hk as (-> & _ & -> & _). apply Hfb. }
  destruct (ConnectedState_Feedback nTicks p1 w2) as [[p3 w3] ev3]. cbn [snd] in Hf.
  assert (Ht : Forall P (snd (ConnectedState_Timeout nTicks p3 w3))).
  { destruct (ConnectedState_Timeout_cases nTicks p3 w3) as [Et|Et]; rewrite Et;
      repeat constructor. apply P_log. }
  destruct (ConnectedState_Timeout nTicks p3 w3) as [[p4 w4] ev4]. cbn [snd] in Ht |- *.
  repeat (apply Forall_app; split); auto.
Qed.

End Traces.

Lemma Dispatch_sent_in (p : CAppleMIDIParticipant) (w : TWorld) :
  Forall (sent_in p) (snd (Dispatch p w)).
Proof.
  unfold Dispatch. destruct (m_State p) eqn:Es.
  - apply ControlInvitationState_Forall; try (intros; exact I).
    intros q. cbn [sent_in]. rewrite Es.
    repeat split; try reflexivity; apply AcceptPacket_frame.
  - apply MIDIInvitationState_Forall; try (intros; exact I).
    cbn [sent_in]. rewrite Es.
    repeat split; try reflexivity; apply AcceptPacket_frame.
  - apply ConnectedState_Forall; try (intros; exact I).
    + intros q t1 t2. cbn [sent_in]. rewrite Es.
      split; [reflexivity|]. split; [reflexivity|]. split; [reflexivity|].
      left. apply SyncPacket_frame.
    + intros q. cbn [sent_in]. rewrite Es.
      split; [reflexivity|]. split; [reflexivity|]. split; [reflexivity|].
      right. apply FeedbackPacket_frame.
Qed.

Lemma received_sender (tick : TTick) (p : CAppleMIDIParticipant) :
  m_InitiatorIPAddress (received tick p)
  = sender_of (MIDIReceive tick) (sender_of (ControlReceive tick) (m_InitiatorIPAddress p)).
Proof.
  unfold received, ReceiveMIDI, ReceiveControl, ReceiveFrom, sender_of.
  destruct (ControlReceive tick), (MIDIReceive tick); reflexivity.
Qed.

(** X9.  Every datagram of an iteration leaves through the control socket,
    also the acceptance of the data-port invitation, the sync reply and the
    feedback, which go to the peer's data port.  It is addressed to
    [m_InitiatorIPAddress] as the receive step left it, which is the source
    of the data-port datagram of the iteration if there is one, else of the
    control-port datagram if there is one, else the address of an earlier
    iteration.  Its port and its kind follow from the state: an OK frame to
    the control port in [ControlInvitation], an OK frame to the data port in
    [MIDIInvitation], CK and RS frames to the data port in [Connected]. *)
Theorem Run_iteration_sends (tick : TTick) (p : CAppleMIDIParticipant) (w : TWorld) :
  Forall (sent_in (received tick p)) (snd (Run_iteration tick p w))
  /\ m_InitiatorIPAddress (received tick p)
     = sender_of (MIDIReceive tick)
         (sender_of (ControlReceive tick) (m_InitiatorIPAddress p)).
Proof.
  split; [|apply received_sender].
  rewrite Run_iteration_closed.
  destruct (is_error (ControlReceive tick)); [repeat constructor|].
  destruct (is_error (MIDIReceive tick)); [repeat constructor|].
  pose proof (Dispatch_sent_in (received tick p) w) as H.
  destruct (Dispatch _ w) as [[p' w'] ev']. exact H.
Qed.

Lemma Run_Forall (P : TEvent -> Prop) (ticks : list TTick) :
  (forall (tick : TTick) (p : CAppleMIDIParticipant) (w : TWorld),
      Forall P (snd (Run_iteration tick p w))) ->
  forall (p : CAppleMIDIParticipant) (w : TWorld), Forall P (snd (Run ticks p w)).
Proof.
  intros H. induction ticks as [|t l IH]; intros p w; [constructor|].
  cbn [Run]. unfold bind. specialize (H t p w).
  destruct (Run_iteration t p w) as [[[b0 p0] w0] ev0]. cbn [snd] in H.
  destruct b0.
  - unfold ret. cbn [snd]. rewrite app_nil_r. exact H.
  - specialize (IH p0 w0).
    destruct (Run l p0 w0) as [[[b1 p1] w1] ev1]. cbn [snd] in IH |- *.
    apply Forall_app. split; assumption.
Qed.

(** X10.  Whatever arrives and however long the loop runs, a datagram it
    sends leaves through the control socket, never the data socket, and is
    one of three frames: an OK frame of 24 bytes, a CK frame of 36 bytes or
    an RS frame of 12 bytes, each starting with the signature FFFF.  The
    participant never sends an invitation or an end-session frame. *)
Theorem Run_sends (ticks : list TTick) (p : CAppleMIDIParticipant) (w : TWorld)
    (Socket : TSocket) (IPAddress nPort : Z) (Data : list byte) :
  In (EvSendTo Socket IPAddress nPort Data) (snd (Run ticks p w)) ->
  Socket = ControlSocket
  /\ (is_frame InvitationAccepted 24 Data
      \/ is_frame Sync 36 Data
      \/ is_frame ReceiverFeedback 12 Data).
Proof.
  intros Hin.
  assert (H : Forall (fun e => exists q, sent_in q e) (snd (Run ticks p w))).
  { apply Run_Forall. intros tick p' w'.
    rewrite Run_iteration_closed.
    destruct (is_error (ControlReceive tick));
      [repeat constructor; exists p'; exact I|].
    destruct (is_error (MIDIReceive tick));
      [repeat constructor; exists p'; exact I|].
    pose proof (Dispatch_sent_in (received tick p') w') as Hd.
    destruct (Dispatch _ w') as [[p2 w2] ev2]. cbn [snd] in Hd |- *.
    eapply Forall_impl; [|exact Hd]. intros e He. exists (received tick p'). exact He. }
  rewrite Forall_forall in H. destruct (H _ Hin) as [q Hq].
  cbn [sent_in] in Hq. destruct Hq as (-> & _ & Hq).
  split; [reflexivity|].
  destruct (m_State q); destruct Hq as [_ Hq]; tauto.
Qed.

Lemma Run_sends_witness :
  ControlSocket = ControlSocket
  /\ (is_frame InvitationAccepted 24 AcceptFrame
      \/ is_frame Sync 36 AcceptFrame
      \/ is_frame ReceiverFeedback 12 AcceptFrame).
Proof.
  apply (Run_sends [ControlInvitationTick] Construct World0 ControlSocket 0xC000020A 5004).
  left. reflexivity.
Defined.

(** ** The replies of the handshake and of the sync exchange *)

Lemma AcceptPacket_wire (q : CAppleMIDIParticipant) :
  0 <= m_nInitiatorToken q < 2 ^ 32 ->
  0 <= m_nSSRC q < 2 ^ 32 ->
  let Data := firstn 24 (memory_TAppleMIDIInvitation (AcceptPacket q)) in
  List.length Data = 24%nat
  /\ wire_u16 Data 0 = 0xFFFF
  /\ wire_u16 Data 2 = 0x4F4B
  /\ wire_u32 Data 4 = 2
  /\ wire_u32 Data 8 = m_nInitiatorToken q
  /\ wire_u32 Data 12 = m_nSSRC q
  /\ skipn 16 Data = list_byte_of_string "mt32-pi" ++ [x00].
Proof.
  intros Ht Hs Data. subst Data. rewrite AcceptPacket_sent.
  split; [reflexivity|].
  assert (Hn : skipn 16 (List.concat [le_encode 2 (htons AppleMIDISignature);
                                      le_encode 2 (htons InvitationAccepted);
                                      le_encode 4 (htonl AppleMIDIVersion);
                                      le_encode 4 (htonl (m_nInitiatorToken q));
                                      le_encode 4 (htonl (m_nSSRC q));
                                      firstn 8 AcceptName])
               = list_byte_of_string "mt32-pi" ++ [x00]) by reflexivity.
  revert Hn.
  set (c0 := le_encode 2 (htons AppleMIDISignature)).
  set (c1 := le_encode 2 (htons InvitationAccepted)).
  set (c2 := le_encode 4 (htonl AppleMIDIVersion)).
  set (c3 := le_encode 4 (htonl (m_nInitiatorToken q))).
  set (c4 := le_encode 4 (htonl (m_nSSRC q))).
  set (c5 := firstn 8 AcceptName).
  rewrite <- (app_nil_r (List.concat _)).
  set (buf := List.concat _ ++ []).
  intros Hn.
  assert (L0 : load 2 buf 0 = le_decode c0)
    by (apply (load_chunk [] c0 [c1; c2; c3; c4; c5]); reflexivity).
  assert (L1 : load 2 buf 2 = le_decode c1)
    by (apply (load_chunk [c0] c1 [c2; c3; c4; c5]); reflexivity).
  assert (L2 : load 4 buf 4 = le_decode c2)
    by (apply (load_chunk [c0; c1] c2 [c3; c4; c5]); reflexivity).
  assert (L3 : load 4 buf 8 = le_decode c3)
    by (apply (load_chunk [c0; c1; c2] c3 [c4; c5]); reflexivity).
  assert (L4 : load 4 buf 12 = le_decode c4)
    by (apply (load_chunk [c0; c1; c2; c3] c4 [c5]); reflexivity).
  rewrite <- !ntohs_load, <- !ntohl_load, L0, L1, L2, L3, L4.
  subst c0 c1 c2 c3 c4.
  repeat split; try reflexivity; try exact Hn;
    unfold ntohl, htonl; apply ntoh_hton; assumption.
Qed.

Lemma GetSyncClock_range (w : TWorld) : 0 <= fst (fst (GetSyncClock w)) < 2 ^ 64.
Proof.
  unfold_M. destruct (nStartTime w); cbn [fst];
    match goal with
    | |- 0 <= wrap 64 ?x / 100 < _ =>
        unfold wrap; pose proof (Z.mod_pos_bound x (2 ^ 64) ltac:(lia)) as H;
        generalize dependent (x mod 2 ^ 64)
    end;
    intros v Hv; change (2 ^ 64) with 18446744073709551616 in *;
    Z.div_mod_to_equations; lia.
Qed.

Lemma ControlInvitationState_sent (p : CAppleMIDIParticipant) (w : TWorld)
    (pkt : TAppleMIDIInvitation) :
  m_nControlResult p <> 0 ->
  ParseInvitationPacket (m_ControlBuffer p) (m_nControlResult p) = Some pkt ->
  exists (p1 : CAppleMIDIParticipant) (rest : list TEvent),
    p1 = set_nSSRC (wrap 32 (RandomNumbers w (nRandomReads w)))
           (set_nInitiatorSSRC (inv_nSSRC pkt)
              (set_nInitiatorToken (inv_nInitiatorToken pkt) p))
    /\ snd (ControlInvitationState p w)
       = EvSendTo ControlSocket (m_InitiatorIPAddress p) (m_nInitiatorControlPort p)
           (firstn 24 (memory_TAppleMIDIInvitation (AcceptPacket p1))) :: rest
    /\ sent_data rest = []
    /\ (fst (fst (ControlInvitationState p w)) = p1
        \/ exists nClock : Z,
             fst (fst (ControlInvitationState p w))
             = set_State MIDIInvitation (set_nLastSyncTime nClock p1)).
Proof.
  intros Hn Hp.
  remember (ControlInvitationState p w) as r eqn:Er.
  unfold ControlInvitationState in Er.
  destruct (Z.eqb_spec (m_nControlResult p) 0); [contradiction|].
  rewrite Hp in Er.
  unfold bind at 1 in Er. unfold GetNumber at 1 in Er. cbv beta iota zeta in Er.
  set (w1 := mkWorld _ _ _ _ _ _ _) in Er.
  set (p1 := set_nSSRC _ _) in Er.
  exists p1.
  assert (Hp1 : p1 = set_nSSRC (wrap 32 (RandomNumbers w (nRandomReads w)))
                       (set_nInitiatorSSRC (inv_nSSRC pkt)
                          (set_nInitiatorToken (inv_nInitiatorToken pkt) p)))
    by reflexivity.
  assert (Hip : m_InitiatorIPAddress p1 = m_InitiatorIPAddress p) by reflexivity.
  assert (Hport : m_nInitiatorControlPort p1 = m_nInitiatorControlPort p) by reflexivity.
  rewrite SendAcceptInvitationPacket_eq in Er.
  pose proof (SendPacket_events p1 ControlSocket (m_nInitiatorControlPort p1)
                (memory_TAppleMIDIInvitation (AcceptPacket p1)) 24 w1) as Hev.
  cbv zeta in Hev.
  change (Z.to_nat 24) with 24%nat in Hev.
  clearbody p1 w1. unfold bind, Write, ret in Er.
  destruct (SendPacket _ _ _ _ _ _) as [[b w2] ev2]. cbn [snd] in Hev.
  rewrite Hip, Hport in Hev.
  destruct b; cbn [negb] in Er.
  - pose proof (events_GetSyncClock w2) as E.
    destruct (GetSyncClock w2) as [[c w3] ev3]. cbn [snd] in E. subst ev3 r.
    cbn [fst snd app]. rewrite !app_nil_r.
    destruct Hev as [-> | [-> | ->]]; eexists; (split; [exact Hp1|]);
      (split; [reflexivity|]); (split; [reflexivity|]); right; exists c; reflexivity.
  - subst r. cbn [fst snd app].
    destruct Hev as [-> | [-> | ->]]; eexists; (split; [exact Hp1|]);
      (split; [reflexivity|]); (split; [reflexivity|]); left; reflexivity.
Qed.

Lemma MIDIInvitationState_sent (p : CAppleMIDIParticipant) (w : TWorld)
    (pkt : TAppleMIDIInvitation) :
  m_nMIDIResult p > 0 ->
  ParseInvitationPacket (m_MIDIBuffer p) (m_nMIDIResult p) = Some pkt ->
  exists rest : list TEvent,
    snd (MIDIInvitationState p w)
    = EvSendTo ControlSocket (m_InitiatorIPAddress p) (m_nInitiatorMIDIPort p)
        (firstn 24 (memory_TAppleMIDIInvitation (AcceptPacket p))) :: rest
    /\ sent_data rest = [].
Proof.
  intros Hn Hp.
  remember (MIDIInvitationState p w) as r eqn:Er.
  unfold MIDIInvitationState in Er.
  destruct (Z.gtb_spec (m_nMIDIResult p) 0); [|lia].
  rewrite Hp in Er.
  rewrite SendAcceptInvitationPacket_eq in Er.
  pose proof (SendPacket_events p ControlSocket (m_nInitiatorMIDIPort p)
                (memory_TAppleMIDIInvitation (AcceptPacket p)) 24 w) as Hev.
  cbv zeta in Hev. change (Z.to_nat 24) with 24%nat in Hev.
  unfold bind, Write, ret in Er.
  destruct (SendPacket _ _ _ _ _ _) as [[b w2] ev2]. cbn [snd] in Hev.
  destruct b.
  - pose proof (events_GetSyncClock w2) as E.
    destruct (GetSyncClock w2) as [[c w3] ev3]. cbn [snd] in E. subst ev3 r.
    cbn [fst snd app].
    destruct Hev as [-> | [-> | ->]]; eexists; split; reflexivity.
  - subst r. cbn [fst snd app].
    destruct Hev as [-> | [-> | ->]]; eexists; split; reflexivity.
Qed.

(** X12.  The reply to an invitation on the data port: an OK frame of 24
    bytes sent through the control socket to the sender's address and data
    port.  Its token and SSRC are the members stored at the control-port
    invitation; the token, the SSRC and the name of the invitation on the
    data port are not looked at. *)
Theorem data_invitation_reply (p : CAppleMIDIParticipant) (w : TWorld)
    (pkt : TAppleMIDIInvitation) :
  m_nMIDIResult p > 0 ->
  ParseInvitationPacket (m_MIDIBuffer p) (m_nMIDIResult p) = Some pkt ->
  0 <= m_nInitiatorToken p < 2 ^ 32 ->
  0 <= m_nSSRC p < 2 ^ 32 ->
  exists (Data : list byte) (rest : list TEvent),
    snd (MIDIInvitationState p w)
    = EvSendTo ControlSocket (m_InitiatorIPAddress p) (m_nInitiatorMIDIPort p) Data :: rest
    /\ sent_data rest = []
    /\ List.length Data = 24%nat
    /\ wire_u16 Data 0 = 0xFFFF
    /\ wire_u16 Data 2 = 0x4F4B
    /\ wire_u32 Data 4 = 2
    /\ wire_u32 Data 8 = m_nInitiatorToken p
    /\ wire_u32 Data 12 = m_nSSRC p
    /\ skipn 16 Data = list_byte_of_string "mt32-pi" ++ [x00].
Proof.
  intros Hn Hp Ht Hs.
  destruct (MIDIInvitationState_sent p w pkt Hn Hp) as (rest & Hev & Hrest).
  pose proof (AcceptPacket_wire p Ht Hs) as Hw. cbv zeta in Hw.
  destruct Hw as (H0 & H1 & H2 & H3 & H4 & H5 & H6).
  exists (firstn 24 (memory_TAppleMIDIInvitation (AcceptPacket p))), rest.
  repeat split; assumption.
Qed.

Lemma data_invitation_reply_witness :
  exists (Data : list byte) (rest : list TEvent),
    snd (MIDIInvitationState
           (received ForeignInvitationTick
              (participant_after [ControlInvitationTick] Construct World0)) World0)
    = EvSendTo ControlSocket 0xC0000263 6001 Data :: rest
    /\ sent_data rest = []
    /\ List.length Data = 24%nat
    /\ wire_u16 Data 0 = 0xFFFF
    /\ wire_u16 Data 2 = 0x4F4B
    /\ wire_u32 Data 4 = 2
    /\ wire_u32 Data 8 = 0xDEADBEEF
    /\ wire_u32 Data 12 = 0x12345678
    /\ skipn 16 Data = list_byte_of_string "mt32-pi" ++ [x00].
Proof.
  apply (data_invitation_reply
           (received ForeignInvitationTick
              (participant_after [ControlInvitationTick] Construct World0)) World0
           (mkInvitation 0xFFFF 0x494E 2 0x0BADF00D 0x0B0B0B0B
              (strncpy (bytes_of [0x65; 0x76; 0x65]) 256))).
  - vm_compute. reflexivity.
  - reflexivity.
  - vm_compute. split; [discriminate|reflexivity].
  - vm_compute. split; [discriminate|reflexivity].
Defined.

(** X13.  The reply to a sync frame with count 0 from the initiator: one CK
    frame of 36 bytes sent through the control socket to the sender's data
    port.  Decoded, it has the local SSRC, the count 1, the first timestamp
    of the frame received as its first timestamp, the reading of the sync
    clock taken for the reply as its second, and 0 as its third. *)
Theorem sync_reply (p : CAppleMIDIParticipant) (w : TWorld) (sp : TAppleMIDISync) :
  m_nMIDIResult p > 0 ->
  ParseSyncPacket (m_MIDIBuffer p) (m_nMIDIResult p) = Some sp ->
  sync_nSSRC sp = m_nInitiatorSSRC p ->
  sync_nCount sp = 0 ->
  0 <= m_nSSRC p < 2 ^ 32 ->
  exists (Data : list byte) (rest : list TEvent),
    snd (ConnectedState_MIDI p w)
    = EvSendTo ControlSocket (m_InitiatorIPAddress p) (m_nInitiatorMIDIPort p) Data :: rest
    /\ sent_data rest = []
    /\ List.length Data = 36%nat
    /\ ParseSyncPacket Data 36
       = Some (mkSync 0xFFFF 0x434B (m_nSSRC p) 1
                 (wire_u64 (m_MIDIBuffer p) 12, fst (fst (GetSyncClock w)), 0)).
Proof.
  intros Hn Hp Hssrc Hcount Hs.
  rewrite (ConnectedState_MIDI_count_0 p w sp Hn Hp Hssrc Hcount).
  assert (Ht1 : fst (fst (sync_nTimestamps sp)) = wire_u64 (m_MIDIBuffer p) 12).
  { rewrite ParseSyncPacket_closed in Hp.
    destruct (_ && _); [|discriminate]. injection Hp as <-. reflexivity. }
  rewrite Ht1.
  pose proof (GetSyncClock_range w) as Hc.
  destruct (GetSyncClock w) as [[c1 w1] ev1]. cbn [fst] in Hc |- *.
  pose proof (ParseSyncPacket_SyncPacket p (wire_u64 (m_MIDIBuffer p) 12) c1 []
                Hs (wire_u64_range _ _) Hc) as Hparse.
  rewrite app_nil_r in Hparse.
  pose proof (SendPacket_events p ControlSocket (m_nInitiatorMIDIPort p)
                (memory_TAppleMIDISync (SyncPacket p (wire_u64 (m_MIDIBuffer p) 12) c1))
                sizeof_TAppleMIDISync w1) as Hev.
  cbv zeta in Hev.
  assert (E : firstn (Z.to_nat sizeof_TAppleMIDISync)
                (memory_TAppleMIDISync (SyncPacket p (wire_u64 (m_MIDIBuffer p) 12) c1))
              = memory_TAppleMIDISync (SyncPacket p (wire_u64 (m_MIDIBuffer p) 12) c1)).
  { rewrite <- (app_nil_r (memory_TAppleMIDISync _)) at 1. reflexivity. }
  rewrite E in Hev. clear E.
  unfold SendSyncPacket.
  destruct (SendPacket _ _ _ _ _ _) as [[b w2] ev2]. cbn [snd] in Hev.
  destruct (GetSyncClock w2) as [[c w3] ev3]. cbn [snd].
  exists (memory_TAppleMIDISync (SyncPacket p (wire_u64 (m_MIDIBuffer p) 12) c1)).
  destruct Hev as [-> | [-> | ->]]; eexists; (split; [reflexivity|]);
    (split; [reflexivity|]); (split; [reflexivity|]); exact Hparse.
Qed.

Lemma sync_reply_witness :
  exists (Data : list byte) (rest : list TEvent),
    snd (ConnectedState_MIDI (ConnectedWith SyncFrame0) World0)
    = EvSendTo ControlSocket 0xC000020A 5005 Data :: rest
    /\ sent_data rest = []
    /\ List.length Data = 36%nat
    /\ ParseSyncPacket Data 36
       = Some (mkSync 0xFFFF 0x434B 0x12345678 1
                 (wire_u64 (m_MIDIBuffer (ConnectedWith SyncFrame0)) 12,
                  fst (fst (GetSyncClock World0)), 0)).
Proof.
  apply (sync_reply (ConnectedWith SyncFrame0) World0
           (mkSync 0xFFFF 0x434B 0xCAFEBABE 0 (1000, 0, 0))).
  - vm_compute. reflexivity.
  - reflexivity.
  - reflexivity.
  - reflexivity.
  - vm_compute. split; [discriminate|reflexivity].
Defined.

(** ** The control port in the connected state *)

Lemma ConnectedState_Control_closed (p : CAppleMIDIParticipant) (w : TWorld) :
  ConnectedState_Control p w =
    if ends_session p
    then (true, Reset p, w, [EvLog LogNotice "Initiator ended session"])
    else (false, p, w, []).
Proof.
  unfold ConnectedState_Control, ends_session.
  rewrite ParseEndSessionPacket_closed.
  destruct (Z.gtb_spec (m_nControlResult p) 0), (Z.leb_spec 16 (m_nControlResult p));
    try lia; cbn [andb]; try reflexivity.
  destruct ((wire_u16 _ 0 =? 0xFFFF) && (wire_u16 _ 2 =? 0x4259) && (wire_u32 _ 4 =? 2));
    cbn [andb end_nSSRC]; [|reflexivity].
  destruct (_ =? m_nInitiatorSSRC p); reflexivity.
Qed.

(** X15.  In [Connected] the control port is read for one frame only: an
    end-session frame of at least 16 bytes whose SSRC is the initiator's.
    Its token is not compared.  On it the function resets the session and
    returns at once: the datagram of the same iteration on the data port is
    not decoded, nothing is handed to the sink, the clock is not read and
    nothing is sent.  Every other datagram on the control port, a new
    invitation included, is dropped without a log entry. *)
Theorem end_session_gate (p : CAppleMIDIParticipant) (w : TWorld) :
  (ends_session p = true ->
   ConnectedState p w = (Reset p, w, [EvLog LogNotice "Initiator ended session"]))
  /\ (ends_session p = false ->
      ConnectedState_Control p w = (false, p, w, [])
      /\ ConnectedState p w
         = (let '(p1, w1, ev1) := ConnectedState_MIDI p w in
            let '(nTicks, w2, ev2) := GetSyncClock w1 in
            let '(p3, w3, ev3) := ConnectedState_Feedback nTicks p1 w2 in
            let '(p4, w4, ev4) := ConnectedState_Timeout nTicks p3 w3 in
            (p4, w4, ev1 ++ ev2 ++ ev3 ++ ev4))).
Proof.
  split; intros H.
  - rewrite ConnectedState_blocks, ConnectedState_Control_closed, H. reflexivity.
  - split; [rewrite ConnectedState_Control_closed, H; reflexivity|].
    rewrite ConnectedState_blocks, ConnectedState_Control_closed, H. reflexivity.
Qed.

Lemma end_session_gate_witness :
  ConnectedState SessionEnding World0
  = (Reset SessionEnding, World0, [EvLog LogNotice "Initiator ended session"]).
Proof.
  apply (proj1 (end_session_gate SessionEnding World0)).
  reflexivity.
Defined.

(** ** Traffic that does not count *)

Lemma ReceiveFrom_front (Data Buffer : list byte) (IP Port IPAddress nPort : Z) :
  (2 <= List.length Data)%nat ->
  let '(n, B, _, _) := ReceiveFrom (Datagram Data IP Port) Buffer IPAddress nPort in
  2 <= n /\ byte_at B 0 = byte_at Data 0 /\ byte_at B 1 = byte_at Data 1.
Proof.
  intros Hlen. unfold ReceiveFrom.
  destruct Data as [|a [|b r]]; cbn [List.length] in Hlen; try lia.
  set (n := Z.min _ _).
  assert (Hn : 2 <= n) by (subst n; cbn [List.length]; unfold FRAME_BUFFER_SIZE; lia).
  split; [exact Hn|].
  destruct (Z.to_nat n) as [|[|k]] eqn:Ek; try lia.
  split; reflexivity.
Qed.

Lemma received_MIDI_Datagram (tick : TTick) (p : CAppleMIDIParticipant)
    (Data : list byte) (IP Port : Z) :
  MIDIReceive tick = Datagram Data IP Port ->
  (2 <= List.length Data)%nat ->
  2 <= m_nMIDIResult (received tick p)
  /\ byte_at (m_MIDIBuffer (received tick p)) 0 = byte_at Data 0
  /\ byte_at (m_MIDIBuffer (received tick p)) 1 = byte_at Data 1.
Proof.
  intros E Hlen. unfold received, ReceiveMIDI. rewrite E.
  pose proof (ReceiveFrom_front Data
                (m_MIDIBuffer (ReceiveControl (ControlReceive tick) p)) IP Port
                (m_InitiatorIPAddress (ReceiveControl (ControlReceive tick) p))
                (m_nInitiatorMIDIPort (ReceiveControl (ControlReceive tick) p)) Hlen) as H.
  destruct (ReceiveFrom _ _ _ _) as [[[n B] i] q]. exact H.
Qed.

Lemma received_session (tick : TTick) (p : CAppleMIDIParticipant) :
  m_State (received tick p) = m_State p
  /\ m_nLastSyncTime (received tick p) = m_nLastSyncTime p
  /\ m_nControlResult (received tick p)
     = m_nControlResult (ReceiveControl (ControlReceive tick) p).
Proof.
  unfold received, ReceiveMIDI, ReceiveControl.
  destruct (ReceiveFrom _ _ _ _) as [[[n1 b1] i1] q1].
  cbn [m_MIDIBuffer m_InitiatorIPAddress m_nInitiatorMIDIPort].
  destruct (ReceiveFrom _ _ _ _) as [[[n2 b2] i2] q2].
  repeat split; reflexivity.
Qed.

Lemma MIDIInvitation_junk_iteration (tick : TTick) (p : CAppleMIDIParticipant) (w : TWorld) :
  m_State p = MIDIInvitation ->
  junk_on_data_port tick ->
  Run_iteration tick p w
  = (false, received tick p, w, [EvLog LogError "Unexpected packet"]).
Proof.
  intros Hs (Hc & Data & IP & Port & Em & Hlen & Hsig).
  rewrite Run_iteration_closed, Hc, Em. cbn [is_error].
  destruct (received_MIDI_Datagram tick p Data IP Port Em Hlen) as (Hn & H0 & H1).
  destruct (received_session tick p) as (Hst & _ & _).
  unfold Dispatch. rewrite Hst, Hs.
  unfold MIDIInvitationState.
  destruct (Z.gtb_spec (m_nMIDIResult (received tick p)) 0); [|lia].
  rewrite ParseInvitationPacket_closed.
  assert (Hw : wire_u16 (m_MIDIBuffer (received tick p)) 0 = wire_u16 Data 0)
    by (unfold wire_u16; change (0 + 1) with 1; rewrite H0, H1; reflexivity).
  rewrite Hw.
  destruct (Z.eqb_spec (wire_u16 Data 0) 0xFFFF); [contradiction|].
  rewrite andb_false_r. reflexivity.
Qed.

(** X16.  While the participant waits in [MIDIInvitation], an iteration that
    finds on the data port a datagram without the signature FFFF writes a
    log entry and does nothing else: the clock is not read and the
    invitation timeout is not evaluated.  A run of such iterations, however
    long, leaves the participant in [MIDIInvitation] with the last sync
    time it had. *)
Theorem MIDIInvitation_held_by_junk (ticks : list TTick) (p : CAppleMIDIParticipant)
    (w : TWorld) :
  m_State p = MIDIInvitation ->
  Forall junk_on_data_port ticks ->
  returned_after ticks p w = false
  /\ m_State (participant_after ticks p w) = MIDIInvitation
  /\ m_nLastSyncTime (participant_after ticks p w) = m_nLastSyncTime p
  /\ world_after ticks p w = w
  /\ Forall (eq (EvLog LogError "Unexpected packet")) (snd (Run ticks p w)).
Proof.
  unfold returned_after, participant_after, world_after.
  intros Hs Hall. revert p Hs.
  induction Hall as [|t l Ht Hl IH]; intros p Hs.
  - cbn. repeat split; [exact Hs | constructor].
  - cbn [Run]. unfold bind.
    rewrite (MIDIInvitation_junk_iteration t p w Hs Ht).
    destruct (received_session t p) as (Hst & Hls & _).
    specialize (IH (received t p)). rewrite Hst, Hls in IH. specialize (IH Hs).
    destruct (Run l (received t p) w) as [[[b1 p1] w1] ev1]. cbn [fst snd] in IH |- *.
    destruct IH as (H1 & H2 & H3 & H4 & H5).
    repeat split; try assumption.
    constructor; [reflexivity|exact H5].
Qed.

Lemma MIDIInvitation_held_by_junk_witness :
  returned_after [DataTick; DataTick; DataTick] HalfOpen
    (WorldOf [0; 1000; 90000000; 90000001] []) = false
  /\ m_State (participant_after [DataTick; DataTick; DataTick] HalfOpen
                (WorldOf [0; 1000; 90000000; 90000001] [])) = MIDIInvitation
  /\ m_nLastSyncTime (participant_after [DataTick; DataTick; DataTick] HalfOpen
                        (WorldOf [0; 1000; 90000000; 90000001] []))
     = m_nLastSyncTime HalfOpen
  /\ world_after [DataTick; DataTick; DataTick] HalfOpen
       (WorldOf [0; 1000; 90000000; 90000001] [])
     = WorldOf [0; 1000; 90000000; 90000001] []
  /\ Forall (eq (EvLog LogError "Unexpected packet"))
       (snd (Run [DataTick; DataTick; DataTick] HalfOpen
               (WorldOf [0; 1000; 90000000; 90000001] []))).
Proof.
  apply (MIDIInvitation_held_by_junk [DataTick; DataTick; DataTick] HalfOpen
           (WorldOf [0; 1000; 90000000; 90000001] [])).
  - reflexivity.
  - assert (H : junk_on_data_port DataTick).
    { split; [reflexivity|].
      exists (bytes_of [0x80; 0x61; 0; 1]), 0xC0000263, 6001.
      split; [reflexivity|]. split; [cbn; lia|]. vm_compute. discriminate. }
    repeat (apply Forall_cons; [exact H|]). apply Forall_nil.
Defined.

Lemma ControlInvitation_idle_iteration (tick : TTick) (p : CAppleMIDIParticipant)
    (w : TWorld) :
  m_State p = ControlInvitation ->
  ControlReceive tick = NoData ->
  is_error (MIDIReceive tick) = false ->
  Run_iteration tick p w = (false, received tick p, w, []).
Proof.
  intros Hs Hc Hm.
  rewrite Run_iteration_closed, Hc, Hm. cbn [is_error].
  destruct (received_session tick p) as (Hst & _ & Hcr).
  unfold Dispatch. rewrite Hst, Hs.
  unfold ControlInvitationState. rewrite Hcr, Hc. reflexivity.
Qed.

Lemma MIDI_data_only_no_error (tick : TTick) :
  MIDI_data_only tick ->
  ControlReceive tick = NoData /\ is_error (MIDIReceive tick) = false.
Proof.
  intros (Hc & Data & IP & Port & Em & _). rewrite Em. split; [exact Hc|reflexivity].
Qed.

Lemma ControlInvitation_idle (ticks : list TTick) (p : CAppleMIDIParticipant) (w : TWorld) :
  m_State p = ControlInvitation ->
  Forall MIDI_data_only ticks ->
  m_State (participant_after ticks p w) = ControlInvitation.
Proof.
  unfold participant_after.
  intros Hs Hall. revert p Hs.
  induction Hall as [|t l Ht Hl IH]; intros p Hs; [exact Hs|].
  destruct (MIDI_data_only_no_error t Ht) as [Hc Hm].
  cbn [Run]. unfold bind.
  rewrite (ControlInvitation_idle_iteration t p w Hs Hc Hm).
  destruct (received_session t p) as (Hst & _ & _).
  specialize (IH (received t p)). rewrite Hst in IH. specialize (IH Hs).
  destruct (Run l (received t p) w) as [[[b1 p1] w1] ev1]. exact IH.
Qed.

(** An iteration of a session that finds RTP-MIDI data and nothing else:
    the clock is read once, and the last sync time is compared with that
    reading as it was before the iteration. *)
Lemma Connected_data_iteration (tick : TTick) (p : CAppleMIDIParticipant) (w : TWorld) :
  m_State p = Connected ->
  MIDI_data_only tick ->
  exists (p' : CAppleMIDIParticipant) (w' : TWorld) (ev : list TEvent),
    Run_iteration tick p w = (false, p', w', ev)
    /\ ((wrap 64 (fst (fst (GetSyncClock w)) - m_nLastSyncTime p) > SyncTimeout
         /\ m_State p' = ControlInvitation
         /\ In (EvLog LogError "Initiator timed out") ev)
        \/ (wrap 64 (fst (fst (GetSyncClock w)) - m_nLastSyncTime p) <= SyncTimeout
            /\ m_State p' = Connected
            /\ m_nLastSyncTime p' = m_nLastSyncTime p)).
Proof.
  intros Hs (Hc & Data & IP & Port & Em & Hlen & Hrtp).
  rewrite Run_iteration_closed, Hc, Em. cbn [is_error].
  destruct (received_MIDI_Datagram tick p Data IP Port Em Hlen) as (Hn & H0 & H1).
  destruct (received_session tick p) as (Hst & Hls & Hcr).
  rewrite Hc in Hcr. change (m_nControlResult (ReceiveControl NoData p)) with 0 in Hcr.
  set (q := received tick p) in *. clearbody q.
  unfold Dispatch. rewrite Hst, Hs.
  rewrite ConnectedState_blocks.
  assert (Ec : ConnectedState_Control q w = (false, q, w, []))
    by (unfold ConnectedState_Control; rewrite Hcr; reflexivity).
  rewrite Ec.
  assert (Em' : exists seq ev1,
             ConnectedState_MIDI q w = (set_nSequence seq q, w, ev1)).
  { unfold ConnectedState_MIDI.
    destruct (Z.gtb_spec (m_nMIDIResult q) 0); [|lia].
    rewrite ParseMIDIPacket_closed.
    unfold is_RTP_MIDI in Hrtp. rewrite H0, H1, Hrtp.
    destruct (fixup_lines _ _ _) as [off size].
    cbn [RTPHeader rtp_nSequence].
    destruct (m_pReceiveHandler (set_nSequence _ q)); eexists; eexists; reflexivity. }
  destruct Em' as (seq & ev1 & Em'). rewrite Em'.
  pose proof (events_GetSyncClock w) as Eg.
  destruct (GetSyncClock w) as [[nTicks w2] ev2]. cbn [fst snd] in Eg |- *. subst ev2.
  pose proof (ConnectedState_Feedback_fields nTicks (set_nSequence seq q) w2) as Hf.
  pose proof (ConnectedState_Feedback_quiet nTicks (set_nSequence seq q) w2) as (_ & _ & Hfs).
  cbv zeta in Hf. destruct Hf as (_ & Hfl & _ & _).
  destruct (ConnectedState_Feedback nTicks (set_nSequence seq q) w2) as [[p3 w3] ev3].
  cbn [fst snd] in Hfl, Hfs.
  change (m_nLastSyncTime (set_nSequence seq q)) with (m_nLastSyncTime q) in Hfl.
  change (m_State (set_nSequence seq q)) with (m_State q) in Hfs.
  unfold ConnectedState_Timeout. rewrite Hfl, Hls.
  destruct (Z.gtb_spec (wrap 64 (nTicks - m_nLastSyncTime p)) SyncTimeout) as [Hgt|Hle].
  - unfold bind, Write, ret. do 3 eexists. split; [reflexivity|].
    left. split; [lia|]. split; [reflexivity|].
    cbn [app]. apply in_or_app. right. apply in_or_app. right. left. reflexivity.
  - unfold ret. do 3 eexists. split; [reflexivity|].
    right. split; [lia|]. split; [congruence|congruence].
Qed.

(** X17.  RTP-MIDI data does not keep a session alive: only sync frames
    advance the last sync time.  Along iterations that find RTP-MIDI data on
    the data port and nothing on the control port, a participant that is
    still [Connected] has the last sync time it started with; an iteration
    whose clock reading is more than [SyncTimeout] past it resets the
    session, data or not. *)
Theorem liveness_needs_sync (ticks : list TTick) (p : CAppleMIDIParticipant) (w : TWorld) :
  m_State p = Connected ->
  Forall MIDI_data_only ticks ->
  ((m_State (participant_after ticks p w) = Connected
    /\ m_nLastSyncTime (participant_after ticks p w) = m_nLastSyncTime p)
   \/ m_State (participant_after ticks p w) = ControlInvitation)
  /\ (forall tick : TTick,
        MIDI_data_only tick ->
        wrap 64 (fst (fst (GetSyncClock w)) - m_nLastSyncTime p) > SyncTimeout ->
        m_State (participant_after [tick] p w) = ControlInvitation
        /\ In (EvLog LogError "Initiator timed out") (snd (Run [tick] p w))).
Proof.
  intros Hs Hall. split.
  - revert p w Hs.
    induction Hall as [|t l Ht Hl IH]; intros p w Hs.
    + left. split; [exact Hs|reflexivity].
    + destruct (Connected_data_iteration t p w Hs Ht)
        as (p' & w' & ev & E & [(_ & Hci & _) | (_ & Hco & Hsame)]).
      * right.
        pose proof (ControlInvitation_idle l p' w' Hci Hl) as H.
        unfold participant_after in *. cbn [Run]. unfold bind. rewrite E.
        destruct (Run l p' w') as [[[b1 p1] w1] ev1]. exact H.
      * specialize (IH p' w' Hco). rewrite Hsame in IH.
        unfold participant_after in *. cbn [Run]. unfold bind. rewrite E.
        destruct (Run l p' w') as [[[b1 p1] w1] ev1]. exact IH.
  - intros tick Ht Hgt.
    destruct (Connected_data_iteration tick p w Hs Ht)
      as (p' & w' & ev & E & [(_ & Hci & Hin) | (Hle & _ & _)]); [|lia].
    unfold participant_after. cbn [Run]. unfold bind, ret. rewrite E.
    cbn [fst snd]. rewrite app_nil_r. split; assumption.
Qed.

Lemma liveness_needs_sync_witness :
  m_State (participant_after [DataTick] ConnectedSession (WorldOf [0; 60100000] []))
  = ControlInvitation
  /\ In (EvLog LogError "Initiator timed out")
        (snd (Run [DataTick] ConnectedSession (WorldOf [0; 60100000] []))).
Proof.
  assert (H : MIDI_data_only DataTick).
  { split; [reflexivity|].
    exists (bytes_of [0x80; 0x61; 0; 1]), 0xC0000263, 6001.
    split; [reflexivity|]. split; [cbn; lia|reflexivity]. }
  apply (proj2 (liveness_needs_sync [DataTick] ConnectedSession
                  (WorldOf [0; 60100000] []) eq_refl
                  (Forall_cons _ H (Forall_nil _))) DataTick H).
  vm_compute. reflexivity.
Defined.

(** ** The sync clock and the timeouts *)

Lemma sync_now_nonneg (w : TWorld) : clock_sane w -> 0 <= sync_now w.
Proof.
  intros (Hmono & Hrange & Hst). unfold sync_now.
  destruct (nStartTime w) as [t0|]; [|lia].
  destruct (nClockReads w) as [|n]; [lia|].
  destruct Hst as (k & Hk & ->).
  pose proof (Hmono k n ltac:(lia)).
  apply Z.div_pos; lia.
Qed.

Lemma same_clock_refl (w : TWorld) : same_clock w w.
Proof.
  repeat split.
Qed.

Lemma same_clock_sane (w w' : TWorld) :
  same_clock w w' -> clock_sane w -> clock_sane w' /\ sync_now w' = sync_now w.
Proof.
  intros (Hc & Hn & Hs) H. unfold clock_sane, sync_now in *.
  rewrite Hc, Hn, Hs. split; [exact H|reflexivity].
Qed.

Lemma SendPacket_same_clock (p : CAppleMIDIParticipant) (pSocket : TSocket) (nPort : Z)
    (pData : list byte) (nSize : Z) (w : TWorld) :
  same_clock w (snd (fst (SendPacket p pSocket nPort pData nSize w))).
Proof.
  unfold SendPacket. unfold_M. cbv beta iota zeta.
  destruct (_ <? 0); [repeat split|].
  destruct (negb _); repeat split.
Qed.

Lemma GetSyncClock_advances (w : TWorld) :
  clock_sane w ->
  clock_sane (snd (fst (GetSyncClock w)))
  /\ sync_now w <= fst (fst (GetSyncClock w))
  /\ sync_now (snd (fst (GetSyncClock w))) = fst (fst (GetSyncClock w)).
Proof.
  destruct w as [ct nc st rn nr sr ns].
  unfold clock_sane, sync_now. cbn [ClockTicks nClockReads nStartTime].
  intros (Hmono & Hrange & Hst).
  unfold_M. cbn [ClockTicks nClockReads nStartTime].
  destruct st as [t0|]; cbn [fst snd ClockTicks nClockReads nStartTime].
  - destruct Hst as (k & Hk & ->).
    pose proof (Hrange nc) as Hr. pose proof (Hrange k) as Hrk.
    pose proof (Hmono k nc ltac:(lia)) as Hm.
    unfold wrap.
    rewrite (Z.mod_small (ct nc)) by lia.
    rewrite (Z.mod_small (ct nc - ct k)) by lia.
    split; [|split].
    + repeat split; try apply Hmono || apply Hrange; auto.
      exists k. split; [lia|reflexivity].
    + destruct nc as [|n]; [lia|].
      pose proof (Hmono n (S n) ltac:(lia)).
      apply Z.div_le_mono; lia.
    + reflexivity.
  - pose proof (Hrange nc) as Hr. pose proof (Hrange (S nc)) as Hr1.
    pose proof (Hmono nc (S nc) ltac:(lia)) as Hm.
    unfold wrap.
    rewrite (Z.mod_small (ct nc)) by lia.
    rewrite (Z.mod_small (ct (S nc))) by lia.
    rewrite (Z.mod_small (ct (S nc) - ct nc)) by lia.
    split; [|split].
    + repeat split; try apply Hmono || apply Hrange; auto.
      exists nc. split; [lia|reflexivity].
    + apply Z.div_pos; lia.
    + reflexivity.
Qed.

Lemma timely_same_clock (p : CAppleMIDIParticipant) (w w' : TWorld) :
  same_clock w w' -> timely p w -> timely p w'.
Proof.
  intros Hc (Hs & Hl & Hf).
  destruct (same_clock_sane w w' Hc Hs) as [Hs' E].
  unfold timely. rewrite E. auto.
Qed.

Lemma timely_Reset (p : CAppleMIDIParticipant) (w : TWorld) :
  timely p w -> timely (Reset p) w.
Proof.
  intros (Hs & _ & _). pose proof (sync_now_nonneg w Hs).
  unfold timely. cbn [Reset m_nLastSyncTime m_nLastFeedbackTime].
  split; [exact Hs|]. lia.
Qed.

Lemma timely_GetSyncClock (p : CAppleMIDIParticipant) (w : TWorld) :
  timely p w ->
  timely p (snd (fst (GetSyncClock w)))
  /\ timely (set_nLastSyncTime (fst (fst (GetSyncClock w))) p) (snd (fst (GetSyncClock w)))
  /\ m_nLastSyncTime p <= fst (fst (GetSyncClock w))
  /\ fst (fst (GetSyncClock w)) = sync_now (snd (fst (GetSyncClock w))).
Proof.
  intros (Hs & Hl & Hf).
  destruct (GetSyncClock_advances w Hs) as (Hs' & Hle & Heq).
  unfold timely. cbn [set_nLastSyncTime m_nLastSyncTime m_nLastFeedbackTime].
  rewrite Heq.
  split; [split; [exact Hs'|lia]|].
  split; [split; [exact Hs'|lia]|].
  lia.
Qed.

Lemma ControlInvitationState_timely (p : CAppleMIDIParticipant) (w : TWorld) :
  timely p w ->
  timely (fst (fst (ControlInvitationState p w))) (snd (fst (ControlInvitationState p w)))
  /\ m_nLastSyncTime p <= m_nLastSyncTime (fst (fst (ControlInvitationState p w))).
Proof.
  intros Ht.
  remember (ControlInvitationState p w) as r eqn:Er.
  unfold ControlInvitationState in Er.
  destruct (m_nControlResult p =? 0); [subst r; split; [exact Ht|cbn; lia]|].
  destruct (ParseInvitationPacket _ _) as [pkt|];
    [|subst r; split; [exact Ht|cbn; lia]].
  unfold bind at 1 in Er. unfold GetNumber at 1 in Er. cbv beta iota zeta in Er.
  set (w1 := mkWorld _ _ _ _ _ _ _) in Er.
  set (p1 := set_nSSRC _ _) in Er.
  assert (Ht1 : timely p1 w1).
  { apply (timely_same_clock p w w1); [repeat split|exact Ht]. }
  assert (Hl1 : m_nLastSyncTime p1 = m_nLastSyncTime p) by reflexivity.
  rewrite SendAcceptInvitationPacket_eq in Er.
  pose proof (SendPacket_same_clock p1 ControlSocket (m_nInitiatorControlPort p1)
                (memory_TAppleMIDIInvitation (AcceptPacket p1)) 24 w1) as Hc.
  clearbody p1 w1. unfold bind, Write, ret in Er.
  destruct (SendPacket _ _ _ _ _ _) as [[b w2] ev2]. cbn [fst snd] in Hc.
  pose proof (timely_same_clock p1 w1 w2 Hc Ht1) as Ht2.
  destruct b; cbn [negb] in Er.
  - pose proof (timely_GetSyncClock p1 w2 Ht2) as (_ & Hset & Hle & _).
    destruct (GetSyncClock w2) as [[c w3] ev3]. cbn [fst snd] in Hset, Hle.
    subst r. cbn [fst snd]. split; [exact Hset|].
    cbn [set_State set_nLastSyncTime m_nLastSyncTime]. lia.
  - subst r. cbn [fst snd]. split; [exact Ht2|lia].
Qed.

Lemma MIDIInvitationState_timely (p : CAppleMIDIParticipant) (w : TWorld) :
  timely p w ->
  timely (fst (fst (MIDIInvitationState p w))) (snd (fst (MIDIInvitationState p w)))
  /\ (m_nLastSyncTime p <= m_nLastSyncTime (fst (fst (MIDIInvitationState p w)))
      \/ fst (fst (MIDIInvitationState p w)) = Reset p).
Proof.
  intros Ht.
  remember (MIDIInvitationState p w) as r eqn:Er.
  unfold MIDIInvitationState in Er.
  destruct (m_nMIDIResult p >? 0).
  - destruct (ParseInvitationPacket _ _) as [pkt|];
      [|subst r; split; [exact Ht|left; cbn; lia]].
    rewrite SendAcceptInvitationPacket_eq in Er.
    pose proof (SendPacket_same_clock p ControlSocket (m_nInitiatorMIDIPort p)
                  (memory_TAppleMIDIInvitation (AcceptPacket p)) 24 w) as Hc.
    unfold bind, Write, ret in Er.
    destruct (SendPacket _ _ _ _ _ _) as [[b w2] ev2]. cbn [fst snd] in Hc.
    pose proof (timely_same_clock p w w2 Hc Ht) as Ht2.
    destruct b.
    + pose proof (timely_GetSyncClock p w2 Ht2) as (_ & Hset & Hle & _).
      destruct (GetSyncClock w2) as [[c w3] ev3]. cbn [fst snd] in Hset, Hle.
      subst r. cbn [fst snd]. split; [exact Hset|].
      left. cbn [set_State set_nLastSyncTime m_nLastSyncTime]. lia.
    + subst r. cbn [fst snd]. split; [apply timely_Reset; exact Ht2|right; reflexivity].
  - unfold bind, Write, ret in Er.
    pose proof (timely_GetSyncClock p w Ht) as (Hp & _ & _ & _).
    destruct (GetSyncClock w) as [[c w3] ev3]. cbn [fst snd] in Hp.
    destruct (_ >? SyncTimeout); subst r; cbn [fst snd].
    + split; [apply timely_Reset; exact Hp|right; reflexivity].
    + split; [exact Hp|left; lia].
Qed.

Lemma ConnectedState_MIDI_timely (p : CAppleMIDIParticipant) (w : TWorld) :
  timely p w ->
  timely (fst (fst (ConnectedState_MIDI p w))) (snd (fst (ConnectedState_MIDI p w)))
  /\ m_nLastSyncTime p <= m_nLastSyncTime (fst (fst (ConnectedState_MIDI p w))).
Proof.
  intros Ht.
  remember (ConnectedState_MIDI p w) as r eqn:Er.
  unfold ConnectedState_MIDI in Er.
  destruct (m_nMIDIResult p >? 0); [|subst r; split; [exact Ht|cbn; lia]].
  destruct (ParseMIDIPacket _ _) as [[[pkt off] size]|].
  { destruct (m_pReceiveHandler _); subst r; (split; [exact Ht|cbn; lia]). }
  destruct (ParseSyncPacket _ _) as [sp|]; [|subst r; split; [exact Ht|cbn; lia]].
  destruct (sync_nTimestamps sp) as [[t1 t2] t3].
  destruct (sync_nSSRC sp =? m_nInitiatorSSRC p);
    [|subst r; split; [exact Ht|cbn; lia]].
  destruct (sync_nCount sp =? 0).
  - cbn [andb orb] in Er. unfold bind, ret in Er.
    pose proof (timely_GetSyncClock p w Ht) as (Hp1 & _ & _ & _).
    destruct (GetSyncClock w) as [[c1 w1] ev1]. cbn [fst snd] in Hp1.
    unfold SendSyncPacket in Er.
    pose proof (SendPacket_same_clock p ControlSocket (m_nInitiatorMIDIPort p)
                  (memory_TAppleMIDISync (SyncPacket p t1 c1)) sizeof_TAppleMIDISync w1) as Hc.
    destruct (SendPacket _ _ _ _ _ _) as [[b w2] ev2]. cbn [fst snd] in Hc.
    pose proof (timely_same_clock p w1 w2 Hc Hp1) as Ht2.
    pose proof (timely_GetSyncClock p w2 Ht2) as (_ & Hset & Hle & _).
    destruct (GetSyncClock w2) as [[c w3] ev3]. cbn [fst snd] in Hset, Hle.
    subst r. cbn [fst snd]. split; [exact Hset|].
    cbn [set_nLastSyncTime m_nLastSyncTime]. lia.
  - destruct (sync_nCount sp =? 2); [|subst r; split; [exact Ht|cbn; lia]].
    cbn [andb orb] in Er. unfold bind, Write, ret in Er.
    set (p1 := set_nOffsetEstimate _ p) in Er.
    assert (Ht1 : timely p1 w) by exact Ht.
    assert (Hl1 : m_nLastSyncTime p1 = m_nLastSyncTime p) by reflexivity.
    clearbody p1.
    pose proof (timely_GetSyncClock p1 w Ht1) as (_ & Hset & Hle & _).
    destruct (GetSyncClock w) as [[c w3] ev3]. cbn [fst snd] in Hset, Hle.
    subst r. cbn [fst snd]. split; [exact Hset|].
    cbn [set_nLastSyncTime m_nLastSyncTime]. lia.
Qed.

Lemma ConnectedState_Feedback_timely (p : CAppleMIDIParticipant) (w : TWorld) :
  timely p w ->
  timely (fst (fst (ConnectedState_Feedback (sync_now w) p w)))
         (snd (fst (ConnectedState_Feedback (sync_now w) p w)))
  /\ m_nLastSyncTime (fst (fst (ConnectedState_Feedback (sync_now w) p w)))
     = m_nLastSyncTime p.
Proof.
  intros Ht.
  destruct (ConnectedState_Feedback_cases (sync_now w) p w)
    as [[_ E] | [(_ & _ & E) | (_ & _ & E)]]; rewrite E; cbn [fst snd].
  - split; [exact Ht|reflexivity].
  - split; [|reflexivity].
    destruct Ht as (Hs & Hl & Hf). pose proof (sync_now_nonneg w Hs).
    unfold timely. cbn [set_nLastFeedbackTime m_nLastSyncTime m_nLastFeedbackTime].
    split; [exact Hs|]. lia.
  - split; [|reflexivity].
    pose proof (SendPacket_same_clock p ControlSocket (m_nInitiatorMIDIPort p)
                  (memory_TAppleMIDIReceiverFeedback (FeedbackPacket p))
                  sizeof_TAppleMIDIReceiverFeedback w) as Hc.
    unfold SendFeedbackPacket.
    destruct (SendPacket _ _ _ _ _ _) as [[b w2] ev2]. cbn [fst snd] in Hc |- *.
    destruct Ht as (Hs & Hl & Hf). pose proof (sync_now_nonneg w Hs).
    destruct (same_clock_sane w w2 Hc Hs) as [Hs2 E2].
    unfold timely.
    cbn [set_nLastFeedbackTime set_nLastFeedbackSequence m_nLastSyncTime m_nLastFeedbackTime].
    rewrite E2. split; [exact Hs2|]. lia.
Qed.

Lemma ConnectedState_timely (p : CAppleMIDIParticipant) (w : TWorld) :
  timely p w ->
  timely (fst (fst (ConnectedState p w))) (snd (fst (ConnectedState p w)))
  /\ (m_nLastSyncTime p <= m_nLastSyncTime (fst (fst (ConnectedState p w)))
      \/ exists q, fst (fst (ConnectedState p w)) = Reset q).
Proof.
  intros Ht.
  rewrite ConnectedState_blocks.
  destruct (ConnectedState_Control_cases p w) as [E|E]; rewrite E.
  { cbn [fst snd]. split; [apply timely_Reset; exact Ht|right; exists p; reflexivity]. }
  pose proof (ConnectedState_MIDI_timely p w Ht) as [Ht1 Hl1].
  destruct (ConnectedState_MIDI p w) as [[p1 w1] ev1]. cbn [fst snd] in Ht1, Hl1.
  pose proof (timely_GetSyncClock p1 w1 Ht1) as (Ht2 & _ & _ & Hnow).
  destruct (GetSyncClock w1) as [[nTicks w2] ev2]. cbn [fst snd] in Ht2, Hnow.
  subst nTicks.
  pose proof (ConnectedState_Feedback_timely p1 w2 Ht2) as [Ht3 Hl3].
  destruct (ConnectedState_Feedback (sync_now w2) p1 w2) as [[p3 w3] ev3].
  cbn [fst snd] in Ht3, Hl3.
  destruct (ConnectedState_Timeout_cases (sync_now w2) p3 w3) as [Et|Et]; rewrite Et;
    cbn [fst snd].
  - split; [apply timely_Reset; exact Ht3|right; exists p3; reflexivity].
  - split; [exact Ht3|left; lia].
Qed.

Lemma GetSyncClock_epoch (w : TWorld) :
  nStartTime (snd (fst (GetSyncClock w)))
  = Some (match nStartTime w with
          | Some t0 => t0
          | None => wrap 64 (ClockTicks w (nClockReads w))
          end)
  /\ nClockReads (snd (fst (GetSyncClock w)))
     = match nStartTime w with
       | Some _ => S (nClockReads w)
       | None => S (S (nClockReads w))
       end
  /\ ClockTicks (snd (fst (GetSyncClock w))) = ClockTicks w.
Proof.
  destruct w as [ct nc st rn nr sr ns].
  unfold_M. cbn [ClockTicks nClockReads nStartTime].
  destruct st as [t0|]; cbn [fst snd ClockTicks nClockReads nStartTime];
    repeat split.
Qed.

(** X18.  The sync clock under a clock that does not run backwards.  The
    epoch is the first clock reading of the first call and is never
    assigned again; the first call takes a second reading and returns the
    time between the two.  Every reading is non-negative, and a reading is
    never smaller than the one before it. *)
Theorem GetSyncClock_monotone (w : TWorld) :
  clock_sane w ->
  clock_sane (snd (fst (GetSyncClock w)))
  /\ 0 <= sync_now w <= fst (fst (GetSyncClock w))
  /\ fst (fst (GetSyncClock w)) <= fst (fst (GetSyncClock (snd (fst (GetSyncClock w)))))
  /\ nStartTime (snd (fst (GetSyncClock w)))
     = Some (match nStartTime w with
             | Some t0 => t0
             | None => ClockTicks w (nClockReads w)
             end)
  /\ nStartTime (snd (fst (GetSyncClock (snd (fst (GetSyncClock w))))))
     = nStartTime (snd (fst (GetSyncClock w)))
  /\ (nStartTime w = None ->
      fst (fst (GetSyncClock w))
      = (ClockTicks w (S (nClockReads w)) - ClockTicks w (nClockReads w)) / 100).
Proof.
  intros Hs.
  destruct (GetSyncClock_advances w Hs) as (Hs1 & Hle1 & Heq1).
  destruct (GetSyncClock_advances _ Hs1) as (Hs2 & Hle2 & Heq2).
  pose proof (sync_now_nonneg w Hs) as H0.
  destruct (GetSyncClock_epoch w) as (He1 & _ & _).
  destruct (GetSyncClock_epoch (snd (fst (GetSyncClock w)))) as (He2 & _ & _).
  split; [exact Hs1|]. split; [lia|]. split; [lia|].
  split; [|split].
  - rewrite He1. destruct (nStartTime w); [reflexivity|].
    destruct Hs as (_ & Hrange & _).
    unfold wrap. rewrite Z.mod_small by apply Hrange. reflexivity.
  - rewrite He2, He1. reflexivity.
  - intros Hn. destruct Hs as (Hmono & Hrange & _).
    destruct w as [ct nc st rn nr sr ns]. cbn [nStartTime ClockTicks nClockReads] in *.
    subst st. unfold_M. cbn [fst snd ClockTicks nClockReads nStartTime].
    pose proof (Hrange nc). pose proof (Hrange (S nc)).
    pose proof (Hmono nc (S nc) ltac:(lia)).
    unfold wrap.
    rewrite (Z.mod_small (ct nc)) by lia.
    rewrite (Z.mod_small (ct (S nc))) by lia.
    rewrite (Z.mod_small (ct (S nc) - ct nc)) by lia.
    reflexivity.
Qed.

Lemma clock_sane_WorldBounded : clock_sane WorldBounded.
Proof.
  unfold clock_sane, WorldBounded. cbn [ClockTicks nClockReads nStartTime].
  change (2 ^ 62) with 4611686018427387904.
  change (2 ^ 64) with 18446744073709551616.
  repeat split; try lia.
Qed.

Lemma GetSyncClock_monotone_witness :
  fst (fst (GetSyncClock WorldBounded))
  <= fst (fst (GetSyncClock (snd (fst (GetSyncClock WorldBounded))))).
Proof.
  exact (proj1 (proj2 (proj2 (GetSyncClock_monotone WorldBounded clock_sane_WorldBounded)))).
Defined.

Lemma timely_received (tick : TTick) (p : CAppleMIDIParticipant) (w : TWorld) :
  timely p w ->
  timely (received tick p) w /\ timely (ReceiveControl (ControlReceive tick) p) w.
Proof.
  intros Ht. unfold timely in *.
  unfold received, ReceiveMIDI, ReceiveControl.
  destruct (ReceiveFrom _ _ _ _) as [[[n1 b1] i1] q1].
  cbn [m_MIDIBuffer m_InitiatorIPAddress m_nInitiatorMIDIPort].
  destruct (ReceiveFrom _ _ _ _) as [[[n2 b2] i2] q2].
  split; exact Ht.
Qed.

Lemma Dispatch_timely (p : CAppleMIDIParticipant) (w : TWorld) :
  timely p w ->
  timely (fst (fst (Dispatch p w))) (snd (fst (Dispatch p w)))
  /\ (m_nLastSyncTime p <= m_nLastSyncTime (fst (fst (Dispatch p w)))
      \/ exists q, fst (fst (Dispatch p w)) = Reset q).
Proof.
  intros Ht. unfold Dispatch. destruct (m_State p).
  - destruct (ControlInvitationState_timely p w Ht) as [H1 H2]. split; [exact H1|left; exact H2].
  - destruct (MIDIInvitationState_timely p w Ht) as [H1 [H2|H2]].
    + split; [exact H1|left; exact H2].
    + split; [exact H1|right; exists p; exact H2].
  - apply ConnectedState_timely. exact Ht.
Qed.

Lemma Run_iteration_timely (tick : TTick) (p : CAppleMIDIParticipant) (w : TWorld) :
  timely p w ->
  timely (snd (fst (fst (Run_iteration tick p w)))) (snd (fst (Run_iteration tick p w)))
  /\ (m_nLastSyncTime p <= m_nLastSyncTime (snd (fst (fst (Run_iteration tick p w))))
      \/ exists q, snd (fst (fst (Run_iteration tick p w))) = Reset q).
Proof.
  intros Ht.
  destruct (timely_received tick p w Ht) as [Hr Hc].
  destruct (received_session tick p) as (_ & Hls & _).
  rewrite Run_iteration_closed.
  destruct (is_error (ControlReceive tick)).
  { cbn [fst snd]. split; [exact Hc|left].
    unfold ReceiveControl. destruct (ReceiveFrom _ _ _ _) as [[[n1 b1] i1] q1].
    cbn [m_nLastSyncTime]. lia. }
  destruct (is_error (MIDIReceive tick)).
  { cbn [fst snd]. split; [exact Hr|left; lia]. }
  pose proof (Dispatch_timely (received tick p) w Hr) as [H1 H2].
  destruct (Dispatch _ w) as [[p' w'] ev']. cbn [fst snd] in *.
  split; [exact H1|]. rewrite Hls in H2. exact H2.
Qed.

Lemma Run_timely (ticks : list TTick) (p : CAppleMIDIParticipant) (w : TWorld) :
  timely p w -> timely (participant_after ticks p w) (world_after ticks p w).
Proof.
  unfold participant_after, world_after.
  revert p w. induction ticks as [|t l IH]; intros p w Ht; [exact Ht|].
  cbn [Run]. unfold bind.
  pose proof (Run_iteration_timely t p w Ht) as [H1 _].
  destruct (Run_iteration t p w) as [[[b0 p0] w0] ev0]. cbn [fst snd] in H1.
  destruct b0; [exact H1|].
  specialize (IH p0 w0 H1).
  destruct (Run l p0 w0) as [[[b1 p1] w1] ev1]. exact IH.
Qed.

(** X19.  With a clock that does not run backwards, the time stamps of the
    participant stay behind the sync clock along every execution: the last
    sync time and the last feedback time are readings that have been taken.
    So the unsigned subtractions of the timeout and feedback tests never
    wrap: at the next reading they give the time that has passed. *)
Theorem time_stamps_behind_clock (ticks : list TTick) (p : CAppleMIDIParticipant)
    (w : TWorld) :
  timely p w ->
  timely (participant_after ticks p w) (world_after ticks p w)
  /\ wrap 64 (fst (fst (GetSyncClock (world_after ticks p w)))
              - m_nLastSyncTime (participant_after ticks p w))
     = fst (fst (GetSyncClock (world_after ticks p w)))
       - m_nLastSyncTime (participant_after ticks p w)
  /\ wrap 64 (fst (fst (GetSyncClock (world_after ticks p w)))
              - m_nLastFeedbackTime (participant_after ticks p w))
     = fst (fst (GetSyncClock (world_after ticks p w)))
       - m_nLastFeedbackTime (participant_after ticks p w).
Proof.
  intros Ht. pose proof (Run_timely ticks p w Ht) as H.
  split; [exact H|].
  destruct H as (Hs & Hl & Hf).
  destruct (GetSyncClock_advances _ Hs) as (_ & Hle & _).
  pose proof (GetSyncClock_range (world_after ticks p w)) as Hr.
  unfold wrap. split; apply Z.mod_small; lia.
Qed.

Lemma timely_Construct_WorldBounded : timely Construct WorldBounded.
Proof.
  split; [exact clock_sane_WorldBounded|].
  unfold sync_now. cbn. lia.
Qed.

Lemma time_stamps_behind_clock_witness :
  timely (participant_after [ControlInvitationTick; MIDIInvitationTick] Construct WorldBounded)
         (world_after [ControlInvitationTick; MIDIInvitationTick] Construct WorldBounded).
Proof.
  exact (proj1 (time_stamps_behind_clock [ControlInvitationTick; MIDIInvitationTick]
                  Construct WorldBounded timely_Construct_WorldBounded)).
Defined.

(** X20.  With a clock that does not run backwards the last sync time never
    decreases during a session: an iteration leaves it as it was, advances
    it, or ends the session with [Reset]. *)
Theorem last_sync_time_monotone (tick : TTick) (p : CAppleMIDIParticipant) (w : TWorld) :
  timely p w ->
  m_nLastSyncTime p <= m_nLastSyncTime (snd (fst (fst (Run_iteration tick p w))))
  \/ (exists q : CAppleMIDIParticipant,
        snd (fst (fst (Run_iteration tick p w))) = Reset q
        /\ session_cleared (Reset q)).
Proof.
  intros Ht.
  destruct (Run_iteration_timely tick p w Ht) as [_ [H | [q H]]].
  - left. exact H.
  - right. exists q. split; [exact H|apply Reset_clears].
Qed.

Lemma last_sync_time_monotone_witness :
  m_nLastSyncTime Construct
  <= m_nLastSyncTime (snd (fst (fst (Run_iteration ControlInvitationTick Construct WorldBounded))))
  \/ (exists q : CAppleMIDIParticipant,
        snd (fst (fst (Run_iteration ControlInvitationTick Construct WorldBounded))) = Reset q
        /\ session_cleared (Reset q)).
Proof.
  exact (last_sync_time_monotone ControlInvitationTick Construct WorldBounded
           timely_Construct_WorldBounded).
Defined.

(** ** The widths of the session members *)

Lemma wrap_range (bits x : Z) : 0 <= bits -> 0 <= wrap bits x < 2 ^ bits.
Proof.
  intros Hb. unfold wrap. apply Z.mod_pos_bound. apply Z.pow_pos_nonneg; lia.
Qed.

Lemma ParseInvitationPacket_ranges (pBuffer : list byte) (nSize : Z)
    (pkt : TAppleMIDIInvitation) :
  ParseInvitationPacket pBuffer nSize = Some pkt ->
  0 <= inv_nInitiatorToken pkt < 2 ^ 32 /\ 0 <= inv_nSSRC pkt < 2 ^ 32.
Proof.
  rewrite ParseInvitationPacket_closed.
  destruct (_ && _); [|discriminate].
  intros H. injection H as <-. cbn [inv_nInitiatorToken inv_nSSRC].
  split; apply wire_u32_range.
Qed.

Lemma ControlInvitationState_in_range (p : CAppleMIDIParticipant) (w : TWorld) :
  in_range p -> in_range (fst (fst (ControlInvitationState p w))).
Proof.
  intros Hr.
  remember (ControlInvitationState p w) as r eqn:Er.
  unfold ControlInvitationState in Er.
  destruct (m_nControlResult p =? 0); [subst r; exact Hr|].
  destruct (ParseInvitationPacket _ _) as [pkt|] eqn:Hp; [|subst r; exact Hr].
  destruct (ParseInvitationPacket_ranges _ _ _ Hp) as [Htok Hssrc].
  unfold bind at 1 in Er. unfold GetNumber at 1 in Er. cbv beta iota zeta in Er.
  set (w1 := mkWorld _ _ _ _ _ _ _) in Er.
  pose proof (wrap_range 32 (RandomNumbers w (nRandomReads w)) ltac:(lia)) as Hn.
  set (v := wrap 32 _) in *.
  set (p1 := set_nSSRC _ _) in Er.
  assert (H1 : in_range p1) by (subst p1; ranges).
  clearbody p1 w1 v. unfold bind, Write, ret in Er.
  destruct (SendAcceptInvitationPacket _ _ _ _) as [[b w2] ev2].
  destruct b; cbn [negb] in Er; [|subst r; exact H1].
  pose proof (GetSyncClock_range w2) as Hc.
  destruct (GetSyncClock w2) as [[c w3] ev3]. cbn [fst] in Hc.
  subst r. cbn [fst]. ranges.
Qed.

Lemma MIDIInvitationState_in_range (p : CAppleMIDIParticipant) (w : TWorld) :
  in_range p -> in_range (fst (fst (MIDIInvitationState p w))).
Proof.
  intros Hr.
  remember (MIDIInvitationState p w) as r eqn:Er.
  unfold MIDIInvitationState in Er.
  destruct (m_nMIDIResult p >? 0).
  - destruct (ParseInvitationPacket _ _) as [pkt|]; [|subst r; exact Hr].
    unfold bind, Write, ret in Er.
    destruct (SendAcceptInvitationPacket _ _ _ _) as [[b w2] ev2].
    destruct b; [|subst r; cbn [fst]; ranges].
    pose proof (GetSyncClock_range w2) as Hc.
    destruct (GetSyncClock w2) as [[c w3] ev3]. cbn [fst] in Hc.
    subst r. cbn [fst]. ranges.
  - unfold bind, Write, ret in Er.
    destruct (GetSyncClock w) as [[c w3] ev3].
    destruct (_ >? SyncTimeout); subst r; cbn [fst]; [ranges|exact Hr].
Qed.

Lemma ConnectedState_MIDI_in_range (p : CAppleMIDIParticipant) (w : TWorld) :
  in_range p -> in_range (fst (fst (ConnectedState_MIDI p w))).
Proof.
  intros Hr.
  remember (ConnectedState_MIDI p w) as r eqn:Er.
  unfold ConnectedState_MIDI in Er.
  destruct (m_nMIDIResult p >? 0); [|subst r; exact Hr].
  destruct (ParseMIDIPacket _ _) as [[[pkt off] size]|] eqn:Hp.
  { destruct (ParseMIDIPacket_accepts _ _ _ _ _ Hp) as [_ Hseq].
    pose proof (wire_u16_range (m_MIDIBuffer p) 2) as Hw. rewrite <- Hseq in Hw.
    unfold bind, ReceiveHandler, ret in Er.
    destruct (m_pReceiveHandler _); subst r; cbn [fst]; ranges. }
  destruct (ParseSyncPacket _ _) as [sp|]; [|subst r; exact Hr].
  destruct (sync_nTimestamps sp) as [[t1 t2] t3].
  destruct (sync_nSSRC sp =? m_nInitiatorSSRC p); [|subst r; exact Hr].
  destruct (sync_nCount sp =? 0).
  - cbn [andb orb] in Er. unfold bind, ret in Er.
    destruct (GetSyncClock w) as [[c1 w1] ev1].
    destruct (SendSyncPacket p t1 c1 w1) as [[b w2] ev2].
    pose proof (GetSyncClock_range w2) as Hc.
    destruct (GetSyncClock w2) as [[c w3] ev3]. cbn [fst] in Hc.
    subst r. cbn [fst]. ranges.
  - destruct (sync_nCount sp =? 2); [|subst r; exact Hr].
    cbn [andb orb] in Er. unfold bind, Write, ret in Er.
    pose proof (wrap_range 64 (wrap 64 (t3 + t1) / 2 - t2) ltac:(lia)) as Hx.
    set (x := wrap 64 (wrap 64 (t3 + t1) / 2 - t2)) in *. clearbody x.
    pose proof (GetSyncClock_range w) as Hc.
    destruct (GetSyncClock w) as [[c w3] ev3]. cbn [fst] in Hc.
    subst r. cbn [fst]. ranges.
Qed.

Lemma ConnectedState_in_range (p : CAppleMIDIParticipant) (w : TWorld) :
  in_range p -> in_range (fst (fst (ConnectedState p w))).
Proof.
  intros Hr.
  rewrite ConnectedState_blocks.
  destruct (ConnectedState_Control_cases p w) as [E|E]; rewrite E; [cbn [fst]; ranges|].
  pose proof (ConnectedState_MIDI_in_range p w Hr) as H1.
  destruct (ConnectedState_MIDI p w) as [[p1 w1] ev1]. cbn [fst] in H1.
  pose proof (GetSyncClock_range w1) as Hc.
  destruct (GetSyncClock w1) as [[nTicks w2] ev2]. cbn [fst] in Hc.
  assert (H3 : in_range (fst (fst (ConnectedState_Feedback nTicks p1 w2)))).
  { destruct (ConnectedState_Feedback_cases nTicks p1 w2)
      as [[_ Ef] | [(_ & _ & Ef) | (_ & _ & Ef)]]; rewrite Ef; cbn [fst];
      [exact H1 | ranges | ranges]. }
  destruct (ConnectedState_Feedback nTicks p1 w2) as [[p3 w3] ev3]. cbn [fst] in H3.
  destruct (ConnectedState_Timeout_cases nTicks p3 w3) as [Et|Et]; rewrite Et; cbn [fst];
    [ranges|exact H3].
Qed.

Lemma in_range_received (tick : TTick) (p : CAppleMIDIParticipant) :
  in_range p ->
  in_range (received tick p) /\ in_range (ReceiveControl (ControlReceive tick) p).
Proof.
  intros Hr. unfold in_range in *.
  unfold received, ReceiveMIDI, ReceiveControl.
  destruct (ReceiveFrom _ _ _ _) as [[[n1 b1] i1] q1].
  cbn [m_MIDIBuffer m_InitiatorIPAddress m_nInitiatorMIDIPort].
  destruct (ReceiveFrom _ _ _ _) as [[[n2 b2] i2] q2].
  split; exact Hr.
Qed.

(** X21.  Along every execution each session member holds a value of its
    declared width: the token and the SSRCs are 32-bit values, the sequence
    numbers 16-bit values, the offset estimate and the time stamps 64-bit
    values.  The constructed participant starts there. *)
Theorem Run_keeps_ranges (ticks : list TTick) (p : CAppleMIDIParticipant) (w : TWorld) :
  in_range Construct
  /\ (in_range p -> in_range (participant_after ticks p w)).
Proof.
  split; [unfold Construct; ranges|].
  unfold participant_after.
  revert p w. induction ticks as [|t l IH]; intros p w Hr; [exact Hr|].
  cbn [Run]. unfold bind. rewrite Run_iteration_closed.
  destruct (in_range_received t p Hr) as [H1 H2].
  destruct (is_error (ControlReceive t)); [exact H2|].
  destruct (is_error (MIDIReceive t)); [exact H1|].
  assert (Hd : in_range (fst (fst (Dispatch (received t p) w)))).
  { unfold Dispatch. destruct (m_State (received t p)).
    - apply ControlInvitationState_in_range; exact H1.
    - apply MIDIInvitationState_in_range; exact H1.
    - apply ConnectedState_in_range; exact H1. }
  destruct (Dispatch _ w) as [[p' w'] ev']. cbn [fst] in Hd.
  specialize (IH p' w' Hd).
  destruct (Run l p' w') as [[[b1 p1] w1] ev1]. exact IH.
Qed.

Lemma Run_keeps_ranges_witness :
  in_range (participant_after [ControlInvitationTick; MIDIInvitationTick] Construct World0).
Proof.
  apply (proj2 (Run_keeps_ranges [ControlInvitationTick; MIDIInvitationTick]
                  Construct World0)).
  vm_compute. repeat split; discriminate.
Defined.

(** ** The sockets *)

(** X22.  [Initialize] on a constructed participant returns true exactly
    when both [new] return an object and both [Bind] return 0, and exactly
    then it calls [Start], as its last action.  The control socket is bound
    to port 5000 first; the data socket is bound to port 5001 only when
    that has succeeded.  [Initialize] deletes nothing: the objects created
    before a failure stay in the members. *)
Theorem Initialize_result (NewControl NewMIDI : option nat) (BindControl BindMIDI : Z) :
  let '(bResult, s, ev) :=
    Initialize NewControl NewMIDI BindControl BindMIDI Construct_sockets in
  (bResult = true <->
   (exists pControl pMIDI : nat,
      NewControl = Some pControl /\ NewMIDI = Some pMIDI
      /\ BindControl = 0 /\ BindMIDI = 0
      /\ ev = [EvNew (Some pControl); EvNew (Some pMIDI); EvBind pControl 5000;
               EvBind pMIDI 5001; EvStart]))
  /\ (In EvStart ev <-> bResult = true)
  /\ (forall (h : nat) (nPort : Z),
        In (EvBind h nPort) ev ->
        (NewControl = Some h /\ nPort = 5000)
        \/ (NewMIDI = Some h /\ nPort = 5001 /\ BindControl = 0))
  /\ (forall h : nat, ~ In (EvDelete h) ev)
  /\ m_pControlSocket s = NewControl
  /\ m_pMIDISocket s = match NewControl with Some _ => NewMIDI | None => None end.
Proof.
  unfold Initialize, Construct_sockets.
  cbn [m_pControlSocket m_pMIDISocket].
  destruct NewControl as [c|]; [destruct NewMIDI as [m|]|];
    cbn [m_pControlSocket m_pMIDISocket];
    [destruct (Z.eqb_spec BindControl 0); [destruct (Z.eqb_spec BindMIDI 0)|]|..];
    cbn [negb];
    (split; [split; [try discriminate|]|]).
  all: try (intros (pc & pm & H1 & H2 & H3 & H4 & _); congruence).
  all: try (split; [split; [cbn [In]; intuition discriminate|try discriminate]|]).
  all: try (split; [intros h nPort Hin; cbn [In] in Hin;
                    repeat (destruct Hin as [Hin|Hin]; try discriminate Hin);
                    try contradiction;
                    injection Hin as <- <-; auto|]).
  all: try (split; [intros h Hin; cbn [In] in Hin; intuition discriminate|]).
  all: try (split; reflexivity).
  - intros _. exists c, m. repeat split; assumption.
  - intros _. cbn [In]. auto 10.
Qed.

(** X23.  Construction, [Initialize] and destruction together, whatever
    [new] and [Bind] return: the destructor never deletes the object of the
    data socket, and when both sockets were created it deletes the object of
    the control socket twice.  When only the control socket was created it
    is deleted once. *)
Theorem Destruct_after_Initialize (NewControl NewMIDI : option nat)
    (BindControl BindMIDI : Z) (pControl pMIDI : nat) :
  NewControl = Some pControl ->
  pMIDI <> pControl ->
  let s := snd (fst (Initialize NewControl NewMIDI BindControl BindMIDI Construct_sockets)) in
  (NewMIDI = Some pMIDI ->
   Destruct s = [EvDelete pControl; EvDelete pControl]
   /\ deletions pControl (Destruct s) = 2%nat
   /\ deletions pMIDI (Destruct s) = 0%nat)
  /\ (NewMIDI = None ->
      Destruct s = [EvDelete pControl]).
Proof.
  intros -> Hne s. subst s.
  assert (Hm : Nat.eqb pControl pMIDI = false) by (apply Nat.eqb_neq; congruence).
  split.
  - intros ->. unfold Initialize, Construct_sockets. cbn [m_pControlSocket m_pMIDISocket].
    destruct (negb (BindControl =? 0)); [|destruct (negb (BindMIDI =? 0))];
      cbn [fst snd]; unfold Destruct, delete, deletions;
      cbn [m_pControlSocket m_pMIDISocket filter app];
      rewrite ?Nat.eqb_refl, ?Hm; repeat split.
  - intros ->. reflexivity.
Qed.

Lemma Destruct_after_Initialize_witness :
  Destruct (snd (fst (Initialize (Some 1%nat) (Some 2%nat) 0 0 Construct_sockets)))
  = [EvDelete 1%nat; EvDelete 1%nat]
  /\ deletions 1%nat
       (Destruct (snd (fst (Initialize (Some 1%nat) (Some 2%nat) 0 0 Construct_sockets))))
     = 2%nat
  /\ deletions 2%nat
       (Destruct (snd (fst (Initialize (Some 1%nat) (Some 2%nat) 0 0 Construct_sockets))))
     = 0%nat.
Proof.
  apply (proj1 (Destruct_after_Initialize (Some 1%nat) (Some 2%nat) 0 0 1%nat 2%nat
                  eq_refl ltac:(discriminate)) eq_refl).
Defined.

(** ** Delivery to the sink *)

Lemma ConnectedState_MIDI_delivery (p : CAppleMIDIParticipant) (w : TWorld) :
  m_nMIDIResult p > 0 ->
  is_RTP_MIDI (m_MIDIBuffer p) = true ->
  ConnectedState_MIDI p w
  = (set_nSequence (wire_u16 (m_MIDIBuffer p) 2) p, w,
     if m_pReceiveHandler p
     then [EvReceiveHandler (SysEx_fixup [xf7] (payload (m_MIDIBuffer p)))]
     else []).
Proof.
  intros Hn Hrtp.
  unfold ConnectedState_MIDI.
  destruct (Z.gtb_spec (m_nMIDIResult p) 0); [|lia].
  rewrite ParseMIDIPacket_closed.
  unfold is_RTP_MIDI in Hrtp. rewrite Hrtp.
  pose proof (fixup_lines_correct (m_MIDIBuffer p)) as Hfix.
  destruct (fixup_lines _ _ _) as [off size].
  cbn [RTPHeader rtp_nSequence].
  change (m_pReceiveHandler (set_nSequence (wire_u16 (m_MIDIBuffer p) 2) p))
    with (m_pReceiveHandler p).
  change (m_MIDIBuffer (set_nSequence (wire_u16 (m_MIDIBuffer p) 2) p))
    with (m_MIDIBuffer p).
  rewrite Hfix.
  destruct (m_pReceiveHandler p); reflexivity.
Qed.

Lemma not_RTP_MIDI_no_sink (p : CAppleMIDIParticipant) (w : TWorld) (Data : list byte) :
  is_RTP_MIDI (m_MIDIBuffer p) = false ->
  ~ In (EvReceiveHandler Data) (snd (ConnectedState_MIDI p w)).
Proof.
  intros Hrtp.
  assert (Hp : ParseMIDIPacket (m_MIDIBuffer p) (m_nMIDIResult p) = None).
  { rewrite ParseMIDIPacket_closed. unfold is_RTP_MIDI in Hrtp. rewrite Hrtp. reflexivity. }
  destruct (ConnectedState_MIDI_cases p w)
    as [E | [(pkt & off & size & Hs & _) | [E | [(t1 & c1 & w1 & c & E) | (x & c & E)]]]];
    try congruence; rewrite E; cbn [snd In]; try tauto; try (intuition discriminate).
  unfold SendSyncPacket.
  destruct (SendPacket_events p ControlSocket (m_nInitiatorMIDIPort p)
              (memory_TAppleMIDISync (SyncPacket p t1 c1)) sizeof_TAppleMIDISync w1)
    as [E' | [E' | E']]; cbv zeta in E'; rewrite E'; cbn [In]; intuition discriminate.
Qed.

(** ** How much is sent *)

Lemma ControlInvitationState_sends (p : CAppleMIDIParticipant) (w : TWorld) :
  List.length (sent_data (snd (ControlInvitationState p w)))
  = if negb (m_nControlResult p =? 0)
       && accepts InvitationDecoder (m_ControlBuffer p) (m_nControlResult p)
    then 1%nat else 0%nat.
Proof.
  unfold accepts.
  destruct (Z.eqb_spec (m_nControlResult p) 0) as [E|Hn]; cbn [negb andb].
  { unfold ControlInvitationState. rewrite E. reflexivity. }
  destruct (ParseInvitationPacket _ _) as [pkt|] eqn:Hp.
  - destruct (ControlInvitationState_sent p w pkt Hn Hp) as (p1 & rest & _ & -> & Hrest & _).
    cbn [sent_data]. rewrite Hrest. reflexivity.
  - unfold ControlInvitationState.
    destruct (Z.eqb_spec (m_nControlResult p) 0); [contradiction|].
    rewrite Hp. reflexivity.
Qed.

Lemma MIDIInvitationState_sends (p : CAppleMIDIParticipant) (w : TWorld) :
  List.length (sent_data (snd (MIDIInvitationState p w)))
  = if (m_nMIDIResult p >? 0)
       && accepts InvitationDecoder (m_MIDIBuffer p) (m_nMIDIResult p)
    then 1%nat else 0%nat.
Proof.
  unfold accepts.
  destruct (Z.gtb_spec (m_nMIDIResult p) 0) as [Hn|Hn]; cbn [andb].
  - destruct (ParseInvitationPacket _ _) as [pkt|] eqn:Hp.
    + destruct (MIDIInvitationState_sent p w pkt ltac:(lia) Hp) as (rest & -> & Hrest).
      cbn [sent_data]. rewrite Hrest. reflexivity.
    + unfold MIDIInvitationState.
      destruct (Z.gtb_spec (m_nMIDIResult p) 0); [|lia].
      rewrite Hp. reflexivity.
  - unfold MIDIInvitationState.
    destruct (Z.gtb_spec (m_nMIDIResult p) 0); [lia|].
    unfold bind, Write, ret.
    pose proof (events_GetSyncClock w) as E.
    destruct (GetSyncClock w) as [[c w3] ev3]. cbn [snd] in E. subst ev3.
    destruct (_ >? SyncTimeout); reflexivity.
Qed.

Lemma ConnectedState_sends (p : CAppleMIDIParticipant) (w : TWorld) :
  (List.length (sent_data (snd (ConnectedState p w))) <= 2)%nat.
Proof.
  rewrite ConnectedState_blocks.
  destruct (ConnectedState_Control_cases p w) as [E|E]; rewrite E; [cbn; lia|].
  assert (Hm : (List.length (sent_data (snd (ConnectedState_MIDI p w))) <= 1)%nat).
  { destruct (ConnectedState_MIDI_cases p w)
      as [Em | [(pkt & off & size & _ & [Em|Em])
               | [Em | [(t1 & c1 & w1 & c & Em) | (x & c & Em)]]]];
      rewrite Em; cbn [snd sent_data List.length]; try lia.
    unfold SendSyncPacket. rewrite sent_data_SendPacket. cbn [List.length]. lia. }
  destruct (ConnectedState_MIDI p w) as [[p1 w1] ev1]. cbn [snd] in Hm.
  pose proof (events_GetSyncClock w1) as Ec.
  destruct (GetSyncClock w1) as [[nTicks w2] ev2]. cbn [snd] in Ec. subst ev2.
  assert (Hf : (List.length (sent_data (snd (ConnectedState_Feedback nTicks p1 w2))) <= 1)%nat).
  { destruct (ConnectedState_Feedback_cases nTicks p1 w2)
      as [[_ Ef] | [(_ & _ & Ef) | (_ & _ & Ef)]]; rewrite Ef;
      cbn [snd sent_data List.length]; try lia.
    unfold SendFeedbackPacket. rewrite sent_data_SendPacket. cbn [List.length]. lia. }
  destruct (ConnectedState_Feedback nTicks p1 w2) as [[p3 w3] ev3]. cbn [snd] in Hf.
  destruct (ConnectedState_Timeout_cases nTicks p3 w3) as [Et|Et]; rewrite Et;
    cbn [snd]; rewrite !sent_data_app, !length_app;
    cbn [trigger_log sent_data List.length]; lia.
Qed.

(** X25.  The participant sends only in answer.  In [ControlInvitation] an
    iteration sends one datagram when the control port delivered a frame the
    invitation decoder accepts, and none otherwise; in [MIDIInvitation] the
    same holds of the data port.  In [Connected] an iteration sends at most
    two datagrams, a sync reply and a feedback. *)
Theorem sends_per_iteration (p : CAppleMIDIParticipant) (w : TWorld) :
  (m_State p = ControlInvitation ->
   List.length (sent_data (snd (Dispatch p w)))
   = if negb (m_nControlResult p =? 0)
        && accepts InvitationDecoder (m_ControlBuffer p) (m_nControlResult p)
     then 1%nat else 0%nat)
  /\ (m_State p = MIDIInvitation ->
      List.length (sent_data (snd (Dispatch p w)))
      = if (m_nMIDIResult p >? 0)
           && accepts InvitationDecoder (m_MIDIBuffer p) (m_nMIDIResult p)
        then 1%nat else 0%nat)
  /\ (m_State p = Connected ->
      (List.length (sent_data (snd (Dispatch p w))) <= 2)%nat).
Proof.
  unfold Dispatch.
  split; [|split]; intros ->.
  - apply ControlInvitationState_sends.
  - apply MIDIInvitationState_sends.
  - apply ConnectedState_sends.
Qed.

Lemma sends_per_iteration_witness :
  List.length (sent_data (snd (Dispatch (received DataTick HalfOpen) World0))) = 0%nat.
Proof.
  exact (proj1 (proj2 (sends_per_iteration (received DataTick HalfOpen) World0)) eq_refl).
Defined.

(** ** When the sink is called *)

Lemma ControlInvitationState_handler (p : CAppleMIDIParticipant) (w : TWorld) :
  m_pReceiveHandler (fst (fst (ControlInvitationState p w))) = m_pReceiveHandler p.
Proof.
  remember (ControlInvitationState p w) as r eqn:Er.
  unfold ControlInvitationState in Er.
  destruct (m_nControlResult p =? 0); [subst r; reflexivity|].
  destruct (ParseInvitationPacket _ _) as [pkt|]; [|subst r; reflexivity].
  unfold bind at 1 in Er. unfold GetNumber at 1 in Er. cbv beta iota zeta in Er.
  set (w1 := mkWorld _ _ _ _ _ _ _) in Er.
  set (p1 := set_nSSRC _ _) in Er.
  assert (H1 : m_pReceiveHandler p1 = m_pReceiveHandler p) by reflexivity.
  clearbody p1 w1. unfold bind, Write, ret in Er.
  destruct (SendAcceptInvitationPacket _ _ _ _) as [[b w2] ev2].
  destruct b; cbn [negb] in Er; [|subst r; exact H1].
  destruct (GetSyncClock w2) as [[c w3] ev3]. subst r. exact H1.
Qed.

Lemma MIDIInvitationState_handler (p : CAppleMIDIParticipant) (w : TWorld) :
  m_pReceiveHandler (fst (fst (MIDIInvitationState p w))) = m_pReceiveHandler p.
Proof.
  remember (MIDIInvitationState p w) as r eqn:Er.
  unfold MIDIInvitationState in Er.
  destruct (m_nMIDIResult p >? 0).
  - destruct (ParseInvitationPacket _ _) as [pkt|]; [|subst r; reflexivity].
    unfold bind, Write, ret in Er.
    destruct (SendAcceptInvitationPacket _ _ _ _) as [[b w2] ev2].
    destruct b; [|subst r; reflexivity].
    destruct (GetSyncClock w2) as [[c w3] ev3]. subst r. reflexivity.
  - unfold bind, Write, ret in Er.
    destruct (GetSyncClock w) as [[c w3] ev3].
    destruct (_ >? SyncTimeout); subst r; reflexivity.
Qed.

Lemma ConnectedState_handler (p : CAppleMIDIParticipant) (w : TWorld) :
  m_pReceiveHandler (fst (fst (ConnectedState p w))) = m_pReceiveHandler p.
Proof.
  rewrite ConnectedState_blocks.
  destruct (ConnectedState_Control_cases p w) as [E|E]; rewrite E; [reflexivity|].
  assert (H1 : m_pReceiveHandler (fst (fst (ConnectedState_MIDI p w))) = m_pReceiveHandler p).
  { destruct (ConnectedState_MIDI_cases p w)
      as [Em | [(pkt & off & size & _ & [Em|Em])
               | [Em | [(t1 & c1 & w1 & c & Em) | (x & c & Em)]]]];
      rewrite Em; reflexivity. }
  destruct (ConnectedState_MIDI p w) as [[p1 w1] ev1]. cbn [fst] in H1.
  destruct (GetSyncClock w1) as [[nTicks w2] ev2].
  assert (H3 : m_pReceiveHandler (fst (fst (ConnectedState_Feedback nTicks p1 w2)))
               = m_pReceiveHandler p1).
  { destruct (ConnectedState_Feedback_cases nTicks p1 w2)
      as [[_ Ef] | [(_ & _ & Ef) | (_ & _ & Ef)]]; rewrite Ef; reflexivity. }
  destruct (ConnectedState_Feedback nTicks p1 w2) as [[p3 w3] ev3]. cbn [fst] in H3.
  destruct (ConnectedState_Timeout_cases nTicks p3 w3) as [Et|Et]; rewrite Et; cbn [fst];
    [cbn [Reset m_pReceiveHandler]|]; congruence.
Qed.

Lemma received_handler (tick : TTick) (p : CAppleMIDIParticipant) :
  m_pReceiveHandler (received tick p) = m_pReceiveHandler p
  /\ m_pReceiveHandler (ReceiveControl (ControlReceive tick) p) = m_pReceiveHandler p.
Proof.
  unfold received, ReceiveMIDI, ReceiveControl.
  destruct (ReceiveFrom _ _ _ _) as [[[n1 b1] i1] q1].
  cbn [m_MIDIBuffer m_InitiatorIPAddress m_nInitiatorMIDIPort].
  destruct (ReceiveFrom _ _ _ _) as [[[n2 b2] i2] q2].
  split; reflexivity.
Qed.

Lemma SendPacket_no_sink (p : CAppleMIDIParticipant) (pSocket : TSocket) (nPort : Z)
    (pData : list byte) (nSize : Z) (w : TWorld) (Data : list byte) :
  ~ In (EvReceiveHandler Data) (snd (SendPacket p pSocket nPort pData nSize w)).
Proof.
  destruct (SendPacket_events p pSocket nPort pData nSize w) as [E | [E | E]];
    cbv zeta in E; rewrite E; cbn [In]; intuition discriminate.
Qed.

Lemma ConnectedState_sink (p : CAppleMIDIParticipant) (w : TWorld) (Data : list byte) :
  In (EvReceiveHandler Data) (snd (ConnectedState p w)) ->
  ends_session p = false
  /\ m_pReceiveHandler p = true
  /\ m_nMIDIResult p > 0
  /\ is_RTP_MIDI (m_MIDIBuffer p) = true
  /\ Data = SysEx_fixup [xf7] (payload (m_MIDIBuffer p)).
Proof.
  rewrite ConnectedState_blocks, ConnectedState_Control_closed.
  destruct (ends_session p); [cbn [snd app In]; intuition discriminate|].
  assert (Hm : In (EvReceiveHandler Data) (snd (ConnectedState_MIDI p w)) ->
               m_pReceiveHandler p = true
               /\ m_nMIDIResult p > 0
               /\ is_RTP_MIDI (m_MIDIBuffer p) = true
               /\ Data = SysEx_fixup [xf7] (payload (m_MIDIBuffer p))).
  { destruct (is_RTP_MIDI (m_MIDIBuffer p)) eqn:Hrtp.
    - destruct (Z.gtb_spec (m_nMIDIResult p) 0) as [Hn|Hn].
      + rewrite (ConnectedState_MIDI_delivery p w ltac:(lia) Hrtp). cbn [snd].
        destruct (m_pReceiveHandler p); cbn [In]; [|tauto].
        intros [H|[]]. injection H as <-. repeat split; lia.
      + unfold ConnectedState_MIDI.
        destruct (Z.gtb_spec (m_nMIDIResult p) 0); [lia|].
        unfold ret. cbn [snd In]. tauto.
    - intros H. exfalso. exact (not_RTP_MIDI_no_sink p w Data Hrtp H). }
  destruct (ConnectedState_MIDI p w) as [[p1 w1] ev1]. cbn [snd] in Hm.
  pose proof (events_GetSyncClock w1) as Ec.
  destruct (GetSyncClock w1) as [[nTicks w2] ev2]. cbn [snd] in Ec. subst ev2.
  assert (Hf : ~ In (EvReceiveHandler Data) (snd (ConnectedState_Feedback nTicks p1 w2))).
  { destruct (ConnectedState_Feedback_cases nTicks p1 w2)
      as [[_ Ef] | [(_ & _ & Ef) | (_ & _ & Ef)]]; rewrite Ef; cbn [snd In]; try tauto.
    apply SendPacket_no_sink. }
  destruct (ConnectedState_Feedback nTicks p1 w2) as [[p3 w3] ev3]. cbn [snd] in Hf.
  destruct (ConnectedState_Timeout_cases nTicks p3 w3) as [Et|Et]; rewrite Et;
    cbn [snd trigger_log]; rewrite !in_app_iff; cbn [In];
    intros H; split; try reflexivity;
    (destruct H as [[]|[H|[[]|[H|H]]]]; [apply Hm; exact H | contradiction | ]).
  - destruct H as [H|[]]. discriminate H.
  - destruct H.
Qed.

Lemma Dispatch_sink (p : CAppleMIDIParticipant) (w : TWorld) (Data : list byte) :
  In (EvReceiveHandler Data) (snd (Dispatch p w)) ->
  m_State p = Connected
  /\ ends_session p = false
  /\ m_pReceiveHandler p = true
  /\ m_nMIDIResult p > 0
  /\ is_RTP_MIDI (m_MIDIBuffer p) = true
  /\ Data = SysEx_fixup [xf7] (payload (m_MIDIBuffer p)).
Proof.
  unfold Dispatch. destruct (m_State p).
  - intros H. exfalso.
    assert (Hall : Forall (fun e => e <> EvReceiveHandler Data)
                     (snd (ControlInvitationState p w)))
      by (apply ControlInvitationState_Forall; intros; discriminate).
    rewrite Forall_forall in Hall. exact (Hall _ H eq_refl).
  - intros H. exfalso.
    assert (Hall : Forall (fun e => e <> EvReceiveHandler Data)
                     (snd (MIDIInvitationState p w)))
      by (apply MIDIInvitationState_Forall; intros; discriminate).
    rewrite Forall_forall in Hall. exact (Hall _ H eq_refl).
  - intros H. split; [reflexivity|]. apply (ConnectedState_sink p w Data H).
Qed.

(** ** Members that are assigned and not read *)









(** ** The timeouts of a silent peer *)

Lemma timely_no_wrap (p : CAppleMIDIParticipant) (w : TWorld) :
  timely p w ->
  wrap 64 (fst (fst (GetSyncClock w)) - m_nLastSyncTime p)
  = fst (fst (GetSyncClock w)) - m_nLastSyncTime p
  /\ 0 <= fst (fst (GetSyncClock w)) - m_nLastSyncTime p.
Proof.
  intros (Hs & Hl & Hf).
  destruct (GetSyncClock_advances _ Hs) as (_ & Hle & _).
  pose proof (GetSyncClock_range w) as Hr.
  unfold wrap. split; [apply Z.mod_small|]; lia.
Qed.

Lemma MIDIInvitationState_idle (p : CAppleMIDIParticipant) (w : TWorld) :
  m_nMIDIResult p <= 0 ->
  fst (fst (MIDIInvitationState p w))
  = if wrap 64 (fst (fst (GetSyncClock w)) - m_nLastSyncTime p) >? SyncTimeout
    then Reset p else p.
Proof.
  intros Hn. unfold MIDIInvitationState.
  destruct (Z.gtb_spec (m_nMIDIResult p) 0); [lia|].
  unfold bind, Write, ret.
  destruct (GetSyncClock w) as [[c w3] ev3]. cbn [fst].
  destruct (_ >? SyncTimeout); reflexivity.
Qed.

Lemma ConnectedState_idle (p : CAppleMIDIParticipant) (w : TWorld) :
  m_nControlResult p <= 0 ->
  m_nMIDIResult p <= 0 ->
  exists p3 : CAppleMIDIParticipant,
    m_State p3 = m_State p
    /\ m_nLastSyncTime p3 = m_nLastSyncTime p
    /\ fst (fst (ConnectedState p w))
       = if wrap 64 (fst (fst (GetSyncClock w)) - m_nLastSyncTime p) >? SyncTimeout
         then Reset p3 else p3.
Proof.
  intros Hc Hn. rewrite ConnectedState_blocks.
  assert (Ec : ConnectedState_Control p w = (false, p, w, [])).
  { unfold ConnectedState_Control. destruct (Z.gtb_spec (m_nControlResult p) 0); [lia|].
    reflexivity. }
  assert (Em : ConnectedState_MIDI p w = (p, w, [])).
  { unfold ConnectedState_MIDI. destruct (Z.gtb_spec (m_nMIDIResult p) 0); [lia|].
    reflexivity. }
  rewrite Ec, Em.
  destruct (GetSyncClock w) as [[nTicks w2] ev2]. cbn [fst].
  pose proof (ConnectedState_Feedback_fields nTicks p w2) as Hf.
  pose proof (ConnectedState_Feedback_quiet nTicks p w2) as (_ & _ & Hfs).
  cbv zeta in Hf. destruct Hf as (_ & Hfl & _ & _).
  destruct (ConnectedState_Feedback nTicks p w2) as [[p3 w3] ev3].
  cbn [fst snd] in Hfl, Hfs.
  exists p3. split; [exact Hfs|]. split; [exact Hfl|].
  unfold ConnectedState_Timeout. rewrite Hfl.
  destruct (_ >? SyncTimeout); reflexivity.
Qed.

(** X28.  The timeouts of a silent peer, with a clock that does not run
    backwards.  In [MIDIInvitation] and in [Connected], an iteration that
    finds no datagram on either port compares the reading of the sync clock
    with the last sync time: when more than 600000 units (60 s) have passed
    it resets the session; when exactly 600000 or fewer have passed it
    leaves the state and the last sync time as they are. *)
Theorem silent_peer_timeout (p : CAppleMIDIParticipant) (w : TWorld) :
  timely p w ->
  m_nControlResult p = 0 ->
  m_nMIDIResult p = 0 ->
  m_State p <> ControlInvitation ->
  (fst (fst (GetSyncClock w)) - m_nLastSyncTime p > 600000 ->
   session_cleared (fst (fst (Dispatch p w))))
  /\ (0 <= fst (fst (GetSyncClock w)) - m_nLastSyncTime p <= 600000 ->
      m_State (fst (fst (Dispatch p w))) = m_State p
      /\ m_nLastSyncTime (fst (fst (Dispatch p w))) = m_nLastSyncTime p).
Proof.
  intros Ht Hc Hn Hs.
  destruct (timely_no_wrap p w Ht) as [Hw H0].
  unfold Dispatch. destruct (m_State p) eqn:Es; [contradiction| |].
  - rewrite (MIDIInvitationState_idle p w ltac:(lia)), Hw.
    change SyncTimeout with 600000.
    destruct (Z.gtb_spec (fst (fst (GetSyncClock w)) - m_nLastSyncTime p) 600000).
    + split; [intros _; apply Reset_clears|lia].
    + split; [lia|]. intros _. split; [exact Es|reflexivity].
  - destruct (ConnectedState_idle p w ltac:(lia) ltac:(lia)) as (p3 & H1 & H2 & ->).
    rewrite Hw. change SyncTimeout with 600000.
    destruct (Z.gtb_spec (fst (fst (GetSyncClock w)) - m_nLastSyncTime p) 600000).
    + split; [intros _; apply Reset_clears|lia].
    + split; [lia|]. intros _. split; [congruence|exact H2].
Qed.

Lemma timely_WorldLate : timely (received SilentTick HalfOpen) WorldLate.
Proof.
  split; [|vm_compute; repeat split; discriminate].
  unfold clock_sane, WorldLate. cbn [ClockTicks nClockReads nStartTime].
  change (2 ^ 62) with 4611686018427387904.
  change (2 ^ 64) with 18446744073709551616.
  split; [intros i j Hij; lia|].
  split; [intros i; lia|].
  exists 0%nat. split; [lia|reflexivity].
Qed.

Lemma silent_peer_timeout_witness :
  session_cleared (fst (fst (Dispatch (received SilentTick HalfOpen) WorldLate))).
Proof.
  apply (proj1 (silent_peer_timeout (received SilentTick HalfOpen) WorldLate
                  timely_WorldLate eq_refl eq_refl ltac:(discriminate))).
  vm_compute. reflexivity.
Defined.

(** ** The handshake from end to end *)

Lemma byte_at_ReceiveFrom (Data Buffer : list byte) (IP Port IPAddress nPort k : Z) :
  0 <= k < Z.min (Z.of_nat (List.length Data)) FRAME_BUFFER_SIZE ->
  byte_at (snd (fst (fst (ReceiveFrom (Datagram Data IP Port) Buffer IPAddress nPort)))) k
  = byte_at Data k.
Proof.
  intros Hk. unfold ReceiveFrom. cbn [fst snd]. unfold byte_at.
  set (n := Z.to_nat (Z.min _ _)).
  assert (Hn : (Z.to_nat k < n)%nat) by (subst n; lia).
  assert (Hl : (n <= List.length Data)%nat) by (subst n; lia).
  rewrite app_nth1 by (rewrite firstn_length_le; lia).
  rewrite nth_firstn.
  destruct (Nat.ltb_spec (Z.to_nat k) n); [reflexivity|lia].
Qed.

Lemma ReceiveFrom_header (Data Buffer : list byte) (IP Port IPAddress nPort : Z) :
  (16 <= List.length Data)%nat ->
  let '(n, B, _, _) := ReceiveFrom (Datagram Data IP Port) Buffer IPAddress nPort in
  16 <= n
  /\ wire_u16 B 0 = wire_u16 Data 0
  /\ wire_u16 B 2 = wire_u16 Data 2
  /\ wire_u32 B 4 = wire_u32 Data 4
  /\ wire_u32 B 8 = wire_u32 Data 8
  /\ wire_u32 B 12 = wire_u32 Data 12.
Proof.
  intros Hlen.
  assert (Hb : forall k, 0 <= k < 16 ->
             byte_at (snd (fst (fst (ReceiveFrom (Datagram Data IP Port) Buffer
                                       IPAddress nPort)))) k
             = byte_at Data k).
  { intros k Hk. apply byte_at_ReceiveFrom. unfold FRAME_BUFFER_SIZE. lia. }
  assert (Hn : 16 <= fst (fst (fst (ReceiveFrom (Datagram Data IP Port) Buffer
                                      IPAddress nPort))))
    by (cbn [ReceiveFrom fst]; unfold FRAME_BUFFER_SIZE; lia).
  destruct (ReceiveFrom _ _ _ _) as [[[n B] i] q]. cbn [fst snd] in Hb, Hn.
  split; [exact Hn|].
  unfold wire_u16, wire_u32. cbn [Z.add Pos.add Pos.succ].
  rewrite !Hb by lia. repeat split.
Qed.

Lemma GetSyncClock_sends (w : TWorld) :
  nSendTo (snd (fst (GetSyncClock w))) = nSendTo w
  /\ SendToResults (snd (fst (GetSyncClock w))) = SendToResults w
  /\ RandomNumbers (snd (fst (GetSyncClock w))) = RandomNumbers w
  /\ nRandomReads (snd (fst (GetSyncClock w))) = nRandomReads w.
Proof.
  destruct w as [ct nc st rn nr sr ns].
  unfold_M. cbn [ClockTicks nClockReads nStartTime].
  destruct st; repeat split.
Qed.

Lemma ControlInvitationState_accepts (p : CAppleMIDIParticipant) (w : TWorld)
    (pkt : TAppleMIDIInvitation) :
  m_nControlResult p <> 0 ->
  ParseInvitationPacket (m_ControlBuffer p) (m_nControlResult p) = Some pkt ->
  SendToResults w (nSendTo w) = 24 ->
  exists (nClock : Z) (w' : TWorld),
    ControlInvitationState p w
    = (set_State MIDIInvitation
         (set_nLastSyncTime nClock
            (set_nSSRC (wrap 32 (RandomNumbers w (nRandomReads w)))
               (set_nInitiatorSSRC (inv_nSSRC pkt)
                  (set_nInitiatorToken (inv_nInitiatorToken pkt) p)))),
       w',
       [EvSendTo ControlSocket (m_InitiatorIPAddress p) (m_nInitiatorControlPort p)
          (firstn 24
             (memory_TAppleMIDIInvitation
                (AcceptPacket
                   (set_nSSRC (wrap 32 (RandomNumbers w (nRandomReads w)))
                      (set_nInitiatorSSRC (inv_nSSRC pkt)
                         (set_nInitiatorToken (inv_nInitiatorToken pkt) p))))))])
    /\ nSendTo w' = S (nSendTo w)
    /\ SendToResults w' = SendToResults w.
Proof.
  intros Hn Hp Hsend.
  unfold ControlInvitationState.
  destruct (Z.eqb_spec (m_nControlResult p) 0); [contradiction|].
  rewrite Hp.
  unfold bind at 1. unfold GetNumber at 1. cbv beta iota zeta.
  set (w1 := mkWorld _ _ _ _ _ _ _).
  set (p1 := set_nSSRC _ _).
  assert (Hs1 : SendToResults w1 (nSendTo w1) = 24) by exact Hsend.
  assert (Hw1 : nSendTo w1 = nSendTo w /\ SendToResults w1 = SendToResults w)
    by (split; reflexivity).
  assert (Hip : m_InitiatorIPAddress p1 = m_InitiatorIPAddress p) by reflexivity.
  assert (Hport : m_nInitiatorControlPort p1 = m_nInitiatorControlPort p) by reflexivity.
  clearbody p1 w1.
  rewrite SendAcceptInvitationPacket_eq.
  unfold bind at 1. unfold SendPacket. unfold bind at 1. unfold SendTo at 1.
  cbv beta iota zeta. rewrite Hs1.
  change (24 <? 0) with false. change (negb (24 =? 24)) with false.
  cbv beta iota. unfold ret at 1. cbn [negb app].
  unfold bind, ret.
  set (w2 := mkWorld _ _ _ _ _ _ _).
  assert (Hw2 : nSendTo w2 = S (nSendTo w1) /\ SendToResults w2 = SendToResults w1)
    by (split; reflexivity).
  clearbody w2.
  pose proof (events_GetSyncClock w2) as E.
  destruct (GetSyncClock_sends w2) as (Hg1 & Hg2 & _).
  destruct (GetSyncClock w2) as [[c w3] ev3]. cbn [fst snd] in E, Hg1, Hg2. subst ev3.
  exists c, w3. rewrite Hip, Hport.
  change (Z.to_nat 24) with 24%nat.
  split; [reflexivity|].
  destruct Hw1 as [Ha Hb], Hw2 as [Hc Hd]. split; congruence.
Qed.

Lemma AcceptPacket_ext (p q : CAppleMIDIParticipant) :
  m_nInitiatorToken p = m_nInitiatorToken q ->
  m_nSSRC p = m_nSSRC q ->
  AcceptPacket p = AcceptPacket q.
Proof.
  unfold AcceptPacket. intros -> ->. reflexivity.
Qed.

Lemma ParseInvitationPacket_header (pBuffer : list byte) (nSize : Z) :
  16 <= nSize ->
  wire_u16 pBuffer 0 = 0xFFFF ->
  wire_u16 pBuffer 2 = 0x494E ->
  wire_u32 pBuffer 4 = 2 ->
  exists pkt : TAppleMIDIInvitation,
    ParseInvitationPacket pBuffer nSize = Some pkt
    /\ inv_nInitiatorToken pkt = wire_u32 pBuffer 8
    /\ inv_nSSRC pkt = wire_u32 pBuffer 12.
Proof.
  intros Hn H0 H2 H4. rewrite ParseInvitationPacket_closed, H0, H2, H4.
  destruct (Z.leb_spec 16 nSize); [|lia].
  cbn [andb Z.eqb Pos.eqb]. eexists. split; [reflexivity|]. split; reflexivity.
Qed.

(** X29.  The handshake from end to end.  From [ControlInvitation], an
    iteration that finds an invitation on the control port followed by one
    that finds an invitation on the data port, both answered by sends that
    succeed, leaves the participant [Connected].  The token and the SSRC
    stored are those of the first invitation, the local SSRC is the number
    drawn at the first, and the same OK frame goes out twice: to the sender
    and port of the first invitation and to the sender and port of the
    second. *)
Theorem handshake_completes (p : CAppleMIDIParticipant) (w : TWorld)
    (Data1 Data2 : list byte) (IP1 Port1 IP2 Port2 : Z) :
  m_State p = ControlInvitation ->
  is_invitation Data1 ->
  is_invitation Data2 ->
  SendToResults w (nSendTo w) = 24 ->
  SendToResults w (S (nSendTo w)) = 24 ->
  let ticks := [mkTick (Datagram Data1 IP1 Port1) NoData;
                mkTick NoData (Datagram Data2 IP2 Port2)] in
  let p' := participant_after ticks p w in
  returned_after ticks p w = false
  /\ m_State p' = Connected
  /\ m_nInitiatorToken p' = wire_u32 Data1 8
  /\ m_nInitiatorSSRC p' = wire_u32 Data1 12
  /\ m_nSSRC p' = wrap 32 (RandomNumbers w (nRandomReads w))
  /\ m_InitiatorIPAddress p' = IP2
  /\ m_nInitiatorControlPort p' = Port1
  /\ m_nInitiatorMIDIPort p' = Port2
  /\ exists Data : list byte,
       snd (Run ticks p w)
       = [EvSendTo ControlSocket IP1 Port1 Data;
          EvSendTo ControlSocket IP2 Port2 Data;
          EvLog LogNotice "Connection to %s (%s) established"]
       /\ List.length Data = 24%nat
       /\ wire_u16 Data 2 = 0x4F4B
       /\ wire_u32 Data 8 = wire_u32 Data1 8
       /\ wire_u32 Data 12 = wrap 32 (RandomNumbers w (nRandomReads w)).
Proof.
  intros Hs (Hl1 & Hs1 & Hc1 & Hv1) (Hl2 & Hs2 & Hc2 & Hv2) Hsend1 Hsend2 ticks p'.
  subst p' ticks.
  unfold returned_after, participant_after.
  set (t1 := mkTick (Datagram Data1 IP1 Port1) NoData).
  set (t2 := mkTick NoData (Datagram Data2 IP2 Port2)).
  (* the first iteration *)
  set (q1 := received t1 p).
  assert (Hq1 : m_State q1 = ControlInvitation /\ m_InitiatorIPAddress q1 = IP1
                /\ m_nInitiatorControlPort q1 = Port1).
  { subst q1 t1. unfold received, ReceiveMIDI, ReceiveControl.
    cbn [ControlReceive MIDIReceive ReceiveFrom m_State m_InitiatorIPAddress
         m_nInitiatorControlPort m_nInitiatorMIDIPort m_MIDIBuffer].
    repeat split. exact Hs. }
  destruct Hq1 as (Hq1s & Hq1i & Hq1p).
  assert (Hh1 : 16 <= m_nControlResult q1
                /\ wire_u16 (m_ControlBuffer q1) 0 = wire_u16 Data1 0
                /\ wire_u16 (m_ControlBuffer q1) 2 = wire_u16 Data1 2
                /\ wire_u32 (m_ControlBuffer q1) 4 = wire_u32 Data1 4
                /\ wire_u32 (m_ControlBuffer q1) 8 = wire_u32 Data1 8
                /\ wire_u32 (m_ControlBuffer q1) 12 = wire_u32 Data1 12).
  { pose proof (ReceiveFrom_header Data1 (m_ControlBuffer p) IP1 Port1
                  (m_InitiatorIPAddress p) (m_nInitiatorControlPort p) Hl1) as H.
    subst q1 t1. unfold received, ReceiveMIDI, ReceiveControl.
    cbn [ControlReceive MIDIReceive].
    destruct (ReceiveFrom (Datagram Data1 IP1 Port1) _ _ _) as [[[n B] i] q].
    exact H. }
  destruct Hh1 as (Hn1 & Hw0 & Hw2 & Hw4 & Hw8 & Hw12).
  destruct (ParseInvitationPacket_header (m_ControlBuffer q1) (m_nControlResult q1) Hn1
              ltac:(congruence) ltac:(congruence) ltac:(congruence))
    as (pkt1 & Hp1 & Htok & Hssrc).
  destruct (ControlInvitationState_accepts q1 w pkt1 ltac:(lia) Hp1 Hsend1)
    as (c1 & w1 & E1 & Hns & Hsr).
  rewrite Htok, Hssrc, Hw8, Hw12, Hq1i, Hq1p in E1.
  set (v := wrap 32 (RandomNumbers w (nRandomReads w))) in *.
  set (a1 := set_nSSRC v (set_nInitiatorSSRC (wire_u32 Data1 12)
                            (set_nInitiatorToken (wire_u32 Data1 8) q1))) in *.
  set (pA := set_State MIDIInvitation (set_nLastSyncTime c1 a1)) in *.
  (* the second iteration *)
  set (q2 := received t2 pA).
  assert (Hq2 : m_State q2 = MIDIInvitation /\ m_InitiatorIPAddress q2 = IP2
                /\ m_nInitiatorMIDIPort q2 = Port2
                /\ m_nInitiatorControlPort q2 = Port1
                /\ m_nInitiatorToken q2 = wire_u32 Data1 8
                /\ m_nInitiatorSSRC q2 = wire_u32 Data1 12
                /\ m_nSSRC q2 = v).
  { subst q2 t2 pA a1. unfold received, ReceiveMIDI, ReceiveControl.
    cbn [ControlReceive MIDIReceive ReceiveFrom m_State m_InitiatorIPAddress
         m_nInitiatorControlPort m_nInitiatorMIDIPort m_MIDIBuffer m_ControlBuffer
         m_nInitiatorToken m_nInitiatorSSRC m_nSSRC
         set_State set_nLastSyncTime set_nSSRC set_nInitiatorSSRC set_nInitiatorToken].
    repeat split. }
  destruct Hq2 as (Hq2s & Hq2i & Hq2m & Hq2c & Hq2t & Hq2r & Hq2v).
  assert (Hh2 : 16 <= m_nMIDIResult q2
                /\ wire_u16 (m_MIDIBuffer q2) 0 = wire_u16 Data2 0
                /\ wire_u16 (m_MIDIBuffer q2) 2 = wire_u16 Data2 2
                /\ wire_u32 (m_MIDIBuffer q2) 4 = wire_u32 Data2 4).
  { pose proof (ReceiveFrom_header Data2
                  (m_MIDIBuffer (ReceiveControl NoData pA)) IP2 Port2
                  (m_InitiatorIPAddress (ReceiveControl NoData pA))
                  (m_nInitiatorMIDIPort (ReceiveControl NoData pA)) Hl2) as H.
    subst q2 t2. unfold received, ReceiveMIDI.
    cbn [ControlReceive MIDIReceive].
    destruct (ReceiveFrom (Datagram Data2 IP2 Port2) _ _ _) as [[[n B] i] q].
    destruct H as (H1 & H2 & H3 & H4 & _). repeat split; assumption. }
  destruct Hh2 as (Hn2 & Hx0 & Hx2 & Hx4).
  destruct (ParseInvitationPacket_header (m_MIDIBuffer q2) (m_nMIDIResult q2) Hn2
              ltac:(congruence) ltac:(congruence) ltac:(congruence))
    as (pkt2 & Hp2 & _ & _).
  assert (Hsend2' : SendToResults w1 (nSendTo w1) = 24) by (rewrite Hns, Hsr; exact Hsend2).
  destruct (MIDIInvitationState_accepts q2 w1 pkt2 ltac:(lia) Hp2 Hsend2')
    as (c2 & w2 & E2).
  rewrite Hq2i, Hq2m in E2.
  assert (Ea : AcceptPacket q2 = AcceptPacket a1)
    by (apply AcceptPacket_ext; [rewrite Hq2t|rewrite Hq2v]; reflexivity).
  rewrite Ea in E2.
  (* the two together *)
  assert (ERun : Run [t1; t2] p w
                 = (false, set_State Connected (set_nLastSyncTime c2 q2), w2,
                    [EvSendTo ControlSocket IP1 Port1
                       (firstn 24 (memory_TAppleMIDIInvitation (AcceptPacket a1)));
                     EvSendTo ControlSocket IP2 Port2
                       (firstn 24 (memory_TAppleMIDIInvitation (AcceptPacket a1)));
                     EvLog LogNotice "Connection to %s (%s) established"])).
  { cbn [Run]. unfold bind at 1. rewrite Run_iteration_closed.
    change (is_error (ControlReceive t1)) with false.
    change (is_error (MIDIReceive t1)) with false. cbv iota.
    fold q1. unfold Dispatch at 1. rewrite Hq1s, E1.
    unfold bind at 1. rewrite Run_iteration_closed.
    change (is_error (ControlReceive t2)) with false.
    change (is_error (MIDIReceive t2)) with false. cbv iota.
    fold q2. unfold Dispatch. rewrite Hq2s, E2.
    unfold ret. reflexivity. }
  rewrite ERun. cbn [fst snd].
  assert (Hr1 : 0 <= m_nInitiatorToken a1 < 2 ^ 32) by apply wire_u32_range.
  assert (Hr2 : 0 <= m_nSSRC a1 < 2 ^ 32) by (apply wrap_range; lia).
  pose proof (AcceptPacket_wire a1 Hr1 Hr2) as Hw. cbv zeta in Hw.
  destruct Hw as (H0 & _ & HOK & _ & Htk & Hsr' & _).
  split; [reflexivity|]. split; [reflexivity|].
  split; [exact Hq2t|]. split; [exact Hq2r|]. split; [exact Hq2v|].
  split; [exact Hq2i|]. split; [exact Hq2c|]. split; [exact Hq2m|].
  exists (firstn 24 (memory_TAppleMIDIInvitation (AcceptPacket a1))).
  split; [reflexivity|]. split; [exact H0|]. split; [exact HOK|].
  split; [exact Htk|exact Hsr'].
Qed.

Lemma handshake_completes_witness :
  m_State (participant_after
             [mkTick (Datagram InvitationFrame 0xC000020A 5004) NoData;
              mkTick NoData (Datagram ForeignInvitationFrame 0xC0000263 6001)]
             Construct World0) = Connected.
Proof.
  refine (proj1 (proj2 (handshake_completes Construct World0 InvitationFrame
                          ForeignInvitationFrame 0xC000020A 5004 0xC0000263 6001
                          eq_refl _ _ eq_refl eq_refl))).
  - split; [cbn; lia|]. repeat split.
  - split; [cbn; lia|]. repeat split.
Defined.

(** ** Receiver feedback along an iteration *)

Lemma ConnectedState_MIDI_members (p : CAppleMIDIParticipant) (w : TWorld) :
  m_nLastFeedbackTime (after_data p w) = m_nLastFeedbackTime p
  /\ m_nLastFeedbackSequence (after_data p w) = m_nLastFeedbackSequence p
  /\ m_nSSRC (after_data p w) = m_nSSRC p
  /\ m_InitiatorIPAddress (after_data p w) = m_InitiatorIPAddress p
  /\ m_nInitiatorMIDIPort (after_data p w) = m_nInitiatorMIDIPort p
  /\ (0 <= m_nSequence p < 2 ^ 16 -> 0 <= m_nSequence (after_data p w) < 2 ^ 16).
Proof.
  unfold after_data.
  destruct (ConnectedState_MIDI_cases p w)
    as [E | [(pkt & off & size & Hp & [E|E]) | [E | [(t1 & c1 & w1 & c & E) | (x & c & E)]]]];
    rewrite E; cbn [fst];
    (split; [reflexivity|]); (split; [reflexivity|]); (split; [reflexivity|]);
    (split; [reflexivity|]); (split; [reflexivity|]); intros Hq; try exact Hq;
    destruct (ParseMIDIPacket_accepts _ _ _ _ _ Hp) as [_ Hseq];
    cbn [set_nSequence m_nSequence]; rewrite Hseq;
    pose proof (wire_u16_range (m_MIDIBuffer p) 2); change (2 ^ 16) with 65536; lia.
Qed.

(** What an iteration in [Connected] does about feedback, by the three
    cases of lines 539-547. *)
Lemma Dispatch_feedback (p : CAppleMIDIParticipant) (w : TWorld) :
  m_State p = Connected ->
  ends_session p = false ->
  0 <= m_nSSRC p < 2 ^ 32 ->
  0 <= m_nSequence p < 2 ^ 16 ->
  (wrap 64 (feedback_now p w - m_nLastFeedbackTime p) <= 10000
   /\ rs_frames (snd (Dispatch p w)) = []
   /\ (m_State (fst (fst (Dispatch p w))) = Connected ->
       m_nLastFeedbackTime (fst (fst (Dispatch p w))) = m_nLastFeedbackTime p
       /\ m_nLastFeedbackSequence (fst (fst (Dispatch p w))) = m_nLastFeedbackSequence p))
  \/ (wrap 64 (feedback_now p w - m_nLastFeedbackTime p) > 10000
      /\ m_nSequence (after_data p w) = m_nLastFeedbackSequence p
      /\ rs_frames (snd (Dispatch p w)) = []
      /\ (m_State (fst (fst (Dispatch p w))) = Connected ->
          m_nLastFeedbackTime (fst (fst (Dispatch p w))) = feedback_now p w
          /\ m_nLastFeedbackSequence (fst (fst (Dispatch p w)))
             = m_nSequence (after_data p w)))
  \/ (wrap 64 (feedback_now p w - m_nLastFeedbackTime p) > 10000
      /\ m_nSequence (after_data p w) <> m_nLastFeedbackSequence p
      /\ (exists Data : list byte,
            rs_frames (snd (Dispatch p w)) = [Data]
            /\ In (EvSendTo ControlSocket (m_InitiatorIPAddress p) (m_nInitiatorMIDIPort p)
                     Data) (snd (Dispatch p w))
            /\ List.length Data = 12%nat
            /\ wire_u16 Data 0 = 0xFFFF
            /\ wire_u16 Data 2 = ReceiverFeedback
            /\ wire_u32 Data 4 = m_nSSRC p
            /\ wire_u16 Data 8 = m_nSequence (after_data p w)
            /\ wire_u16 Data 10 = 0)
      /\ (m_State (fst (fst (Dispatch p w))) = Connected ->
          m_nLastFeedbackTime (fst (fst (Dispatch p w))) = feedback_now p w
          /\ m_nLastFeedbackSequence (fst (fst (Dispatch p w)))
             = m_nSequence (after_data p w))).
Proof.
  intros Hs Hend Hssrc Hseq.
  destruct (ConnectedState_MIDI_members p w) as (Hft & Hfs & Hss & Hip & Hport & Hrange).
  specialize (Hrange Hseq).
  pose proof (rs_frames_MIDI p w) as R1.
  pose proof (ConnectedState_MIDI_quiet p w) as (_ & _ & Hst1).
  unfold Dispatch. rewrite Hs, ConnectedState_blocks, ConnectedState_Control_closed, Hend.
  unfold after_data, feedback_now in *.
  destruct (ConnectedState_MIDI p w) as [[p1 w1] ev1]. cbn [fst snd] in *.
  pose proof (events_GetSyncClock w1) as E2.
  destruct (GetSyncClock w1) as [[nTicks w2] ev2]. cbn [fst snd] in *. subst ev2.
  rewrite <- Hft, <- Hfs.
  change 10000 with ReceiverFeedbackPeriod.
  destruct (ConnectedState_Feedback_cases nTicks p1 w2)
    as [(Hle & E3) | [(Hgt & Heq & E3) | (Hgt & Hne & E3)]]; rewrite E3.
  - left. split; [exact Hle|].
    destruct (ConnectedState_Timeout_cases nTicks p1 w2) as [E4|E4]; rewrite E4;
      cbn [fst snd]; rewrite !rs_frames_app, R1; (split; [reflexivity|]).
    + cbn [Reset m_State]. discriminate.
    + intros _. split; reflexivity.
  - right. left. split; [exact Hgt|]. split; [exact Heq|].
    destruct (ConnectedState_Timeout_cases nTicks (set_nLastFeedbackTime nTicks p1) w2)
      as [E4|E4]; rewrite E4;
      cbn [fst snd]; rewrite !rs_frames_app, R1; (split; [reflexivity|]).
    + cbn [Reset m_State]. discriminate.
    + intros _. split; [reflexivity|]. cbn [set_nLastFeedbackTime m_nLastFeedbackSequence].
      symmetry. exact Heq.
  - right. right. split; [exact Hgt|]. split; [exact Hne|].
    assert (Hssrc1 : 0 <= m_nSSRC p1 < 2 ^ 32) by (rewrite Hss; exact Hssrc).
    pose proof (FeedbackPacket_wire p1 Hssrc1 Hrange) as Hwire. cbv zeta in Hwire.
    change (Z.to_nat sizeof_TAppleMIDIReceiverFeedback) with 12%nat in Hwire.
    set (Data := firstn 12 (memory_TAppleMIDIReceiverFeedback (FeedbackPacket p1))) in *.
    destruct Hwire as (H0 & H1 & H2 & H3 & H4 & H5).
    assert (Hrs : is_RS Data = true) by (unfold is_RS; rewrite H2; apply Z.eqb_refl).
    unfold SendFeedbackPacket.
    pose proof (SendPacket_events p1 ControlSocket (m_nInitiatorMIDIPort p1)
                  (memory_TAppleMIDIReceiverFeedback (FeedbackPacket p1))
                  sizeof_TAppleMIDIReceiverFeedback w2) as Hev.
    cbv zeta in Hev.
    change (Z.to_nat sizeof_TAppleMIDIReceiverFeedback) with 12%nat in Hev.
    fold Data in Hev.
    destruct (SendPacket _ _ _ _ _ _) as [[b w3] ev3]. cbn [fst snd] in Hev |- *.
    rewrite Hip, Hport in Hev.
    assert (Hr3 : rs_frames ev3 = [Data]
                  /\ In (EvSendTo ControlSocket (m_InitiatorIPAddress p)
                           (m_nInitiatorMIDIPort p) Data) ev3).
    { destruct Hev as [-> | [-> | ->]]; unfold rs_frames; cbn [sent_data filter];
        rewrite Hrs; (split; [reflexivity|left; reflexivity]). }
    destruct Hr3 as [Hr3 Hin3].
    set (p3 := set_nLastFeedbackTime nTicks
                 (set_nLastFeedbackSequence (m_nSequence p1) p1)) in *.
    destruct (ConnectedState_Timeout_cases nTicks p3 w3) as [E4|E4]; rewrite E4;
      cbn [fst snd]; rewrite !rs_frames_app, R1, Hr3.
    + split.
      * exists Data. split; [reflexivity|]. split.
        -- cbn [app]. apply in_or_app. right. apply in_or_app. left. exact Hin3.
        -- rewrite <- Hss. repeat split; assumption.
      * cbn [Reset m_State]. discriminate.
    + split.
      * exists Data. split; [reflexivity|]. split.
        -- cbn [app]. apply in_or_app. right. apply in_or_app. left. exact Hin3.
        -- rewrite <- Hss. repeat split; assumption.
      * intros _. split; reflexivity.
Qed.

(** C5.  In an iteration of the connected state, with the received sequence
    number taken when the data-port block of the iteration is done and the
    time taken at the clock reading of line 537: no RS frame leaves when the
    received sequence number equals the last one acknowledged.  An RS frame
    that leaves is the only one of the iteration; it leaves more than 10000
    clock units after the last feedback time, with the two sequence numbers
    different, through the control socket to the peer's data port; it has 12
    bytes, the local SSRC, and a sequence field holding the received
    sequence number in its high 16 bits and zero in its low 16 bits.  In an
    iteration that no end-session frame ends, once more than 10000 units
    have elapsed the frame is sent when the sequence numbers differ; and
    unless the iteration resets the session, the last feedback time becomes
    the time of the iteration, also when nothing is sent, and the received
    sequence number is the one acknowledged.  Within the period both are
    left as they were. *)
Theorem feedback_cadence (p : CAppleMIDIParticipant) (w : TWorld) :
  m_State p = Connected ->
  0 <= m_nSSRC p < 2 ^ 32 ->
  0 <= m_nSequence p < 2 ^ 16 ->
  (m_nSequence (after_data p w) = m_nLastFeedbackSequence p ->
   rs_frames (snd (Dispatch p w)) = [])
  /\ (forall Data : list byte,
        In Data (rs_frames (snd (Dispatch p w))) ->
        wrap 64 (feedback_now p w - m_nLastFeedbackTime p) > 10000
        /\ m_nSequence (after_data p w) <> m_nLastFeedbackSequence p
        /\ rs_frames (snd (Dispatch p w)) = [Data]
        /\ In (EvSendTo ControlSocket (m_InitiatorIPAddress p) (m_nInitiatorMIDIPort p) Data)
              (snd (Dispatch p w))
        /\ List.length Data = 12%nat
        /\ wire_u16 Data 0 = 0xFFFF
        /\ wire_u16 Data 2 = ReceiverFeedback
        /\ wire_u32 Data 4 = m_nSSRC p
        /\ wire_u16 Data 8 = m_nSequence (after_data p w)
        /\ wire_u16 Data 10 = 0)
  /\ (ends_session p = false ->
      wrap 64 (feedback_now p w - m_nLastFeedbackTime p) > 10000 ->
      m_nSequence (after_data p w) <> m_nLastFeedbackSequence p ->
      exists Data : list byte, rs_frames (snd (Dispatch p w)) = [Data])
  /\ (m_State (fst (fst (Dispatch p w))) = Connected ->
      (wrap 64 (feedback_now p w - m_nLastFeedbackTime p) > 10000 ->
       m_nLastFeedbackTime (fst (fst (Dispatch p w))) = feedback_now p w
       /\ m_nLastFeedbackSequence (fst (fst (Dispatch p w)))
          = m_nSequence (after_data p w))
      /\ (wrap 64 (feedback_now p w - m_nLastFeedbackTime p) <= 10000 ->
          m_nLastFeedbackTime (fst (fst (Dispatch p w))) = m_nLastFeedbackTime p
          /\ m_nLastFeedbackSequence (fst (fst (Dispatch p w)))
             = m_nLastFeedbackSequence p)).
Proof.
  intros Hs Hssrc Hseq.
  destruct (ends_session p) eqn:Hend.
  - assert (E : Dispatch p w = (Reset p, w, [EvLog LogNotice "Initiator ended session"])).
    { unfold Dispatch. rewrite Hs, ConnectedState_blocks, ConnectedState_Control_closed, Hend.
      reflexivity. }
    rewrite E. cbn [fst snd].
    split; [reflexivity|]. split; [intros Data []|]. split; [discriminate|].
    cbn [Reset m_State]. discriminate.
  - destruct (Dispatch_feedback p w Hs Hend Hssrc Hseq)
      as [(Hle & Hrs & Hst) | [(Hgt & Heq & Hrs & Hst) | (Hgt & Hne & (D & Hrs & HD) & Hst)]].
    + split; [intros _; exact Hrs|].
      split; [intros Data Hin; rewrite Hrs in Hin; destruct Hin|].
      split; [intros _ Hgt; lia|].
      intros Hc. split; [intros Hgt; lia|]. intros _. apply Hst. exact Hc.
    + split; [intros _; exact Hrs|].
      split; [intros Data Hin; rewrite Hrs in Hin; destruct Hin|].
      split; [intros _ _ Hne; contradiction|].
      intros Hc. split; [intros _; apply Hst; exact Hc|]. intros Hle. lia.
    + split; [intros Heq; contradiction|].
      split.
      { intros Data Hin. rewrite Hrs in Hin. destruct Hin as [<-|[]].
        split; [exact Hgt|]. split; [exact Hne|]. split; [exact Hrs|]. exact HD. }
      split; [intros _ _ _; exists D; exact Hrs|].
      intros Hc. split; [intros _; apply Hst; exact Hc|]. intros Hle. lia.
Qed.

Lemma feedback_cadence_witness :
  rs_frames (snd (Dispatch FeedbackDue (WorldOf [0; 1020000] [12]))) = [FeedbackFrame]
  /\ In (EvSendTo ControlSocket (m_InitiatorIPAddress FeedbackDue)
           (m_nInitiatorMIDIPort FeedbackDue) FeedbackFrame)
        (snd (Dispatch FeedbackDue (WorldOf [0; 1020000] [12])))
  /\ List.length FeedbackFrame = 12%nat
  /\ wire_u16 FeedbackFrame 0 = 0xFFFF
  /\ wire_u16 FeedbackFrame 2 = ReceiverFeedback
  /\ wire_u32 FeedbackFrame 4 = m_nSSRC FeedbackDue
  /\ wire_u16 FeedbackFrame 8
     = m_nSequence (after_data FeedbackDue (WorldOf [0; 1020000] [12]))
  /\ wire_u16 FeedbackFrame 10 = 0.
Proof.
  refine (proj2 (proj2 (proj1 (proj2 (feedback_cadence FeedbackDue
                                        (WorldOf [0; 1020000] [12]) _ _ _))
                          FeedbackFrame _))).
  - vm_compute. reflexivity.
  - vm_compute. split; congruence.
  - vm_compute. split; congruence.
  - vm_compute. left. reflexivity.
Defined.

(** ** The iteration that reads an invitation on the control port *)

Lemma received_control_header (tick : TTick) (p : CAppleMIDIParticipant)
    (Data : list byte) (IP Port : Z) :
  ControlReceive tick = Datagram Data IP Port ->
  (16 <= List.length Data)%nat ->
  16 <= m_nControlResult (received tick p)
  /\ wire_u16 (m_ControlBuffer (received tick p)) 0 = wire_u16 Data 0
  /\ wire_u16 (m_ControlBuffer (received tick p)) 2 = wire_u16 Data 2
  /\ wire_u32 (m_ControlBuffer (received tick p)) 4 = wire_u32 Data 4
  /\ wire_u32 (m_ControlBuffer (received tick p)) 8 = wire_u32 Data 8
  /\ wire_u32 (m_ControlBuffer (received tick p)) 12 = wire_u32 Data 12
  /\ m_nInitiatorControlPort (received tick p) = Port.
Proof.
  intros E Hlen.
  pose proof (ReceiveFrom_header Data (m_ControlBuffer p) IP Port
                (m_InitiatorIPAddress p) (m_nInitiatorControlPort p) Hlen) as H.
  assert (Hport : snd (ReceiveFrom (Datagram Data IP Port) (m_ControlBuffer p)
                         (m_InitiatorIPAddress p) (m_nInitiatorControlPort p)) = Port)
    by reflexivity.
  unfold received, ReceiveMIDI, ReceiveControl. rewrite E.
  destruct (ReceiveFrom (Datagram Data IP Port) _ _ _) as [[[n B] i] q].
  cbn [snd] in Hport. subst q.
  cbn [m_MIDIBuffer m_InitiatorIPAddress m_nInitiatorMIDIPort].
  destruct (ReceiveFrom (MIDIReceive tick) _ _ _) as [[[n2 B2] i2] q2].
  cbn [m_nControlResult m_ControlBuffer m_nInitiatorControlPort].
  destruct H as (H1 & H2 & H3 & H4 & H5 & H6). repeat split; assumption.
Qed.

(** X11.  The reply to an invitation on the control port, in the iteration
    that reads it.  The first event of the iteration is an OK frame of 24
    bytes, sent through the control socket to the port the invitation came
    from, at the address the receive step left in [m_InitiatorIPAddress]:
    the sender of the datagram that the same iteration read from the data
    port if there was one (the receive of line 375 overwrites what the
    receive of line 369 stored), otherwise the sender of the invitation.
    The frame carries the version 2, the token of the invitation, a local
    SSRC drawn from the random number generator for this handshake, and the
    name "mt32-pi" with its terminator.  Nothing else is sent, and the SSRC
    is stored also when the send fails. *)
Theorem control_invitation_reply (tick : TTick) (p : CAppleMIDIParticipant) (w : TWorld)
    (Data : list byte) (IP Port : Z) :
  m_State p = ControlInvitation ->
  ControlReceive tick = Datagram Data IP Port ->
  is_error (MIDIReceive tick) = false ->
  is_invitation Data ->
  exists (Reply : list byte) (rest : list TEvent),
    snd (Run_iteration tick p w)
    = EvSendTo ControlSocket (sender_of (MIDIReceive tick) IP) Port Reply :: rest
    /\ sent_data rest = []
    /\ List.length Reply = 24%nat
    /\ wire_u16 Reply 0 = 0xFFFF
    /\ wire_u16 Reply 2 = 0x4F4B
    /\ wire_u32 Reply 4 = 2
    /\ wire_u32 Reply 8 = wire_u32 Data 8
    /\ wire_u32 Reply 12 = wrap 32 (RandomNumbers w (nRandomReads w))
    /\ skipn 16 Reply = list_byte_of_string "mt32-pi" ++ [x00]
    /\ m_nSSRC (snd (fst (fst (Run_iteration tick p w))))
       = wrap 32 (RandomNumbers w (nRandomReads w)).
Proof.
  intros Hs Ec Em (Hlen & Hsig & Hcmd & Hver).
  destruct (received_control_header tick p Data IP Port Ec Hlen)
    as (Hn & H0 & H2 & H4 & H8 & H12 & Hport).
  destruct (received_session tick p) as (Hst & _ & _).
  pose proof (received_sender tick p) as Hip. rewrite Ec in Hip. cbn [sender_of] in Hip.
  change (match MIDIReceive tick with
          | Datagram _ IP0 _ => IP0
          | _ => IP
          end) with (sender_of (MIDIReceive tick) IP) in Hip.
  rewrite Run_iteration_closed, Ec, Em. cbn [is_error].
  unfold Dispatch. rewrite Hst, Hs.
  set (q := received tick p) in *.
  destruct (ParseInvitationPacket_header (m_ControlBuffer q) (m_nControlResult q) Hn
              ltac:(congruence) ltac:(congruence) ltac:(congruence))
    as (pkt & Hp & Htok & Hssrc).
  destruct (ControlInvitationState_sent q w pkt ltac:(lia) Hp)
    as (p1 & rest & Hp1 & Hev & Hrest & Hres).
  rewrite Hip, Hport in Hev.
  assert (Htok1 : m_nInitiatorToken p1 = wire_u32 Data 8)
    by (subst p1; cbn [set_nSSRC set_nInitiatorSSRC set_nInitiatorToken m_nInitiatorToken];
        congruence).
  assert (Hssrc1 : m_nSSRC p1 = wrap 32 (RandomNumbers w (nRandomReads w)))
    by (subst p1; reflexivity).
  assert (Hr1 : 0 <= m_nInitiatorToken p1 < 2 ^ 32)
    by (rewrite Htok1; apply wire_u32_range).
  assert (Hr2 : 0 <= m_nSSRC p1 < 2 ^ 32)
    by (rewrite Hssrc1; apply wrap_range; lia).
  pose proof (AcceptPacket_wire p1 Hr1 Hr2) as Hw. cbv zeta in Hw.
  rewrite Htok1, Hssrc1 in Hw.
  destruct Hw as (W0 & W1 & W2 & W3 & W4 & W5 & W6).
  exists (firstn 24 (memory_TAppleMIDIInvitation (AcceptPacket p1))), rest.
  destruct (ControlInvitationState q w) as [[p' w'] ev']. cbn [fst snd] in Hev, Hres |- *.
  split; [exact Hev|]. repeat split; try assumption.
  destruct Hres as [-> | [c ->]]; exact Hssrc1.
Qed.

Lemma control_invitation_reply_witness :
  exists (Reply : list byte) (rest : list TEvent),
    snd (Run_iteration CrossedTick Construct World0)
    = EvSendTo ControlSocket 0xC0000263 5004 Reply :: rest
    /\ sent_data rest = []
    /\ List.length Reply = 24%nat
    /\ wire_u16 Reply 0 = 0xFFFF
    /\ wire_u16 Reply 2 = 0x4F4B
    /\ wire_u32 Reply 4 = 2
    /\ wire_u32 Reply 8 = 0xDEADBEEF
    /\ wire_u32 Reply 12 = 0x12345678
    /\ skipn 16 Reply = list_byte_of_string "mt32-pi" ++ [x00]
    /\ m_nSSRC (snd (fst (fst (Run_iteration CrossedTick Construct World0))))
       = 0x12345678.
Proof.
  apply (control_invitation_reply CrossedTick Construct World0 InvitationFrame
           0xC000020A 5004).
  - reflexivity.
  - reflexivity.
  - reflexivity.
  - split; [cbn; lia|]. repeat split.
Defined.

(** ** What the handshake states do not look at *)

Lemma MIDIInvitationState_same_but_control (p q : CAppleMIDIParticipant) (w : TWorld) :
  same_but_control p q ->
  (m_nMIDIResult p > 0 -> m_InitiatorIPAddress q = m_InitiatorIPAddress p) ->
  snd (MIDIInvitationState q w) = snd (MIDIInvitationState p w)
  /\ snd (fst (MIDIInvitationState q w)) = snd (fst (MIDIInvitationState p w))
  /\ same_but_control (fst (fst (MIDIInvitationState p w)))
                      (fst (fst (MIDIInvitationState q w))).
Proof.
  destruct p as [ip cp mp cb mb cr mr h st tok issrc ssrc lm oe ls sq lfs lft].
  destruct q as [ip' cp' mp' cb' mb' cr' mr' h' st' tok' issrc' ssrc' lm' oe' ls' sq'
                   lfs' lft'].
  unfold same_but_control. fields.
  intros (-> & -> & -> & -> & -> & -> & -> & -> & -> & -> & -> & -> & -> & ->) Hip.
  unfold MIDIInvitationState. rewrite !SendAcceptInvitationPacket_eq.
  unfold SendPacket, AcceptPacket. fields.
  destruct (Z.gtb_spec mr 0) as [Hn|Hn].
  - rewrite (Hip ltac:(lia)).
    destruct (ParseInvitationPacket mb mr) as [pkt|]; unfold_M; paths; fields;
      repeat split.
  - unfold_M. paths; fields; repeat split.
Qed.

Lemma ControlInvitationState_same_but_data (p q : CAppleMIDIParticipant) (w : TWorld) :
  same_but_data p q ->
  snd (ControlInvitationState q w)
  = map (readdress (m_InitiatorIPAddress q)) (snd (ControlInvitationState p w))
  /\ snd (fst (ControlInvitationState q w)) = snd (fst (ControlInvitationState p w))
  /\ same_but_data (fst (fst (ControlInvitationState p w)))
                   (fst (fst (ControlInvitationState q w))).
Proof.
  destruct p as [ip cp mp cb mb cr mr h st tok issrc ssrc lm oe ls sq lfs lft].
  destruct q as [ip' cp' mp' cb' mb' cr' mr' h' st' tok' issrc' ssrc' lm' oe' ls' sq'
                   lfs' lft'].
  unfold same_but_data. fields.
  intros (-> & -> & -> & -> & -> & -> & -> & -> & -> & -> & -> & -> & -> & ->).
  unfold ControlInvitationState.
  cbn [m_nControlResult m_ControlBuffer].
  destruct (cr =? 0); [unfold ret; fields; repeat split|].
  destruct (ParseInvitationPacket cb cr) as [pkt|];
    [|unfold_M; fields; repeat split].
  unfold SendAcceptInvitationPacket, SendPacket, AcceptPacket, GetSyncClock, init_nStartTime, GetClockTicks,
    GetNumber, SendTo, Write, bind, ret.
  cbv [set_State set_nInitiatorToken set_nInitiatorSSRC set_nSSRC set_nLastSyncTime
       m_InitiatorIPAddress m_nInitiatorControlPort m_nInitiatorMIDIPort
       m_ControlBuffer m_MIDIBuffer m_nControlResult m_nMIDIResult
       m_pReceiveHandler m_State m_nInitiatorToken m_nInitiatorSSRC m_nSSRC
       m_nLastMIDISequenceNumber m_nOffsetEstimate m_nLastSyncTime
       m_nSequence m_nLastFeedbackSequence m_nLastFeedbackTime
       ClockTicks nClockReads nStartTime RandomNumbers nRandomReads SendToResults nSendTo].
  destruct w as [ct nc stt rn nr sr ns].
  destruct (sr ns <? 0); [cbn [fst snd app map readdress negb]; repeat split|].
  destruct (negb (sr ns =? _)); [cbn [fst snd app map readdress negb]; repeat split|].
  cbn [negb]. destruct stt; cbn [fst snd app map readdress]; repeat split.
Qed.

Lemma received_same_but_control (c c' m : TReceive) (p : CAppleMIDIParticipant) :
  same_but_control (received (mkTick c m) p) (received (mkTick c' m) p)
  /\ (m_nMIDIResult (received (mkTick c m) p) > 0 ->
      m_InitiatorIPAddress (received (mkTick c' m) p)
      = m_InitiatorIPAddress (received (mkTick c m) p)).
Proof.
  unfold received, ReceiveMIDI, ReceiveControl, same_but_control.
  cbn [ControlReceive MIDIReceive].
  destruct (ReceiveFrom c _ _ _) as [[[n1 b1] i1] q1].
  destruct (ReceiveFrom c' _ _ _) as [[[n1' b1'] i1'] q1'].
  cbn [m_MIDIBuffer m_InitiatorIPAddress m_nInitiatorMIDIPort].
  destruct m as [|Data IP Port|e]; cbn [ReceiveFrom]; fields;
    (split; [repeat split|]); intros H; try reflexivity; lia.
Qed.

Lemma received_same_but_data (c m m' : TReceive) (p : CAppleMIDIParticipant) :
  same_but_data (received (mkTick c m) p) (received (mkTick c m') p).
Proof.
  unfold received, ReceiveMIDI, ReceiveControl, same_but_data.
  cbn [ControlReceive MIDIReceive].
  destruct (ReceiveFrom c _ _ _) as [[[n1 b1] i1] q1].
  cbn [m_MIDIBuffer m_InitiatorIPAddress m_nInitiatorMIDIPort].
  destruct (ReceiveFrom m _ _ _) as [[[n2 b2] i2] q2].
  destruct (ReceiveFrom m' _ _ _) as [[[n2' b2'] i2'] q2'].
  fields. repeat split.
Qed.

(** X14.  Each handshake state decides on one socket only.

    In [MIDIInvitation] the control port has no part: two iterations that
    find the same thing on the data port and anything, an end-session frame
    or a new invitation included, on the control port produce the same
    events and the same use of the collaborators, and leave participants
    that differ at most in what the receive on the control socket writes.

    In [ControlInvitation] the data port has one part only, through the
    address: two iterations that find the same thing on the control port and
    different things on the data port produce the same events but for the
    destination address of the datagram sent, which is the sender of the
    data-port datagram when there is one; the use of the collaborators is
    the same and the participants differ at most in what the receive on the
    data socket writes. *)
Theorem handshake_states_read_one_port (c c' m m' : TReceive)
    (p : CAppleMIDIParticipant) (w : TWorld) :
  (m_State p = MIDIInvitation ->
   is_error c = false ->
   is_error c' = false ->
   snd (Run_iteration (mkTick c' m) p w) = snd (Run_iteration (mkTick c m) p w)
   /\ snd (fst (Run_iteration (mkTick c' m) p w))
      = snd (fst (Run_iteration (mkTick c m) p w))
   /\ fst (fst (fst (Run_iteration (mkTick c' m) p w)))
      = fst (fst (fst (Run_iteration (mkTick c m) p w)))
   /\ same_but_control (snd (fst (fst (Run_iteration (mkTick c m) p w))))
                       (snd (fst (fst (Run_iteration (mkTick c' m) p w)))))
  /\ (m_State p = ControlInvitation ->
      is_error m = false ->
      is_error m' = false ->
      snd (Run_iteration (mkTick c m') p w)
      = map (readdress (sender_of m' (sender_of c (m_InitiatorIPAddress p))))
            (snd (Run_iteration (mkTick c m) p w))
      /\ snd (fst (Run_iteration (mkTick c m') p w))
         = snd (fst (Run_iteration (mkTick c m) p w))
      /\ fst (fst (fst (Run_iteration (mkTick c m') p w)))
         = fst (fst (fst (Run_iteration (mkTick c m) p w)))
      /\ same_but_data (snd (fst (fst (Run_iteration (mkTick c m) p w))))
                       (snd (fst (fst (Run_iteration (mkTick c m') p w))))).
Proof.
  split.
  - intros Hs Hc Hc'.
    rewrite !Run_iteration_closed. cbn [ControlReceive MIDIReceive]. rewrite Hc, Hc'.
    destruct (received_same_but_control c c' m p) as [Hsame Hip].
    destruct (is_error m).
    { cbn [fst snd]. repeat split; apply Hsame. }
    destruct (received_session (mkTick c m) p) as (Hst & _ & _).
    destruct (received_session (mkTick c' m) p) as (Hst' & _ & _).
    unfold Dispatch. rewrite Hst, Hst', Hs.
    destruct (MIDIInvitationState_same_but_control _ _ w Hsame Hip) as (He & Hw & Hp).
    destruct (MIDIInvitationState (received (mkTick c m) p) w) as [[p1 w1] ev1].
    destruct (MIDIInvitationState (received (mkTick c' m) p) w) as [[p2 w2] ev2].
    cbn [fst snd] in *. repeat split; try assumption; apply Hp.
  - intros Hs Hm Hm'.
    rewrite !Run_iteration_closed. cbn [ControlReceive MIDIReceive]. rewrite Hm, Hm'.
    destruct (is_error c); [cbn [fst snd map readdress]; repeat split|].
    pose proof (received_same_but_data c m m' p) as Hsame.
    pose proof (received_sender (mkTick c m') p) as Hip.
    cbn [ControlReceive MIDIReceive] in Hip.
    destruct (received_session (mkTick c m) p) as (Hst & _ & _).
    destruct (received_session (mkTick c m') p) as (Hst' & _ & _).
    unfold Dispatch. rewrite Hst, Hst', Hs.
    destruct (ControlInvitationState_same_but_data _ _ w Hsame) as (He & Hw & Hp).
    rewrite Hip in He.
    destruct (ControlInvitationState (received (mkTick c m) p) w) as [[p1 w1] ev1].
    destruct (ControlInvitationState (received (mkTick c m') p) w) as [[p2 w2] ev2].
    cbn [fst snd] in *. repeat split; try assumption; apply Hp.
Qed.

Lemma handshake_states_read_one_port_witness :
  snd (Run_iteration CrossedTick Construct World0)
  = map (readdress 0xC0000263) (snd (Run_iteration ControlInvitationTick Construct World0))
  /\ snd (fst (Run_iteration CrossedTick Construct World0))
     = snd (fst (Run_iteration ControlInvitationTick Construct World0))
  /\ fst (fst (fst (Run_iteration CrossedTick Construct World0)))
     = fst (fst (fst (Run_iteration ControlInvitationTick Construct World0)))
  /\ same_but_data (snd (fst (fst (Run_iteration ControlInvitationTick Construct World0))))
                   (snd (fst (fst (Run_iteration CrossedTick Construct World0)))).
Proof.
  exact (proj2 (handshake_states_read_one_port
                  (Datagram InvitationFrame 0xC000020A 5004) NoData NoData
                  (Datagram NoteOnFrame 0xC0000263 6001) Construct World0)
           eq_refl eq_refl eq_refl).
Defined.

(** ** Delivery to the sink in an iteration *)

Lemma sink_data_app (ev1 ev2 : list TEvent) :
  sink_data (ev1 ++ ev2) = sink_data ev1 ++ sink_data ev2.
Proof.
  induction ev1 as [|e r IH]; [reflexivity|].
  destruct e; cbn [app sink_data]; rewrite IH; reflexivity.
Qed.

Lemma sink_data_none (ev : list TEvent) :
  (forall Data : list byte, ~ In (EvReceiveHandler Data) ev) -> sink_data ev = [].
Proof.
  induction ev as [|e r IH]; intros H; [reflexivity|].
  destruct e as [s m|s i n d|d]; cbn [sink_data].
  - apply IH. intros Data Hin. apply (H Data). right. exact Hin.
  - apply IH. intros Data Hin. apply (H Data). right. exact Hin.
  - exfalso. apply (H d). left. reflexivity.
Qed.

(** After the data-port block nothing reaches the sink, and unless the
    session is reset the received sequence number stays. *)
Lemma ConnectedState_after_MIDI (p : CAppleMIDIParticipant) (w : TWorld) :
  ends_session p = false ->
  sink_data (snd (ConnectedState p w)) = sink_data (snd (ConnectedState_MIDI p w))
  /\ (m_State (fst (fst (ConnectedState p w))) = Connected ->
      m_nSequence (fst (fst (ConnectedState p w)))
      = m_nSequence (fst (fst (ConnectedState_MIDI p w)))).
Proof.
  intros Hend.
  rewrite ConnectedState_blocks, ConnectedState_Control_closed, Hend.
  destruct (ConnectedState_MIDI p w) as [[p1 w1] ev1]. cbn [fst snd].
  pose proof (events_GetSyncClock w1) as Ec.
  destruct (GetSyncClock w1) as [[nTicks w2] ev2]. cbn [snd] in Ec. subst ev2.
  assert (Hf : sink_data (snd (ConnectedState_Feedback nTicks p1 w2)) = []
               /\ m_nSequence (fst (fst (ConnectedState_Feedback nTicks p1 w2)))
                  = m_nSequence p1).
  { destruct (ConnectedState_Feedback_cases nTicks p1 w2)
      as [[_ Ef] | [(_ & _ & Ef) | (_ & _ & Ef)]]; rewrite Ef; cbn [fst snd];
      (split; [|reflexivity]); try reflexivity.
    apply sink_data_none. intros Data. apply SendPacket_no_sink. }
  destruct (ConnectedState_Feedback nTicks p1 w2) as [[p3 w3] ev3].
  cbn [fst snd] in Hf. destruct Hf as [Hf1 Hf2].
  destruct (ConnectedState_Timeout_cases nTicks p3 w3) as [Et|Et]; rewrite Et;
    cbn [fst snd]; rewrite !sink_data_app, Hf1.
  - split; [destruct SyncSilenceTimeout; cbn [trigger_log sink_data app];
            rewrite ?app_nil_r; reflexivity|].
    cbn [Reset m_State]. discriminate.
  - split; [cbn [sink_data app]; rewrite ?app_nil_r; reflexivity|].
    intros _. exact Hf2.
Qed.

(** X24.  Delivery in an iteration of [Connected].  When no end-session
    frame of the initiator is in the control buffer and the data port gave a
    datagram whose first two bytes are those of an RTP-MIDI frame, with the
    payload that its command header declares inside the receive buffer, the
    iteration calls the registered sink once, with the declared payload
    after the SysEx rules; unless the iteration resets the session by the
    sync timeout, the sequence number of the frame is the received sequence
    number afterwards.  The SSRC and the timestamp of the frame and the
    address it came from are not looked at.  Without a registered sink
    nothing is delivered, and the sequence number is recorded just the
    same.  The iteration calls no sink when an end-session frame of the
    initiator is in the control buffer, when the data port gave nothing, or
    when the first two bytes in the data buffer are not those of an RTP-MIDI
    frame. *)
Theorem MIDI_delivery (p : CAppleMIDIParticipant) (w : TWorld) :
  m_State p = Connected ->
  (ends_session p = false ->
   m_nMIDIResult p > 0 ->
   is_RTP_MIDI (m_MIDIBuffer p) = true ->
   payload_inside (m_MIDIBuffer p) ->
   sink_data (snd (Dispatch p w))
   = (if m_pReceiveHandler p
      then [SysEx_fixup [xf7] (payload (m_MIDIBuffer p))]
      else [])
   /\ (m_State (fst (fst (Dispatch p w))) = Connected ->
       m_nSequence (fst (fst (Dispatch p w))) = wire_u16 (m_MIDIBuffer p) 2))
  /\ (ends_session p = true -> sink_data (snd (Dispatch p w)) = [])
  /\ (m_nMIDIResult p <= 0 -> sink_data (snd (Dispatch p w)) = [])
  /\ (is_RTP_MIDI (m_MIDIBuffer p) = false -> sink_data (snd (Dispatch p w)) = []).
Proof.
  intros Hs. unfold Dispatch. rewrite Hs.
  split; [|split; [|split]].
  - intros Hend Hn Hrtp _.
    destruct (ConnectedState_after_MIDI p w Hend) as [Hsink Hseq].
    rewrite Hsink, (ConnectedState_MIDI_delivery p w Hn Hrtp) in *. cbn [fst snd] in *.
    split; [destruct (m_pReceiveHandler p); reflexivity|exact Hseq].
  - intros Hend. rewrite ConnectedState_blocks, ConnectedState_Control_closed, Hend.
    reflexivity.
  - intros Hn. apply sink_data_none. intros Data Hin.
    destruct (ConnectedState_sink p w Data Hin) as (_ & _ & Hgt & _). lia.
  - intros Hrtp. apply sink_data_none. intros Data Hin.
    destruct (ConnectedState_sink p w Data Hin) as (_ & _ & _ & Ht & _). congruence.
Qed.

Lemma MIDI_delivery_witness :
  sink_data (snd (Dispatch (ConnectedWith NoteOnFrame) World0))
  = (if m_pReceiveHandler (ConnectedWith NoteOnFrame)
     then [SysEx_fixup [xf7] (payload (m_MIDIBuffer (ConnectedWith NoteOnFrame)))]
     else [])
  /\ (m_State (fst (fst (Dispatch (ConnectedWith NoteOnFrame) World0))) = Connected ->
      m_nSequence (fst (fst (Dispatch (ConnectedWith NoteOnFrame) World0)))
      = wire_u16 (m_MIDIBuffer (ConnectedWith NoteOnFrame)) 2).
Proof.
  apply (proj1 (MIDI_delivery (ConnectedWith NoteOnFrame) World0 eq_refl)).
  - vm_compute. reflexivity.
  - vm_compute. reflexivity.
  - vm_compute. reflexivity.
  - split; [vm_compute; reflexivity|vm_compute; discriminate].
Defined.

(** X26.  The sink is called only in [Connected], in an iteration that finds
    no end-session frame of the initiator in the control buffer, for a
    datagram on the data port whose first two bytes are those of an RTP-MIDI
    frame; when the payload that the frame declares lies inside the receive
    buffer, the sink is given that payload after the SysEx rules.  Along an
    execution the registration of the sink never changes, and a participant
    without a registered sink calls none. *)
Theorem sink_calls (ticks : list TTick) (p : CAppleMIDIParticipant) (w : TWorld)
    (Data : list byte) :
  (In (EvReceiveHandler Data) (snd (Dispatch p w)) ->
   m_State p = Connected
   /\ ends_session p = false
   /\ m_pReceiveHandler p = true
   /\ m_nMIDIResult p > 0
   /\ is_RTP_MIDI (m_MIDIBuffer p) = true
   /\ (payload_inside (m_MIDIBuffer p) ->
       Data = SysEx_fixup [xf7] (payload (m_MIDIBuffer p))))
  /\ m_pReceiveHandler (participant_after ticks p w) = m_pReceiveHandler p
  /\ (In (EvReceiveHandler Data) (snd (Run ticks p w)) -> m_pReceiveHandler p = true).
Proof.
  split.
  { intros H. destruct (Dispatch_sink p w Data H) as (H1 & H2 & H3 & H4 & H5 & H6).
    repeat split; try assumption. intros _. exact H6. }
  unfold participant_after.
  revert p w. induction ticks as [|t l IH]; intros p w.
  { split; [reflexivity|]. cbn. tauto. }
  cbn [Run]. unfold bind. rewrite Run_iteration_closed.
  destruct (received_handler t p) as [Hr Hc].
  destruct (is_error (ControlReceive t)).
  { cbn [fst snd]. split; [exact Hc|]. cbn. intuition discriminate. }
  destruct (is_error (MIDIReceive t)).
  { cbn [fst snd]. split; [exact Hr|]. cbn. intuition discriminate. }
  assert (Hd : m_pReceiveHandler (fst (fst (Dispatch (received t p) w)))
               = m_pReceiveHandler p).
  { rewrite <- Hr. unfold Dispatch. destruct (m_State (received t p)).
    - apply ControlInvitationState_handler.
    - apply MIDIInvitationState_handler.
    - apply ConnectedState_handler. }
  pose proof (Dispatch_sink (received t p) w Data) as Hs.
  destruct (Dispatch _ w) as [[p' w'] ev']. cbn [fst snd] in Hd, Hs.
  specialize (IH p' w').
  destruct (Run l p' w') as [[[b1 p1] w1] ev1]. cbn [fst snd] in IH |- *.
  destruct IH as [IH1 IH2].
  split; [congruence|].
  rewrite in_app_iff. intros [H|H].
  - destruct (Hs H) as (_ & _ & Hh & _). congruence.
  - rewrite <- Hd. apply IH2. exact H.
Qed.

Lemma sink_calls_witness :
  m_State (ConnectedWith NoteOnFrame) = Connected
  /\ ends_session (ConnectedWith NoteOnFrame) = false
  /\ m_pReceiveHandler (ConnectedWith NoteOnFrame) = true
  /\ m_nMIDIResult (ConnectedWith NoteOnFrame) > 0
  /\ is_RTP_MIDI (m_MIDIBuffer (ConnectedWith NoteOnFrame)) = true
  /\ (payload_inside (m_MIDIBuffer (ConnectedWith NoteOnFrame)) ->
      bytes_of [0x90; 0x3C; 0x7F]
      = SysEx_fixup [xf7] (payload (m_MIDIBuffer (ConnectedWith NoteOnFrame)))).
Proof.
  apply (proj1 (sink_calls [] (ConnectedWith NoteOnFrame) World0
                  (bytes_of [0x90; 0x3C; 0x7F]))).
  left. reflexivity.
Defined.


